(** * Attendance tracker (src/main.py): a shallow embedding and its properties

    The development follows the Python source function by function.

    - Python floats are IEEE binary64 numbers: they are Rocq's primitive
      floats, so [total_seconds() / 3600] and [round(x, 2)] are computed
      bit for bit as CPython computes them.
    - A Python [str] is its UTF-8 encoding; whitespace and decimal digits
      are those of Unicode, as [str.strip] and [re] take them.
    - A date is its ordinal, and [datetime] arithmetic raises
      [OverflowError] past 9999-12-31.
    - The MongoDB collections are lists of documents in insertion order;
      [find_one] returns the first match, [insert_one] appends and never
      refuses (the source creates no unique index).
    - The clock, the photo payload and the text typed by the administrator
      are inputs of the operations.
    - Pillow (PIL) and geopy are outside the repository: they are
      interfaces, [Pillow] with the three calls [save_image] makes and
      [Geopy] with the distance [is_within_allowed_location] asks for. *)

From Stdlib Require Import ZArith List String Ascii Bool Lia.
From Stdlib Require Import Strings.Byte.
From Stdlib Require Import Floats.
From Stdlib Require Import DecimalString DecimalZ.
Import ListNotations.

Set Warnings "-inexact-float".
Local Open Scope Z_scope.

(* ================================================================== *)
(** ** Python numbers *)

(** [float(z)] for an integer of magnitude below 2^53 (exact there). *)
Definition float_of_Z (z : Z) : float :=
  match z with
  | Z0 => PrimFloat.zero
  | Zpos _ => PrimFloat.of_uint63 (Uint63.of_Z z)
  | Zneg p => PrimFloat.opp (PrimFloat.of_uint63 (Uint63.of_Z (Zpos p)))
  end.

(** The integer nearest to [n / d] ([d > 0]), an exact tie going to the
    even neighbour. *)
Definition round_half_even (n d : Z) : Z :=
  let q := n / d in
  let r := n mod d in
  if 2 * r <? d then q
  else if d <? 2 * r then q + 1
  else if Z.even q then q else q + 1.

(** The float that the decimal [n / 100] denotes: the binary64 number
    nearest to it.  Both operands are exact floats and IEEE division rounds
    once, so this is what [strtod] returns for the two-decimal string. *)
Definition float_of_hundredths (n : Z) : float :=
  PrimFloat.div (float_of_Z n) (float_of_Z 100).

(** [round(x, 2)] on a float, as CPython's [float.__round__] does it: the
    exact binary value of [x] is rounded to the nearest multiple of 1/100
    (ties to even), and the decimal result is read back as a float, with the
    sign of [x].  NaN, the infinities and the floats with no fractional bit
    round to themselves.  (Meant for |x| < 2^46, where the hundredths fit a
    float exactly; every value of this program is below 48.) *)
Definition py_round2 (x : float) : float :=
  match Prim2SF x with
  | S754_finite s m e =>
      if 0 <=? e then x
      else
        let r := float_of_hundredths (round_half_even (100 * Zpos m) (2 ^ (- e))) in
        if s then PrimFloat.opp r else r
  | _ => x
  end.

(* ================================================================== *)
(** ** Times of day, datetimes and the clock *)

(** What the program reads of a [datetime]: [.hour] and [.minute]. *)
Record time : Set := mk_time { hour : Z; minute : Z }.

Definition wf_time (t : time) : Prop :=
  0 <= hour t < 24 /\ 0 <= minute t < 60.

Definition time_eqb (a b : time) : bool :=
  (hour a =? hour b) && (minute a =? minute b).

Definition minutes_of (t : time) : Z := 60 * hour t + minute t.

(** [IST = pytz.timezone('Asia/Kolkata')]: UTC+05:30, no daylight saving
    (the zone's offset since 1945). *)
Definition IST_OFFSET : Z := 19800.

(** [get_current_ist_time()]: [datetime.now(IST)], from the clock reading in
    seconds since the epoch. *)
Definition get_current_ist_time (clock : Z) : time :=
  let wall := clock + IST_OFFSET in
  {| hour := (wall / 3600) mod 24; minute := (wall / 60) mod 60 |}.

(** A [datetime] whose seconds and microseconds are zero, as all of this
    program's are; [dt_date] is the day's ordinal ([date.toordinal()]), from
    1 for 0001-01-01 to [MAXORDINAL] for 9999-12-31. *)
Record datetime : Set := mk_datetime { dt_date : Z; dt_hour : Z; dt_minute : Z }.

Definition MAXORDINAL : Z := 3652059.

(** [datetime.combine(date, datetime.min.time())] *)
Definition combine_min (date : Z) : datetime :=
  {| dt_date := date; dt_hour := 0; dt_minute := 0 |}.

(** [d.replace(hour=h, minute=m)] *)
Definition replace_hm (d : datetime) (h m : Z) : datetime :=
  {| dt_date := dt_date d; dt_hour := h; dt_minute := m |}.

(** [d + timedelta(days=n)]: [None] stands for [OverflowError], raised when
    the day is not one a [datetime] can hold. *)
Definition add_days (d : datetime) (n : Z) : option datetime :=
  let day := dt_date d + n in
  if (1 <=? day) && (day <=? MAXORDINAL) then
    Some {| dt_date := day; dt_hour := dt_hour d; dt_minute := dt_minute d |}
  else None.

Definition seconds_of (d : datetime) : Z :=
  86400 * dt_date d + 3600 * dt_hour d + 60 * dt_minute d.

(** [a - b], a [timedelta], in whole seconds. *)
Definition datetime_sub (a b : datetime) : Z := seconds_of a - seconds_of b.

(** [timedelta.total_seconds()] *)
Definition total_seconds (td : Z) : float := float_of_Z td.

(** [(a - b).total_seconds() / 3600] *)
Definition hours_between (a b : datetime) : float :=
  PrimFloat.div (total_seconds (datetime_sub a b)) (float_of_Z 3600).

(** [datetime.strptime(s, fmt)] yields a datetime on 1900-01-01. *)
Definition datetime_1900 (t : time) : datetime :=
  {| dt_date := 693596; dt_hour := hour t; dt_minute := minute t |}.

(* ================================================================== *)
(** ** Text

    A Python [str] is represented by its UTF-8 encoding, the bytes that
    [str.encode()] returns, [hashlib] digests and MongoDB stores: a [string]
    here is that sequence of bytes, and two texts are equal when their
    encodings are.  (A [str] with a lone surrogate has no encoding; the
    program can neither hash nor store one.)  Where Python looks at
    characters ([str.strip], the classes [\s] and [\d] of [re], [int]), the
    bytes are grouped into characters and decoded. *)

Definition code (c : ascii) : Z := Z.of_N (N_of_ascii c).

(** A byte [10xxxxxx] continues the character begun before it. *)
Definition continuation (b : ascii) : bool := (128 <=? code b) && (code b <? 192).

Definition starts_continuation (c : string) : bool :=
  match c with
  | String b _ => continuation b
  | EmptyString => false
  end.

(** The characters of a text, each as its own bytes: a byte and the
    continuation bytes that follow it. *)
Fixpoint chars (s : string) : list string :=
  match s with
  | EmptyString => []
  | String b r =>
      match chars r with
      | c :: cs =>
          if starts_continuation c then String b c :: cs
          else String b EmptyString :: c :: cs
      | [] => [String b EmptyString]
      end
  end.

(** The characters put together again. *)
Fixpoint text (l : list string) : string :=
  match l with
  | [] => EmptyString
  | c :: r => (c ++ text r)%string
  end.

(** The code point that the bytes of one character encode; [None] for
    bytes that are no UTF-8 character. *)
Definition code_point (c : string) : option Z :=
  match c with
  | EmptyString => None
  | String a t =>
      let t := list_ascii_of_string t in
      if forallb continuation t then
        match map (fun b => code b - 128) t with
        | [] => if code a <? 128 then Some (code a) else None
        | [x] =>
            if (194 <=? code a) && (code a <? 224) then Some (64 * (code a - 192) + x)
            else None
        | [x; y] =>
            let n := 4096 * (code a - 224) + 64 * x + y in
            if (224 <=? code a) && (code a <? 240) && (2048 <=? n)
               && negb ((55296 <=? n) && (n <? 57344))
            then Some n else None
        | [x; y; z] =>
            let n := 262144 * (code a - 240) + 4096 * x + 64 * y + z in
            if (240 <=? code a) && (65536 <=? n) && (n <? 1114112) then Some n else None
        | _ => None
        end
      else None
  end.

(** The code points that [str.isspace], [str.strip] and the class [\s] of
    [re] take as whitespace, as ranges. *)
Definition WHITESPACE : list (Z * Z) :=
  [(0x9, 0xd); (0x1c, 0x20); (0x85, 0x85); (0xa0, 0xa0); (0x1680, 0x1680);
   (0x2000, 0x200a); (0x2028, 0x2029); (0x202f, 0x202f); (0x205f, 0x205f);
   (0x3000, 0x3000)].

Definition is_space (n : Z) : bool :=
  existsb (fun '(lo, hi) => (lo <=? n) && (n <=? hi)) WHITESPACE.

(** The decimal digits, which the class [\d] of [re] matches and [int]
    reads (category Nd; Unicode 14.0, the table of CPython 3.11): the
    digits 0 to 9 of a script are ten code points in a row, listed here by
    their zero. *)
Definition DECIMAL_ZEROS : list Z :=
  [0x30; 0x660; 0x6f0; 0x7c0; 0x966; 0x9e6; 0xa66; 0xae6; 0xb66; 0xbe6; 0xc66;
   0xce6; 0xd66; 0xde6; 0xe50; 0xed0; 0xf20; 0x1040; 0x1090; 0x17e0; 0x1810;
   0x1946; 0x19d0; 0x1a80; 0x1a90; 0x1b50; 0x1bb0; 0x1c40; 0x1c50; 0xa620;
   0xa8d0; 0xa900; 0xa9d0; 0xa9f0; 0xaa50; 0xabf0; 0xff10; 0x104a0; 0x10d30;
   0x11066; 0x110f0; 0x11136; 0x111d0; 0x112f0; 0x11450; 0x114d0; 0x11650;
   0x116c0; 0x11730; 0x118e0; 0x11950; 0x11c50; 0x11d50; 0x11da0; 0x16a60;
   0x16ac0; 0x16b50; 0x1d7ce; 0x1d7d8; 0x1d7e2; 0x1d7ec; 0x1d7f6; 0x1e140;
   0x1e2f0; 0x1e950; 0x1fbf0].

(** The value of a decimal digit. *)
Definition decimal_of (n : Z) : option Z :=
  match find (fun z => (z <=? n) && (n <? z + 10)) DECIMAL_ZEROS with
  | Some z => Some (n - z)
  | None => None
  end.

(** A whitespace character, and a decimal digit with its value. *)
Definition space_char (c : string) : bool :=
  match code_point c with
  | Some n => is_space n
  | None => false
  end.

Definition decimal_char (c : string) : option Z :=
  match code_point c with
  | Some n => decimal_of n
  | None => None
  end.

(** The characters left when the whitespace in front is dropped, and when
    the whitespace at the end is. *)
Fixpoint lstrip_chars (l : list string) : list string :=
  match l with
  | c :: r => if space_char c then lstrip_chars r else l
  | [] => []
  end.

Fixpoint rstrip_chars (l : list string) : list string :=
  match l with
  | [] => []
  | c :: r =>
      match rstrip_chars r with
      | [] => if space_char c then [] else [c]
      | r' => c :: r'
      end
  end.

(** [s.strip()]: [s] without the whitespace at both ends. *)
Definition strip (s : string) : string := text (rstrip_chars (lstrip_chars (chars s))).

(** Every character of [s] is whitespace ([s] may be empty). *)
Definition all_space (s : string) : bool := forallb space_char (chars s).

(* ================================================================== *)
(** ** [strftime('%I:%M %p')] and [strptime(_, '%I:%M %p')]

    The locale is the C/English one ("AM"/"PM"). *)

Definition digit_char (d : Z) : ascii := ascii_of_N (Z.to_N (48 + d)).

Definition two_digits (n : Z) : string :=
  String (digit_char (n / 10)) (String (digit_char (n mod 10)) EmptyString).

(** The 12-hour clock's hour, 01..12. *)
Definition hour12 (h : Z) : Z := if h mod 12 =? 0 then 12 else h mod 12.

Definition strftime_I_M_p (t : time) : string :=
  (two_digits (hour12 (hour t)) ++ ":" ++ two_digits (minute t) ++ " "
     ++ (if (hour t <? 12)%Z then "AM" else "PM"))%string.

(** The classes [[0-9]] and the like, written with ASCII digits in the
    expression: the byte is one of these digits, and its value. *)
Definition digit_of (c : ascii) : option Z :=
  let n := code c in
  if (48 <=? n) && (n <=? 57) then Some (n - 48) else None.

Definition to_lower (c : ascii) : ascii :=
  let n := code c in
  if (65 <=? n) && (n <=? 90) then ascii_of_N (Z.to_N (n + 32)) else c.

(** The regular expression [_strptime] builds for ['%I:%M %p'] (CPython up
    to 3.12) is [(?P<I>1[0-2]|0[1-9]|[1-9]):(?P<M>[0-5]\d|\d)\s+(?P<p>am|pm)],
    case-insensitive.  Each matcher lists its matches in the order the
    backtracking engine tries them, with the text left over.  The digits
    and letters written in the expression are ASCII, and no other character
    matches them, with or without case; [\d] and [\s] are the classes of
    all decimal digits and all whitespace. *)

(** [1[0-2]|0[1-9]|[1-9]] *)
Definition match_I (s : string) : list (Z * string) :=
  match s with
  | EmptyString => []
  | String c1 r1 =>
      (match r1 with
       | String c2 r2 =>
           (if Ascii.eqb c1 "1" then
              match digit_of c2 with
              | Some d => if d <=? 2 then [(10 + d, r2)] else []
              | None => []
              end
            else [])
           ++
           (if Ascii.eqb c1 "0" then
              match digit_of c2 with
              | Some d => if 1 <=? d then [(d, r2)] else []
              | None => []
              end
            else [])
       | EmptyString => []
       end)
      ++
      match digit_of c1 with
      | Some d => if 1 <=? d then [(d, r1)] else []
      | None => []
      end
  end.

(** [\d]: a decimal digit of any script, with its value. *)
Definition match_d (s : string) : list (Z * string) :=
  match chars s with
  | c :: r =>
      match decimal_char c with
      | Some d => [(d, text r)]
      | None => []
      end
  | [] => []
  end.

(** [[0-5]\d|\d]; the value is [int] of the text matched. *)
Definition match_M (s : string) : list (Z * string) :=
  match s with
  | EmptyString => []
  | String c1 r1 =>
      match digit_of c1 with
      | Some d1 =>
          if d1 <=? 5 then map (fun '(d2, r2) => (10 * d1 + d2, r2)) (match_d r1) else []
      | None => []
      end
  end
  ++ match_d s.

(** A literal character of the format. *)
Definition match_char (c : ascii) (s : string) : list string :=
  match s with
  | String c1 r => if Ascii.eqb c1 c then [r] else []
  | EmptyString => []
  end.

(** [\s+]: at least one whitespace character; what follows in the format
    is a letter, so only the longest run can lead to a match. *)
Definition match_spaces (s : string) : list string :=
  match chars s with
  | c :: r => if space_char c then [text (lstrip_chars r)] else []
  | [] => []
  end.

(** [am|pm], case-insensitive: [true] for pm. *)
Definition match_p (s : string) : list (bool * string) :=
  match s with
  | String c1 (String c2 r) =>
      if Ascii.eqb (to_lower c2) "m" then
        if Ascii.eqb (to_lower c1) "a" then [(false, r)]
        else if Ascii.eqb (to_lower c1) "p" then [(true, r)]
        else []
      else []
  | _ => []
  end.

(** The hour of the day from [%I] and [%p], as [_strptime] converts it. *)
Definition hour_of_I_p (i : Z) (pm : bool) : Z :=
  if pm then (if i =? 12 then 12 else i + 12)
  else (if i =? 12 then 0 else i).

(** Every match of the whole expression at the start of [s], in the
    engine's order. *)
Definition match_I_M_p (s : string) : list (time * string) :=
  flat_map (fun '(i, r1) =>
    flat_map (fun r2 =>
      flat_map (fun '(m, r3) =>
        flat_map (fun r4 =>
          map (fun '(pm, r5) => (mk_time (hour_of_I_p i pm) m, r5))
              (match_p r4))
          (match_spaces r3))
        (match_M r2))
      (match_char ":" r1))
    (match_I s).

(** [datetime.strptime(s, '%I:%M %p')]: [None] stands for [ValueError],
    raised when the text does not match or when text remains after the first
    match. *)
Definition strptime_I_M_p (s : string) : option time :=
  match match_I_M_p s with
  | (t, EmptyString) :: _ => Some t
  | _ => None
  end.

(** The same call on what a document field or a text widget holds: [None]
    (Python's [None], where [strptime] raises [TypeError]) or a string. *)
Definition strptime_field (v : option string) : option time :=
  match v with
  | Some s => strptime_I_M_p s
  | None => None
  end.

(* ================================================================== *)
(** ** Pillow, and [save_image] *)

Definition bytes : Set := list byte.

(** The eight bytes every PNG stream starts with. *)
Definition PNG_SIGNATURE : bytes := [x89; x50; x4e; x47; x0d; x0a; x1a; x0a].

(** The three Pillow calls of [save_image].  Each may raise ([None]):
    [Image.open] on a payload it cannot identify, [resize] when the pixel
    data fails to load, [save] on a mode PNG cannot hold. *)
Class Pillow : Type := {
  image : Type;
  Image_open : bytes -> option image;
  Image_resize : image -> nat * nat -> option image;
  Image_save_PNG : image -> option bytes
}.

(** [save_image(img)], lines 51-56: open, resize to 250 x 250, encode as PNG
    into a buffer, return the buffer's bytes. *)
Definition save_image `{Pillow} (img : bytes) : option bytes :=
  match Image_open img with
  | None => None
  | Some image0 =>
      match Image_resize image0 (250%nat, 250%nat) with
      | None => None
      | Some image1 => Image_save_PNG image1
      end
  end.

(** What is known of Pillow itself: an empty payload is not an image, PNG
    output starts with the PNG signature, and some payload is an image the
    three calls accept. *)
Class PillowFacts `{Pillow} : Type := {
  open_empty : Image_open [] = None;
  save_PNG_signature :
    forall im out, Image_save_PNG im = Some out ->
                   firstn 8 out = PNG_SIGNATURE;
  sample_photo : bytes;
  sample_photo_ok : save_image sample_photo <> None
}.

(** A bitmap file (BMP) of one white pixel: the file header, the
    40-byte information header (1 x 1, 24 bits per pixel, uncompressed) and
    the pixel's row, padded to four bytes. *)
Definition BMP_1x1 : bytes :=
  [x42; x4d; x3a; x00; x00; x00; x00; x00; x00; x00; x36; x00; x00; x00;
   x28; x00; x00; x00; x01; x00; x00; x00; x01; x00; x00; x00; x01; x00;
   x18; x00; x00; x00; x00; x00; x04; x00; x00; x00; x13; x0b; x00; x00;
   x13; x0b; x00; x00; x00; x00; x00; x00; x00; x00; x00; x00; xff; xff;
   xff; x00].

(** Pillow reads bitmap files: [save_image] accepts this one. *)
Class PillowReadsBMP `{Pillow} : Type := {
  save_image_BMP : save_image BMP_1x1 <> None
}.

(* ================================================================== *)
(** ** The database *)

(** A document of [attendance_collection]; [None] is Python's [None]. *)
Record attendance_doc : Set := mk_attendance_doc {
  _id : nat;
  Employee_ID : string;
  Name : string;
  Date : datetime;
  Arrival_Time : option string;
  Leaving_Time : option string;
  Hours_Present : option float;
  Arrival_Photo : option bytes;
  Leaving_Photo : option bytes
}.

(** A document of [settings_collection]. *)
Record setting_doc : Set := mk_setting_doc {
  setting_id : nat;
  setting : string;
  value : bool
}.

(** The two collections, each in insertion order, and the next fresh
    [ObjectId]. *)
Record db : Set := mk_db {
  attendance_collection : list attendance_doc;
  settings_collection : list setting_doc;
  next_oid : nat
}.

Definition empty_db : db :=
  {| attendance_collection := []; settings_collection := []; next_oid := 0 |}.

Definition datetime_eqb (a b : datetime) : bool :=
  (dt_date a =? dt_date b) && (dt_hour a =? dt_hour b) && (dt_minute a =? dt_minute b).

(** The query [{"Employee ID": emp_id, "Date": query_date}]. *)
Definition matches_key (emp_id : string) (query_date : datetime) (d : attendance_doc) : bool :=
  String.eqb (Employee_ID d) emp_id && datetime_eqb (Date d) query_date.

(** [attendance_collection.find_one({"Employee ID": .., "Date": ..})] *)
Definition find_one (emp_id : string) (query_date : datetime) (s : db) : option attendance_doc :=
  find (matches_key emp_id query_date) (attendance_collection s).

Definition with_id (n : nat) (d : attendance_doc) : attendance_doc :=
  {| _id := n; Employee_ID := Employee_ID d; Name := Name d; Date := Date d;
     Arrival_Time := Arrival_Time d; Leaving_Time := Leaving_Time d;
     Hours_Present := Hours_Present d;
     Arrival_Photo := Arrival_Photo d; Leaving_Photo := Leaving_Photo d |}.

(** [attendance_collection.insert_one(entry)]: the driver gives the document
    a fresh [_id]; the collection has no unique index, so the document is
    always added. *)
Definition insert_one (entry : attendance_doc) (s : db) : db :=
  {| attendance_collection := attendance_collection s ++ [with_id (next_oid s) entry];
     settings_collection := settings_collection s;
     next_oid := S (next_oid s) |}.

(** The first element that satisfies [p] is replaced by its image. *)
Fixpoint update_first {A : Type} (p : A -> bool) (f : A -> A) (l : list A) : list A :=
  match l with
  | [] => []
  | x :: r => if p x then f x :: r else x :: update_first p f r
  end.

(** [attendance_collection.update_one({"_id": oid}, {"$set": ..})], the
    [$set] given as the function it applies to the document. *)
Definition update_one (oid : nat) (set : attendance_doc -> attendance_doc) (s : db) : db :=
  {| attendance_collection :=
       update_first (fun d => Nat.eqb (_id d) oid) set (attendance_collection s);
     settings_collection := settings_collection s;
     next_oid := next_oid s |}.

(* ================================================================== *)
(** ** Results *)

Inductive exn : Set :=
| ValueError            (* strptime: the text is not a '%I:%M %p' time *)
| TypeError             (* strptime: the field is None *)
| ImageError            (* Pillow could not process the payload *)
| OverflowError.        (* datetime: a day after 9999-12-31 *)

(** A call returns a value or raises. *)
Inductive outcome (A : Type) : Type :=
| Returned (a : A)
| Raised (e : exn).
Arguments Returned {A} a.
Arguments Raised {A} e.

(** The [(success, message)] pairs of the logging functions.  The three
    failures are the spec's [DuplicateLogError], [NoArrivalError] and
    [AlreadyCompletedError]. *)
Definition result : Set := (bool * string)%type.

Definition ArrivalLogged : result := (true, "Arrival logged successfully."%string).
Definition DuplicateLogError : result := (false, "Arrival already logged for today."%string).
Definition LeavingLogged : result := (true, "Leaving time logged successfully."%string).
Definition NoArrivalError : result := (false, "Arrival not logged for today."%string).
Definition AlreadyCompletedError : result :=
  (false, "Leaving time already logged for today."%string).

(** A call that returned [(True, _)]. *)
Definition succeeded (o : outcome result) : bool :=
  match o with
  | Returned (true, _) => true
  | _ => false
  end.

(* ================================================================== *)
(** ** Attendance management *)

(** Lines 137-143 of [log_leaving]: the hours from the arrival to the
    leaving time of day, both placed on [date]; a negative difference moves
    the leaving instant to the next day, which raises [OverflowError]
    ([None]) when there is no next day. *)
Definition time_diff (date : Z) (arrival_time leaving_time : time) : option float :=
  let date_obj := combine_min date in
  let arrival_datetime := replace_hm date_obj (hour arrival_time) (minute arrival_time) in
  let leaving_datetime := replace_hm date_obj (hour leaving_time) (minute leaving_time) in
  let time_diff := hours_between leaving_datetime arrival_datetime in
  if PrimFloat.ltb time_diff 0 then
    match add_days leaving_datetime 1 with
    | Some leaving_datetime => Some (hours_between leaving_datetime arrival_datetime)
    | None => None
    end
  else Some time_diff.

(** The value stored under ['Hours Present'] (line 148): [round(time_diff, 2)]. *)
Definition elapsed_hours (date : Z) (arrival_time leaving_time : time) : option float :=
  match time_diff date arrival_time leaving_time with
  | Some time_diff => Some (py_round2 time_diff)
  | None => None
  end.

(** The dict [entry] that [log_arrival] builds (lines 115-124); the driver
    sets [_id] on insertion. *)
Definition new_entry (emp_id name : string) (query_date : datetime)
    (arrival_time : string) (png : bytes) : attendance_doc :=
  {| _id := 0%nat;
     Employee_ID := emp_id;
     Name := name;
     Date := query_date;
     Arrival_Time := Some arrival_time;
     Leaving_Time := None;
     Hours_Present := None;
     Arrival_Photo := Some png;
     Leaving_Photo := None |}.

Section Operations.

Context {pillow : Pillow}.

(** [log_arrival(emp_id, name, date, photo)], lines 111-126; [clock] is the
    clock's reading when the call is made. *)
Definition log_arrival (emp_id name : string) (date : Z) (photo : bytes) (clock : Z)
    (s : db) : outcome result * db :=
  let query_date := combine_min date in
  match find_one emp_id query_date s with
  | Some _ => (Returned DuplicateLogError, s)
  | None =>
      match save_image photo with
      | None => (Raised ImageError, s)
      | Some png =>
          let entry :=
            new_entry emp_id name query_date
                      (strftime_I_M_p (get_current_ist_time clock)) png in
          (Returned ArrivalLogged, insert_one entry s)
      end
  end.

(** [log_arrival] is a lookup followed by an insertion, two separate calls
    to the database.  Line 113, the lookup: is there a record for the
    employee and the day? *)
Definition arrival_exists (emp_id : string) (date : Z) (s : db) : bool :=
  match find_one emp_id (combine_min date) s with
  | Some _ => true
  | None => false
  end.

(** Lines 115-126 of [log_arrival]: build the entry and insert it. *)
Definition arrival_insert (emp_id name : string) (date : Z) (photo : bytes) (clock : Z)
    (s : db) : outcome result * db :=
  match save_image photo with
  | None => (Raised ImageError, s)
  | Some png =>
      (Returned ArrivalLogged,
       insert_one (new_entry emp_id name (combine_min date)
                     (strftime_I_M_p (get_current_ist_time clock)) png) s)
  end.

(** The [$set] of [log_leaving]. *)
Definition set_leaving (leaving_time : string) (hours : float) (png : bytes)
    (d : attendance_doc) : attendance_doc :=
  {| _id := _id d; Employee_ID := Employee_ID d; Name := Name d; Date := Date d;
     Arrival_Time := Arrival_Time d;
     Leaving_Time := Some leaving_time;
     Hours_Present := Some hours;
     Arrival_Photo := Arrival_Photo d;
     Leaving_Photo := Some png |}.

(** [log_leaving(emp_id, date, photo)], lines 128-152. *)
Definition log_leaving (emp_id : string) (date : Z) (photo : bytes) (clock : Z)
    (s : db) : outcome result * db :=
  let query_date := combine_min date in
  match find_one emp_id query_date s with
  | None => (Returned NoArrivalError, s)
  | Some entry =>
      match Leaving_Time entry with
      | Some _ => (Returned AlreadyCompletedError, s)
      | None =>
          let leaving_time := get_current_ist_time clock in
          match Arrival_Time entry with
          | None => (Raised TypeError, s)
          | Some text =>
              match strptime_I_M_p text with
              | None => (Raised ValueError, s)
              | Some arrival_time =>
                  match elapsed_hours date arrival_time leaving_time with
                  | None => (Raised OverflowError, s)
                  | Some hours =>
                      match save_image photo with
                      | None => (Raised ImageError, s)
                      | Some png =>
                          (Returned LeavingLogged,
                           update_one (_id entry)
                             (set_leaving (strftime_I_M_p leaving_time) hours png) s)
                      end
                  end
              end
          end
      end
  end.

End Operations.

(** The [$set] of the administrator's edit. *)
Definition set_times (arr_time leave_time : option string) (hours_present : option float)
    (d : attendance_doc) : attendance_doc :=
  {| _id := _id d; Employee_ID := Employee_ID d; Name := Name d; Date := Date d;
     Arrival_Time := arr_time;
     Leaving_Time := leave_time;
     Hours_Present := hours_present;
     Arrival_Photo := Arrival_Photo d;
     Leaving_Photo := Leaving_Photo d |}.

(** Lines 325-331 of [admin_page]: the hours of an edited record, [None]
    when either text fails to parse (the [except] branch).  No day is added
    to a negative difference here. *)
Definition edited_hours (arr_time leave_time : option string) : option float :=
  match strptime_field arr_time with
  | None => None
  | Some arr =>
      match strptime_field leave_time with
      | None => None
      | Some leave =>
          let arr_dt := datetime_1900 arr in
          let leave_dt := datetime_1900 leave in
          let diff := hours_between leave_dt arr_dt in
          Some (py_round2 diff)
      end
  end.

(** The "Update Record" button of [admin_page], lines 320-339: the record of
    the chosen employee and date gets the two texts of the form ([None] when
    a widget holds no text) and the hours computed from them. *)
Definition admin_update_record (emp_to_update : string) (date_to_update : Z)
    (arr_time leave_time : option string) (s : db) : db :=
  match find_one emp_to_update (combine_min date_to_update) s with
  | Some entry =>
      let hours_present := edited_hours arr_time leave_time in
      update_one (_id entry) (set_times arr_time leave_time hours_present) s
  | None => s
  end.

(* ================================================================== *)
(** ** The location-restriction setting *)

Definition LOCATION_RESTRICTION : string := "location_restriction"%string.

(** [settings_collection.find_one({"setting": name})] *)
Definition find_one_setting (name : string) (s : db) : option setting_doc :=
  find (fun d => String.eqb (setting d) name) (settings_collection s).

Definition set_value (v : bool) (d : setting_doc) : setting_doc :=
  {| setting_id := setting_id d; setting := setting d; value := v |}.

(** [settings_collection.insert_one({"setting": name, "value": v})] *)
Definition insert_one_setting (name : string) (v : bool) (s : db) : db :=
  {| attendance_collection := attendance_collection s;
     settings_collection :=
       settings_collection s ++ [{| setting_id := next_oid s; setting := name; value := v |}];
     next_oid := S (next_oid s) |}.

(** [get_location_restriction()], lines 72-78: the stored value and the
    database after the call. *)
Definition get_location_restriction (s : db) : bool * db :=
  match find_one_setting LOCATION_RESTRICTION s with
  | Some setting0 => (value setting0, s)
  | None => (true, insert_one_setting LOCATION_RESTRICTION true s)
  end.

(** [set_location_restriction(value)], lines 80-81: [update_one] with
    [upsert=True] sets the value of the first matching document, and inserts
    one when none matches. *)
Definition set_location_restriction (v : bool) (s : db) : db :=
  match find_one_setting LOCATION_RESTRICTION s with
  | Some _ =>
      {| attendance_collection := attendance_collection s;
         settings_collection :=
           update_first (fun d => String.eqb (setting d) LOCATION_RESTRICTION)
                        (set_value v) (settings_collection s);
         next_oid := next_oid s |}
  | None => insert_one_setting LOCATION_RESTRICTION v s
  end.

(* ================================================================== *)
(** ** Sequences of operations *)

(** What a user or the administrator can make the program do. *)
Inductive op : Set :=
| LogArrival (emp_id name : string) (date : Z) (photo : bytes) (clock : Z)
| LogLeaving (emp_id : string) (date : Z) (photo : bytes) (clock : Z)
| UpdateRecord (emp_to_update : string) (date_to_update : Z)
               (arr_time leave_time : option string)
| GetLocationRestriction
| SetLocationRestriction (v : bool).

(** What an operation answers. *)
Inductive response : Type :=
| Logged (o : outcome result)
| Updated
| Restriction (b : bool).

(** The call is not a [set_location_restriction]. *)
Definition keeps_setting (o : op) : bool :=
  match o with
  | SetLocationRestriction _ => false
  | _ => true
  end.

(** The operation is not the administrator's edit. *)
Definition is_logging (o : op) : bool :=
  match o with
  | UpdateRecord _ _ _ _ => false
  | _ => true
  end.

Section Runs.

Context {pillow : Pillow}.

(** One operation: its answer and the database after it. *)
Definition step (o : op) (s : db) : response * db :=
  match o with
  | LogArrival emp_id name date photo clock =>
      let '(r, s') := log_arrival emp_id name date photo clock s in (Logged r, s')
  | LogLeaving emp_id date photo clock =>
      let '(r, s') := log_leaving emp_id date photo clock s in (Logged r, s')
  | UpdateRecord emp date arr_time leave_time =>
      (Updated, admin_update_record emp date arr_time leave_time s)
  | GetLocationRestriction =>
      let '(b, s') := get_location_restriction s in (Restriction b, s')
  | SetLocationRestriction v => (Updated, set_location_restriction v s)
  end.

(** The operations run one after the other: what each answered, and the
    database at the end. *)
Fixpoint run (ops : list op) (s : db) : list (op * response) * db :=
  match ops with
  | [] => ([], s)
  | o :: rest =>
      let '(r, s1) := step o s in
      let '(trace, s2) := run rest s1 in
      ((o, r) :: trace, s2)
  end.

(** The databases the program can be in, starting from an empty one. *)
Inductive reachable : db -> Prop :=
| reachable_empty : reachable empty_db
| reachable_step : forall o s, reachable s -> reachable (snd (step o s)).

(** The databases reached without the administrator's edit. *)
Inductive reachable_without_edit : db -> Prop :=
| without_edit_empty : reachable_without_edit empty_db
| without_edit_step : forall o s,
    is_logging o = true -> reachable_without_edit s ->
    reachable_without_edit (snd (step o s)).

(** An operation leaves the attendance collection as it is and reports no
    success, or it is a successful [log_arrival] (one insertion), a
    successful [log_leaving] or an edit (one update by [_id]). *)
Inductive step_effect (o : op) (s : db) (r : response) (s' : db) : Prop :=
| effect_none :
    attendance_collection s' = attendance_collection s ->
    (next_oid s <= next_oid s')%nat ->
    (forall out, r = Logged out -> succeeded out = false) ->
    step_effect o s r s'
| effect_arrival : forall emp_id name date photo clock png,
    o = LogArrival emp_id name date photo clock ->
    find_one emp_id (combine_min date) s = None ->
    save_image photo = Some png ->
    r = Logged (Returned ArrivalLogged) ->
    s' = insert_one (new_entry emp_id name (combine_min date)
                       (strftime_I_M_p (get_current_ist_time clock)) png) s ->
    step_effect o s r s'
| effect_leaving : forall emp_id date photo clock entry text arrival_time hours png,
    o = LogLeaving emp_id date photo clock ->
    find_one emp_id (combine_min date) s = Some entry ->
    Leaving_Time entry = None ->
    Arrival_Time entry = Some text ->
    strptime_I_M_p text = Some arrival_time ->
    elapsed_hours date arrival_time (get_current_ist_time clock) = Some hours ->
    save_image photo = Some png ->
    r = Logged (Returned LeavingLogged) ->
    s' = update_one (_id entry)
           (set_leaving (strftime_I_M_p (get_current_ist_time clock)) hours png) s ->
    step_effect o s r s'
| effect_edit : forall emp date arr_time leave_time entry,
    o = UpdateRecord emp date arr_time leave_time ->
    find_one emp (combine_min date) s = Some entry ->
    r = Updated ->
    s' = update_one (_id entry)
           (set_times arr_time leave_time (edited_hours arr_time leave_time)) s ->
    step_effect o s r s'.

End Runs.

(* ================================================================== *)
(** ** A small Pillow and sample data *)

(** A small instance of the Pillow interface, to run the operations on
    concrete inputs: an image is its size and its payload, and "PNG" output
    is the signature followed by the payload. *)
Definition raw_pillow : Pillow := {|
  image := (nat * nat) * bytes;
  Image_open := fun b => match b with [] => None | _ => Some ((1%nat, 1%nat), b) end;
  Image_resize := fun im size => Some (size, snd im);
  Image_save_PNG := fun im => Some (PNG_SIGNATURE ++ snd im)
|}.

(** Sample data for concrete runs. *)

(** U+00A0, the no-break space, and U+0660, the Arabic-Indic digit zero, as
    UTF-8. *)
Definition NO_BREAK_SPACE : string :=
  String (ascii_of_N 194) (String (ascii_of_N 160) EmptyString).
Definition ARABIC_INDIC_ZERO : string :=
  String (ascii_of_N 217) (String (ascii_of_N 160) EmptyString).

Definition JPEG_SOI : bytes := [xff; xd8; xff; xe0].
Definition day0 : Z := 739000.
(** 03:30 UTC, that is 09:00 IST. *)
Definition clock_0900 : Z := 12600.
(** 12:00 UTC, that is 17:30 IST. *)
Definition clock_1730 : Z := 43200.

(** The small Pillow instance has the properties assumed of Pillow. *)
Definition raw_pillow_facts : @PillowFacts raw_pillow.
Proof.
  refine {| sample_photo := JPEG_SOI |}.
  - reflexivity.
  - intros im out [= <-]. reflexivity.
  - discriminate.
Defined.

Definition raw_pillow_reads_BMP : @PillowReadsBMP raw_pillow.
Proof. constructor. discriminate. Defined.

(** A record as [log_arrival] leaves it (arrival at 09:00 AM). *)
Definition arrived_doc : attendance_doc :=
  {| _id := 0%nat;
     Employee_ID := "E1"%string;
     Name := "Asha"%string;
     Date := combine_min day0;
     Arrival_Time := Some "09:00 AM"%string;
     Leaving_Time := None;
     Hours_Present := None;
     Arrival_Photo := Some (PNG_SIGNATURE ++ JPEG_SOI);
     Leaving_Photo := None |}.

(** The database after that arrival. *)
Definition arrived_db : db :=
  {| attendance_collection := [arrived_doc]; settings_collection := []; next_oid := 1 |}.

(** The record after a [log_leaving] at 05:30 PM, and the database then. *)
Definition left_doc : attendance_doc :=
  {| _id := 0%nat;
     Employee_ID := "E1"%string;
     Name := "Asha"%string;
     Date := combine_min day0;
     Arrival_Time := Some "09:00 AM"%string;
     Leaving_Time := Some "05:30 PM"%string;
     Hours_Present := Some 8.5%float;
     Arrival_Photo := Some (PNG_SIGNATURE ++ JPEG_SOI);
     Leaving_Photo := Some (PNG_SIGNATURE ++ JPEG_SOI) |}.

Definition left_db : db :=
  {| attendance_collection := [left_doc]; settings_collection := []; next_oid := 1 |}.

Section Scenario.

Context {pillow : Pillow} {facts : PillowFacts}.

(** An employee logs an arrival at 09:00 with a photo Pillow accepts, then
    the administrator edits the record's two times. *)
Definition arrival_then_edit (arr_time leave_time : option string) : list op :=
  [LogArrival "E1" "Asha" day0 sample_photo clock_0900;
   UpdateRecord "E1" day0 arr_time leave_time].

End Scenario.

(* ================================================================== *)
(** ** Notions used in the statements *)

(** The minutes from the arrival to the leaving time of day, a day added
    when the leaving time of day precedes the arrival's. *)
Definition wrapped_minutes (arrival_time leaving_time : time) : Z :=
  let d := minutes_of leaving_time - minutes_of arrival_time in
  if d <? 0 then d + 1440 else d.

(** [m] minutes, in hundredths of an hour, to the nearest hundredth:
    the integer nearest to [100 * m / 60]. *)
Definition nearest_hundredth (m : Z) : Z := (10 * m + 3) / 6.

(** [time_diff] as a function of the difference in minutes. *)
Definition hours_of_minutes (d : Z) : float :=
  let x := PrimFloat.div (float_of_Z (60 * d)) (float_of_Z 3600) in
  if PrimFloat.ltb x 0 then
    PrimFloat.div (float_of_Z (60 * d + 86400)) (float_of_Z 3600)
  else x.

(** The test [time_diff < 0] of line 141, as a function of the difference
    in minutes. *)
Definition negative_difference (d : Z) : bool :=
  PrimFloat.ltb (PrimFloat.div (float_of_Z (60 * d)) (float_of_Z 3600)) 0.

(** [strptime] gives [t] back from what [strftime] wrote for it. *)
Definition reads_back (t : time) : bool :=
  match strptime_I_M_p (strftime_I_M_p t) with
  | Some t' => time_eqb t' t
  | None => false
  end.

(** Distinct [_id]s, all below the next one to be given out. *)
Definition ids_fresh (s : db) : Prop :=
  NoDup (map _id (attendance_collection s))
  /\ (forall n, In n (map _id (attendance_collection s)) -> (n < next_oid s)%nat).

(** The successful calls recorded so far include a [log_arrival] for the
    employee and the day. *)
Definition arrival_logged (trace : list (op * response)) (emp_id : string) (date : Z) : Prop :=
  exists name photo clock out,
    In (LogArrival emp_id name date photo clock, Logged out) trace
    /\ succeeded out = true.

(** Every record was created by a [log_arrival] of the trace. *)
Definition provenance (trace : list (op * response)) (s : db) : Prop :=
  forall r, In r (attendance_collection s) ->
    exists date, Date r = combine_min date /\ arrival_logged trace (Employee_ID r) date.

(** The record a successful [log_arrival] adds: the first free [_id], the
    clock's time as text, no leaving time, no hours, and the output of
    [save_image] as the arrival photo. *)
Definition arrival_record (emp_id name : string) (date : Z) (clock : Z) (png : bytes)
    (s : db) : attendance_doc :=
  with_id (next_oid s)
    (new_entry emp_id name (combine_min date)
       (strftime_I_M_p (get_current_ist_time clock)) png).

(** A record has hours exactly when it has a leaving time and both of its
    time texts are ['%I:%M %p'] times. *)
Definition hours_iff_times (r : attendance_doc) : Prop :=
  Hours_Present r <> None
  <-> (Leaving_Time r <> None
       /\ strptime_field (Arrival_Time r) <> None
       /\ strptime_field (Leaving_Time r) <> None).

(** The bytes of [s] are continuation bytes. *)
Fixpoint all_continuation (s : string) : bool :=
  match s with
  | String b r => continuation b && all_continuation r
  | EmptyString => true
  end.

(** One character: a byte, then continuation bytes only. *)
Definition char_ok (c : string) : bool :=
  match c with
  | String _ t => all_continuation t
  | EmptyString => false
  end.

(** Characters that follow another one: they start with a byte that is no
    continuation. *)
Definition chars_follow (l : list string) : bool :=
  forallb (fun c => char_ok c && negb (starts_continuation c)) l.

(** A list of characters as [chars] yields them. *)
Definition chars_ok (l : list string) : bool :=
  match l with
  | [] => true
  | c :: r => char_ok c && chars_follow r
  end.

(** The [n] integers from [lo] on. *)
Definition zrange (lo : Z) (n : nat) : list Z :=
  map (fun i => lo + Z.of_nat i) (seq 0 n).

(* ================================================================== *)
(** ** [hashlib.sha256] and [hash_password]

    SHA-256 as FIPS 180-4 gives it, on 32-bit words held in [Z].  A string
    is its bytes: [pw.encode()] of ASCII text. *)

Definition w32 (x : Z) : Z := x mod 4294967296.
Definition add32 (x y : Z) : Z := w32 (x + y).
Definition rotr (n x : Z) : Z := Z.lor (Z.shiftr x n) (w32 (Z.shiftl x (32 - n))).
Definition not32 (x : Z) : Z := 4294967295 - x.
Definition Ch (x y z : Z) : Z := Z.lxor (Z.land x y) (Z.land (not32 x) z).
Definition Maj (x y z : Z) : Z := Z.lxor (Z.lxor (Z.land x y) (Z.land x z)) (Z.land y z).
Definition Sigma0 (x : Z) : Z := Z.lxor (Z.lxor (rotr 2 x) (rotr 13 x)) (rotr 22 x).
Definition Sigma1 (x : Z) : Z := Z.lxor (Z.lxor (rotr 6 x) (rotr 11 x)) (rotr 25 x).
Definition sigma0 (x : Z) : Z := Z.lxor (Z.lxor (rotr 7 x) (rotr 18 x)) (Z.shiftr x 3).
Definition sigma1 (x : Z) : Z := Z.lxor (Z.lxor (rotr 17 x) (rotr 19 x)) (Z.shiftr x 10).

(** The primes below [n], by trial division. *)
Definition is_prime (p : Z) : bool :=
  (2 <=? p) && forallb (fun d => negb (p mod d =? 0)) (zrange 2 (Z.to_nat (p - 2))).

Definition primes_below (n : Z) : list Z :=
  filter is_prime (zrange 2 (Z.to_nat (n - 2))).

(** The integer part of the cube root of [n], for [n] below 2^108: the
    bits of the root are found from the highest down. *)
Definition cube_root (n : Z) : Z :=
  fold_left (fun r b => let r' := r + 2 ^ Z.of_nat b in
                        if r' * r' * r' <=? n then r' else r)
            (rev (seq 0 36)) 0.

(** The round constants: the first 32 bits of the fractional parts of the
    cube roots of the first 64 primes. *)
Definition sha256_K : list Z :=
  Eval vm_compute in map (fun p => w32 (cube_root (p * 2 ^ 96))) (primes_below 312).

(** The initial hash value: the first 32 bits of the fractional parts of
    the square roots of the first 8 primes. *)
Definition sha256_H0 : list Z :=
  Eval vm_compute in map (fun p => w32 (Z.sqrt (p * 2 ^ 64))) (primes_below 20).

(** The message, the byte 0x80, zero bytes, and the message's length in
    bits as eight bytes: a multiple of 64 bytes in all. *)
Definition sha256_pad (msg : list Z) : list Z :=
  let n := Z.of_nat (List.length msg) in
  let zeros := Z.to_nat ((55 - n) mod 64) in
  let bits := 8 * n in
  msg ++ [128] ++ repeat 0 zeros
      ++ map (fun i => Z.shiftr bits (8 * (7 - Z.of_nat i)) mod 256) (seq 0 8).

(** The big-endian 32-bit words of a byte list. *)
Fixpoint words_of (fuel : nat) (bs : list Z) : list Z :=
  match fuel, bs with
  | S f, b0 :: b1 :: b2 :: b3 :: rest =>
      (((b0 * 256 + b1) * 256 + b2) * 256 + b3) :: words_of f rest
  | _, _ => []
  end.

(** The message schedule, newest word first: [n] words added to the 16 of
    the block. *)
Fixpoint schedule (n : nat) (rev_w : list Z) : list Z :=
  match n with
  | O => rev_w
  | S n' =>
      let w2 := nth 1 rev_w 0 in
      let w7 := nth 6 rev_w 0 in
      let w15 := nth 14 rev_w 0 in
      let w16 := nth 15 rev_w 0 in
      schedule n' (add32 (add32 (sigma1 w2) w7) (add32 (sigma0 w15) w16) :: rev_w)
  end.

Definition sha256_round (st : list Z) (kw : Z * Z) : list Z :=
  match st with
  | [a; b; c; d; e; f; g; h] =>
      let t1 := add32 (add32 (add32 h (Sigma1 e)) (add32 (Ch e f g) (fst kw))) (snd kw) in
      let t2 := add32 (Sigma0 a) (Maj a b c) in
      [add32 t1 t2; a; b; c; add32 d t1; e; f; g]
  | _ => st
  end.

Definition sha256_block (H : list Z) (block : list Z) : list Z :=
  let w := rev (schedule 48 (rev block)) in
  let st := fold_left sha256_round (combine sha256_K w) H in
  map (fun p => add32 (fst p) (snd p)) (combine H st).

Fixpoint sha256_blocks (fuel : nat) (H : list Z) (ws : list Z) : list Z :=
  match fuel with
  | O => H
  | S f =>
      match ws with
      | [] => H
      | _ => sha256_blocks f (sha256_block H (firstn 16 ws)) (skipn 16 ws)
      end
  end.

Definition sha256_digest (msg : list Z) : list Z :=
  let p := sha256_pad msg in
  let ws := words_of (List.length p) p in
  sha256_blocks (List.length ws) sha256_H0 ws.

Definition hex_digit (d : Z) : ascii :=
  ascii_of_N (Z.to_N (if d <? 10 then 48 + d else 87 + d)).

Fixpoint hex_of_word (n : nat) (w : Z) (acc : string) : string :=
  match n with
  | O => acc
  | S n' => hex_of_word n' (w / 16) (String (hex_digit (w mod 16)) acc)
  end.

(** [.hexdigest()]: eight hexadecimal digits, lower case, for each word. *)
Definition hexdigest (ws : list Z) : string :=
  fold_right (fun w acc => hex_of_word 8 w acc) EmptyString ws.

(** [hash_password(pw)], lines 45-46. *)
Definition hash_password (pw : string) : string :=
  hexdigest (sha256_digest (map code (list_ascii_of_string pw))).

(* ================================================================== *)
(** ** Employee management *)

(** A document of [employees_collection].  (The [_id] the driver adds is
    never read.) *)
Module Emp.
Record doc : Set := mk_doc {
  Employee_ID : string;
  Name : string;
  Password_Hash : string
}.
End Emp.

(** [employees_collection.find_one({"Employee ID": emp_id})] *)
Definition find_one_employee (emp_id : string) (employees : list Emp.doc) : option Emp.doc :=
  find (fun e => String.eqb (Emp.Employee_ID e) emp_id) employees.

(** The first element that satisfies [p] is removed. *)
Fixpoint delete_first {A : Type} (p : A -> bool) (l : list A) : list A :=
  match l with
  | [] => []
  | x :: r => if p x then r else x :: delete_first p r
  end.

(** [add_employee(emp_id, name, password)], lines 84-93: the answer and the
    collection after the call. *)
Definition add_employee (emp_id name password : string) (employees : list Emp.doc)
    : result * list Emp.doc :=
  let emp_id := strip emp_id in
  let name := strip name in
  if String.eqb emp_id "" || String.eqb name "" || String.eqb password "" then
    ((false, "ID, name, and password required."%string), employees)
  else
    match find_one_employee emp_id employees with
    | Some _ => ((false, "Employee ID already exists."%string), employees)
    | None =>
        let doc := {| Emp.Employee_ID := emp_id; Emp.Name := name;
                      Emp.Password_Hash := hash_password password |} in
        ((true, "Employee added successfully."%string), employees ++ [doc])
    end.

(** [remove_employee(emp_id)], lines 95-99. *)
Definition remove_employee (emp_id : string) (employees : list Emp.doc)
    : result * list Emp.doc :=
  match find_one_employee emp_id employees with
  | None => ((false, "Employee ID not found."%string), employees)
  | Some _ =>
      ((true, ("Removed employee: " ++ emp_id)%string),
       delete_first (fun e => String.eqb (Emp.Employee_ID e) emp_id) employees)
  end.

(** [authenticate_employee(emp_id, pw)], lines 101-105. *)
Definition authenticate_employee (emp_id pw : string) (employees : list Emp.doc)
    : option Emp.doc :=
  match find_one_employee emp_id employees with
  | Some emp =>
      if String.eqb (hash_password pw) (Emp.Password_Hash emp) then Some emp else None
  | None => None
  end.

(** [load_employees()], lines 107-108: the ID and the name of each. *)
Definition load_employees (employees : list Emp.doc) : list (string * string) :=
  map (fun e => (Emp.Employee_ID e, Emp.Name e)) employees.

(** What the administrator can do to the employees. *)
Inductive employee_op : Set :=
| AddEmployee (emp_id name password : string)
| RemoveEmployee (emp_id : string).

Definition employee_step (o : employee_op) (employees : list Emp.doc)
    : result * list Emp.doc :=
  match o with
  | AddEmployee emp_id name password => add_employee emp_id name password employees
  | RemoveEmployee emp_id => remove_employee emp_id employees
  end.

(** The collections of employees reached from an empty one. *)
Inductive reachable_employees : list Emp.doc -> Prop :=
| employees_empty : reachable_employees []
| employees_step : forall o employees,
    reachable_employees employees ->
    reachable_employees (snd (employee_step o employees)).

(** An employee document as [add_employee] writes them: the ID and the name
    not empty and without whitespace at either end, the hash that of a
    password that is not empty. *)
Definition well_formed_employee (e : Emp.doc) : Prop :=
  Emp.Employee_ID e <> EmptyString /\ strip (Emp.Employee_ID e) = Emp.Employee_ID e
  /\ Emp.Name e <> EmptyString /\ strip (Emp.Name e) = Emp.Name e
  /\ exists password, password <> EmptyString /\ Emp.Password_Hash e = hash_password password.

(* ================================================================== *)
(** ** The employee's page *)

(** geopy, outside the repository: [geodesic(a, b).kilometers], which raises
    ([None]) on a latitude outside [-90, 90]. *)
Class Geopy : Type := {
  geodesic_kilometers : float * float -> float * float -> option float
}.


Definition ALLOWED_LOCATION : float * float := (12.8324706%float, 80.2286148%float).
Definition MAX_DISTANCE_KM : float := 1.0%float.

(** [is_within_allowed_location(lat, lon)], lines 67-70. *)
Definition is_within_allowed_location `{Geopy} (lat lon : float) : option bool :=
  let user_location := (lat, lon) in
  match geodesic_kilometers user_location ALLOWED_LOCATION with
  | Some distance => Some (PrimFloat.leb distance MAX_DISTANCE_KM)
  | None => None
  end.

(** [strftime('%Y-%m-%d')] of a day, from the standard library: two days
    with the same text are the same day. *)
Class DateText : Type := {
  strftime_Y_m_d : Z -> string;
  strftime_Y_m_d_inj : forall a b, strftime_Y_m_d a = strftime_Y_m_d b -> a = b
}.

(** A row of the data frame [load_attendance] returns: the entry, with its
    ['Date'] as text. *)
Record attendance_row : Set := mk_row {
  row_Date : string;
  row_entry : attendance_doc
}.

(** [load_attendance(emp_id)], lines 154-166: the entries of the employee,
    or all entries when [emp_id] is [None] or empty, in the collection's
    order. *)
Definition load_attendance `{DateText} (emp_id : option string) (s : db)
    : list attendance_row :=
  let entries :=
    match emp_id with
    | Some e =>
        if String.eqb e "" then attendance_collection s
        else filter (fun d => String.eqb (Employee_ID d) e) (attendance_collection s)
    | None => attendance_collection s
    end in
  map (fun entry => {| row_Date := strftime_Y_m_d (dt_date (Date entry));
                       row_entry := entry |}) entries.

(** [df.iloc[-1]] *)
Definition last_row {A : Type} (l : list A) : option A :=
  match rev l with
  | x :: _ => Some x
  | [] => None
  end.

(** What [employee_dashboard] shows above the list of records. *)
Inductive panel : Set :=
| AwaitingLocation          (* "Waiting for device location." *)
| OutOfAllowedLocation      (* "Out of allowed location." *)
| ArrivalLogging
| LeaveLogging
| AllDone.

Section Dashboard.

Context {pillow : Pillow} {geopy : Geopy} {date_text : DateText}.

(** Lines 199-232 of [employee_dashboard]: the panel for today, and the
    answer of the logging function when a photo was taken and the button
    pressed. *)
Definition attendance_logic (emp : string * string) (current_date : Z)
    (img_file : option bytes) (button : bool) (clock : Z) (s : db)
    : outcome (panel * option result) * db :=
  let df := load_attendance (Some (fst emp)) s in
  let today_entries :=
    filter (fun row => String.eqb (row_Date row) (strftime_Y_m_d current_date)) df in
  match last_row today_entries with
  | None =>
      match img_file with
      | Some photo =>
          if button then
            match log_arrival (fst emp) (snd emp) current_date photo clock s with
            | (Returned r, s') => (Returned (ArrivalLogging, Some r), s')
            | (Raised e, s') => (Raised e, s')
            end
          else (Returned (ArrivalLogging, None), s)
      | None => (Returned (ArrivalLogging, None), s)
      end
  | Some latest_entry =>
      match Leaving_Time (row_entry latest_entry) with
      | None =>
          match img_file with
          | Some photo =>
              if button then
                match log_leaving (fst emp) current_date photo clock s with
                | (Returned r, s') => (Returned (LeaveLogging, Some r), s')
                | (Raised e, s') => (Raised e, s')
                end
              else (Returned (LeaveLogging, None), s)
          | None => (Returned (LeaveLogging, None), s)
          end
      | Some _ => (Returned (AllDone, None), s)
      end
  end.

(** [employee_dashboard()], lines 182-232, for the employee of the session:
    [location] is what [get_geolocation()] returned, [img_file] the camera's
    photo and [button] the logging button of the panel shown. *)
Definition employee_dashboard (emp : string * string) (current_date : Z)
    (location : option (float * float)) (img_file : option bytes) (button : bool)
    (clock : Z) (s : db) : outcome (panel * option result) * db :=
  let '(location_restriction, s) := get_location_restriction s in
  if location_restriction then
    match location with
    | None => (Returned (AwaitingLocation, None), s)
    | Some (lat, lon) =>
        match is_within_allowed_location lat lon with
        | None => (Raised ValueError, s)
        | Some false => (Returned (OutOfAllowedLocation, None), s)
        | Some true => attendance_logic emp current_date img_file button clock s
        end
    end
  else attendance_logic emp current_date img_file button clock s.

End Dashboard.

(* ================================================================== *)
(** ** Routing and logins *)

(** [st.session_state]: the employee logged in, as ID and name, and the
    administrator's flag; [None] when the key is absent. *)
Record session_state : Set := mk_session {
  employee : option (string * string);
  authenticated : option bool
}.

Definition fresh_session : session_state :=
  {| employee := None; authenticated := None |}.

Inductive page : Set :=
| EmployeeLoginPage
| AdminPanelPage.

(** The widgets [main] reads in one run of the script. *)
Record controls : Set := mk_controls {
  page_choice : page;
  emp_id_input : string;
  pw_input : string;
  login_clicked : bool;
  logout_clicked : bool;
  username_input : string;
  password_input : string;
  admin_login_clicked : bool;
  admin_logout_clicked : bool
}.

(** What one pass over the script comes to. *)
Inductive view : Set :=
| LoginForm                                   (* employee_login(), nothing more *)
| InvalidLogin                                (* "Invalid ID or password." *)
| Dashboard (emp : string * string)           (* employee_dashboard() *)
| AdminLoginForm
| InvalidAdmin                                (* "Invalid admin credentials" *)
| AdminPage                                   (* admin_page() *)
| Rerun.                                      (* st.rerun() *)

(** [username == ADMIN_USERNAME], the right-hand side from [os.getenv]:
    [None] when the variable is not set. *)
Definition equals_env (typed : string) (env : option string) : bool :=
  match env with
  | Some v => String.eqb typed v
  | None => false
  end.

Section Routing.

Variables ADMIN_USERNAME ADMIN_PASSWORD : option string.

(** The interaction is a click on "Admin Login" with the configured name
    and password typed. *)
Definition admin_login (c : controls) : Prop :=
  admin_login_clicked c = true
  /\ ADMIN_USERNAME = Some (username_input c)
  /\ ADMIN_PASSWORD = Some (password_input c).

(** The interaction is a click on "Login" with an ID and a password that
    [authenticate_employee] accepts, for the employee [emp]. *)
Definition employee_login_of (emp : string * string) (c : controls)
    (employees : list Emp.doc) : Prop :=
  login_clicked c = true
  /\ exists doc, authenticate_employee (emp_id_input c) (pw_input c) employees = Some doc
                 /\ emp = (emp_id_input c, Emp.Name doc).

(** [employee_login()], lines 169-180. *)
Definition employee_login (c : controls) (employees : list Emp.doc) (ss : session_state)
    : session_state * view :=
  if login_clicked c then
    match authenticate_employee (emp_id_input c) (pw_input c) employees with
    | Some emp =>
        ({| employee := Some (emp_id_input c, Emp.Name emp);
            authenticated := authenticated ss |}, Rerun)
    | None => (ss, InvalidLogin)
    end
  else (ss, LoginForm).

(** One pass over [main()], lines 382-414. *)
Definition main_pass (c : controls) (employees : list Emp.doc) (ss : session_state)
    : session_state * view :=
  match page_choice c with
  | EmployeeLoginPage =>
      match employee ss with
      | None => employee_login c employees ss
      | Some emp =>
          if logout_clicked c then
            ({| employee := None; authenticated := authenticated ss |}, Rerun)
          else (ss, Dashboard emp)
      end
  | AdminPanelPage =>
      let ss :=
        match authenticated ss with
        | None => {| employee := employee ss; authenticated := Some false |}
        | Some _ => ss
        end in
      match authenticated ss with
      | Some true =>
          if admin_logout_clicked c then
            ({| employee := employee ss; authenticated := Some false |}, Rerun)
          else (ss, AdminPage)
      | _ =>
          if admin_login_clicked c then
            if equals_env (username_input c) ADMIN_USERNAME
               && equals_env (password_input c) ADMIN_PASSWORD
            then ({| employee := employee ss; authenticated := Some true |}, Rerun)
            else (ss, InvalidAdmin)
          else (ss, AdminLoginForm)
      end
  end.

(** The same widgets with no button pressed: what the script reads when it
    runs again after [st.rerun()]. *)
Definition released (c : controls) : controls :=
  {| page_choice := page_choice c;
     emp_id_input := emp_id_input c; pw_input := pw_input c;
     login_clicked := false; logout_clicked := false;
     username_input := username_input c; password_input := password_input c;
     admin_login_clicked := false; admin_logout_clicked := false |}.

(** One interaction: a pass, and a second one when the first asked for it. *)
Definition main (c : controls) (employees : list Emp.doc) (ss : session_state)
    : session_state * view :=
  match main_pass c employees ss with
  | (ss', Rerun) => main_pass (released c) employees ss'
  | r => r
  end.

(** A browser session: one interaction after the other, each with the
    employees collection as it is at that time. *)
Fixpoint browse (events : list (controls * list Emp.doc)) (ss : session_state)
    : list (controls * list Emp.doc * view) * session_state :=
  match events with
  | [] => ([], ss)
  | (c, employees) :: rest =>
      let '(ss1, v) := main c employees ss in
      let '(trace, ss2) := browse rest ss1 in
      ((c, employees, v) :: trace, ss2)
  end.

End Routing.

(** The day's ordinal in decimal: a text for days that tells them apart, to
    run the employee's page on concrete inputs. *)
Definition ordinal_text : DateText.
Proof.
  refine {| strftime_Y_m_d := fun d => NilEmpty.string_of_int (Z.to_int d) |}.
  intros a b H.
  assert (Hi : Z.to_int a = Z.to_int b).
  { pose proof (NilEmpty.isi (Z.to_int a)) as Ha.
    pose proof (NilEmpty.isi (Z.to_int b)) as Hb.
    rewrite H in Ha. rewrite Ha in Hb. injection Hb as E. exact E. }
  rewrite <- (DecimalZ.of_to a), <- (DecimalZ.of_to b), Hi. reflexivity.
Defined.

(** A flat earth of one point: every place is 0.5 km from the site. *)
Definition near_geopy : Geopy :=
  {| geodesic_kilometers := fun _ _ => Some 0.5%float |}.



(** Sample interactions: the administrator and an employee log in. *)
Definition admin_login_click : controls :=
  {| page_choice := AdminPanelPage;
     emp_id_input := ""; pw_input := "";
     login_clicked := false; logout_clicked := false;
     username_input := "admin"; password_input := "secret";
     admin_login_clicked := true; admin_logout_clicked := false |}.

Definition employee_login_click : controls :=
  {| page_choice := EmployeeLoginPage;
     emp_id_input := "E1"; pw_input := "pw";
     login_clicked := true; logout_clicked := false;
     username_input := ""; password_input := "";
     admin_login_clicked := false; admin_logout_clicked := false |}.

(** The employee and the day an operation is about, if any. *)
Definition op_key (o : op) : option (string * Z) :=
  match o with
  | LogArrival emp_id _ date _ _ => Some (emp_id, date)
  | LogLeaving emp_id date _ _ => Some (emp_id, date)
  | UpdateRecord emp_to_update date_to_update _ _ => Some (emp_to_update, date_to_update)
  | _ => None
  end.

(* ================================================================== *)
(** * Properties *)

(** ** Elapsed hours *)

Lemma in_zrange (lo : Z) (n : nat) (d : Z) :
  lo <= d < lo + Z.of_nat n -> In d (zrange lo n).
Proof.
  intros Hd. unfold zrange. apply in_map_iff.
  exists (Z.to_nat (d - lo)). split; [lia |].
  apply in_seq. lia.
Qed.

Lemma map_eq_pointwise {A B : Type} (f g : A -> B) (l : list A) :
  map f l = map g l -> forall x, In x l -> f x = g x.
Proof.
  induction l as [| a l IH]; simpl; intros Heq x Hin; [contradiction |].
  injection Heq as Ha Hl. destruct Hin as [<- | Hin]; auto.
Qed.

Lemma seconds_between (date : Z) (a l : time) :
  datetime_sub (replace_hm (combine_min date) (hour l) (minute l))
               (replace_hm (combine_min date) (hour a) (minute a))
  = 60 * (minutes_of l - minutes_of a).
Proof.
  unfold datetime_sub, seconds_of, minutes_of, replace_hm, combine_min.
  cbn [dt_date dt_hour dt_minute]. lia.
Qed.

(** The sign of [time_diff] before the correction, over every difference of
    two times of day. *)
Lemma negative_difference_table :
  forallb (fun d => Bool.eqb (negative_difference d) (d <? 0)) (zrange (-1439) 2879) = true.
Proof. vm_compute. reflexivity. Qed.

Lemma minutes_diff_range (a l : time) :
  wf_time a -> wf_time l -> -1439 <= minutes_of l - minutes_of a < -1439 + Z.of_nat 2879.
Proof. unfold wf_time, minutes_of. lia. Qed.

Lemma negative_difference_spec (a l : time) :
  wf_time a -> wf_time l ->
  negative_difference (minutes_of l - minutes_of a) = (minutes_of l - minutes_of a <? 0).
Proof.
  intros Ha Hl. pose proof negative_difference_table as T.
  rewrite forallb_forall in T.
  apply eqb_prop, T, in_zrange, minutes_diff_range; assumption.
Qed.

(** [time_diff] when the leaving time of day is not before the arrival's,
    or when [date] has a next day. *)
Lemma time_diff_minutes (date : Z) (a l : time) :
  wf_time a -> wf_time l ->
  minutes_of a <= minutes_of l \/ 1 <= date < MAXORDINAL ->
  time_diff date a l = Some (hours_of_minutes (minutes_of l - minutes_of a)).
Proof.
  intros Ha Hl Hd.
  pose proof (negative_difference_spec a l Ha Hl) as Hneg. unfold negative_difference in Hneg.
  unfold time_diff, hours_of_minutes, hours_between, total_seconds.
  rewrite seconds_between, Hneg.
  destruct (Z.ltb_spec (minutes_of l - minutes_of a) 0) as [Hlt | Hge]; [| reflexivity].
  unfold add_days. cbn [dt_date dt_hour dt_minute replace_hm combine_min].
  replace ((1 <=? date + 1) && (date + 1 <=? MAXORDINAL)) with true
    by (symmetry; apply andb_true_iff; split; apply Z.leb_le; lia).
  do 3 f_equal.
  unfold datetime_sub, seconds_of, minutes_of, replace_hm, combine_min.
  cbn [dt_date dt_hour dt_minute]. lia.
Qed.

(** [time_diff] on the last day, when the leaving time of day is before the
    arrival's. *)
Lemma time_diff_overflow (date : Z) (a l : time) :
  wf_time a -> wf_time l ->
  minutes_of l < minutes_of a -> MAXORDINAL <= date ->
  time_diff date a l = None.
Proof.
  intros Ha Hl Hlt Hd.
  pose proof (negative_difference_spec a l Ha Hl) as Hneg. unfold negative_difference in Hneg.
  unfold time_diff, hours_between, total_seconds.
  rewrite seconds_between, Hneg.
  replace (minutes_of l - minutes_of a <? 0) with true by (symmetry; apply Z.ltb_lt; lia).
  unfold add_days. cbn [dt_date dt_hour dt_minute replace_hm combine_min].
  replace (date + 1 <=? MAXORDINAL) with false by (symmetry; apply Z.leb_gt; lia).
  rewrite andb_false_r. reflexivity.
Qed.

(** Whenever [time_diff] returns, it returns this. *)
Lemma time_diff_some (date : Z) (a l : time) (x : float) :
  wf_time a -> wf_time l ->
  time_diff date a l = Some x -> x = hours_of_minutes (minutes_of l - minutes_of a).
Proof.
  intros Ha Hl.
  pose proof (negative_difference_spec a l Ha Hl) as Hneg. unfold negative_difference in Hneg.
  unfold time_diff, hours_of_minutes, hours_between, total_seconds.
  rewrite seconds_between, Hneg.
  destruct (Z.ltb_spec (minutes_of l - minutes_of a) 0) as [Hlt | Hge]; [| congruence].
  unfold add_days. cbn [dt_date dt_hour dt_minute replace_hm combine_min].
  destruct ((1 <=? date + 1) && (date + 1 <=? MAXORDINAL)); [| discriminate].
  intros [= <-]. do 2 f_equal.
  unfold datetime_sub, seconds_of, minutes_of, replace_hm, combine_min.
  cbn [dt_date dt_hour dt_minute]. lia.
Qed.

(** The table of [round(time_diff, 2)] over every difference of two times
    of day, against the nearest hundredth of the wrapped difference. *)
Lemma rounded_hours_table :
  map (fun d => py_round2 (hours_of_minutes d)) (zrange (-1439) 2879)
  = map (fun d => float_of_hundredths
                    (nearest_hundredth (if d <? 0 then d + 1440 else d)))
        (zrange (-1439) 2879).
Proof. vm_compute. reflexivity. Qed.

Lemma rounded_hours_nonneg_table :
  forallb (fun d => PrimFloat.leb 0 (py_round2 (hours_of_minutes d)))
          (zrange (-1439) 2879) = true.
Proof. vm_compute. reflexivity. Qed.

Lemma elapsed_hours_rounded (date : Z) (a l : time) :
  wf_time a -> wf_time l ->
  minutes_of a <= minutes_of l \/ 1 <= date < MAXORDINAL ->
  elapsed_hours date a l
  = Some (float_of_hundredths (nearest_hundredth (wrapped_minutes a l))).
Proof.
  intros Ha Hl Hd. unfold elapsed_hours, wrapped_minutes.
  rewrite time_diff_minutes by assumption. f_equal.
  apply (map_eq_pointwise _ _ _ rounded_hours_table).
  apply in_zrange, minutes_diff_range; assumption.
Qed.

Lemma elapsed_hours_nonneg (date : Z) (a l : time) (h : float) :
  wf_time a -> wf_time l ->
  elapsed_hours date a l = Some h -> PrimFloat.leb 0 h = true.
Proof.
  intros Ha Hl. unfold elapsed_hours.
  destruct (time_diff date a l) as [x |] eqn:Hx; [| discriminate].
  intros [= <-]. rewrite (time_diff_some date a l x Ha Hl Hx).
  pose proof rounded_hours_nonneg_table as T.
  rewrite forallb_forall in T. apply T.
  apply in_zrange, minutes_diff_range; assumption.
Qed.

Lemma elapsed_hours_overflow (date : Z) (a l : time) :
  wf_time a -> wf_time l ->
  minutes_of l < minutes_of a -> MAXORDINAL <= date ->
  elapsed_hours date a l = None.
Proof.
  intros Ha Hl Hlt Hd. unfold elapsed_hours.
  rewrite time_diff_overflow by assumption. reflexivity.
Qed.

Lemma nearest_hundredth_close (m : Z) :
  2 * Z.abs (100 * m - 60 * nearest_hundredth m) <= 60.
Proof.
  unfold nearest_hundredth.
  pose proof (Z.div_mod (10 * m + 3) 6 ltac:(lia)) as E.
  pose proof (Z.mod_pos_bound (10 * m + 3) 6 ltac:(lia)) as B.
  lia.
Qed.

(** C3, as amended. For any two well-formed times of day, on any day but the
    last one a [datetime] can hold (9999-12-31), the hours [log_leaving]
    stores are the difference leaving minus arrival, a day (24 hours) added
    when the leaving time of day precedes the arrival's, rounded to two
    decimals: the float of the hundredth [q / 100] nearest to the wrapped
    difference.  The result is never negative, it is 0.0 when the two times
    are equal, 09:00 to 17:30 gives 8.5 and 23:50 to 00:10 gives 0.33.  On
    the last day the same holds when the leaving time of day does not
    precede the arrival's; when it does, adding the day raises
    [OverflowError] and there is no result. *)
Theorem elapsed_hours_spec :
  (forall (date : Z) (arrival_time leaving_time : time),
      wf_time arrival_time -> wf_time leaving_time ->
      minutes_of arrival_time <= minutes_of leaving_time \/ 1 <= date < MAXORDINAL ->
      (exists q : Z,
          elapsed_hours date arrival_time leaving_time = Some (float_of_hundredths q)
          /\ 2 * Z.abs (100 * wrapped_minutes arrival_time leaving_time - 60 * q) <= 60)
      /\ (minutes_of leaving_time < minutes_of arrival_time ->
          wrapped_minutes arrival_time leaving_time
          = minutes_of leaving_time + 24 * 60 - minutes_of arrival_time)
      /\ (minutes_of arrival_time <= minutes_of leaving_time ->
          wrapped_minutes arrival_time leaving_time
          = minutes_of leaving_time - minutes_of arrival_time)
      /\ (exists h, elapsed_hours date arrival_time leaving_time = Some h
                    /\ PrimFloat.leb 0 h = true)
      /\ (arrival_time = leaving_time ->
          elapsed_hours date arrival_time leaving_time = Some 0%float))
  /\ (forall (arrival_time leaving_time : time),
         wf_time arrival_time -> wf_time leaving_time ->
         minutes_of leaving_time < minutes_of arrival_time ->
         elapsed_hours MAXORDINAL arrival_time leaving_time = None)
  /\ (forall date, elapsed_hours date (mk_time 9 0) (mk_time 17 30) = Some 8.5%float)
  /\ (forall date, 1 <= date < MAXORDINAL ->
        elapsed_hours date (mk_time 23 50) (mk_time 0 10) = Some 0.33%float).
Proof.
  split; [| split; [| split]].
  - intros date a l Ha Hl Hd. repeat split.
    + exists (nearest_hundredth (wrapped_minutes a l)). split.
      * apply elapsed_hours_rounded; assumption.
      * apply nearest_hundredth_close.
    + intros Hlt. unfold wrapped_minutes.
      destruct (Z.ltb_spec (minutes_of l - minutes_of a) 0); lia.
    + intros Hle. unfold wrapped_minutes.
      destruct (Z.ltb_spec (minutes_of l - minutes_of a) 0); lia.
    + eexists. split; [apply elapsed_hours_rounded; assumption |].
      apply (elapsed_hours_nonneg date a l); auto.
      apply elapsed_hours_rounded; assumption.
    + intros <-. rewrite elapsed_hours_rounded by assumption.
      unfold wrapped_minutes. rewrite Z.sub_diag. reflexivity.
  - intros a l Ha Hl Hlt. apply elapsed_hours_overflow; auto. lia.
  - intros date.
    rewrite elapsed_hours_rounded by (unfold wf_time, minutes_of; simpl; lia).
    vm_compute. reflexivity.
  - intros date Hd.
    rewrite elapsed_hours_rounded by (unfold wf_time, minutes_of; simpl; lia).
    vm_compute. reflexivity.
Qed.

Lemma elapsed_hours_spec_witness :
  wf_time (mk_time 23 50) /\ wf_time (mk_time 0 10)
  /\ 1 <= day0 < MAXORDINAL
  /\ elapsed_hours day0 (mk_time 23 50) (mk_time 0 10) = Some (float_of_hundredths 33)
  /\ exists h, elapsed_hours day0 (mk_time 23 50) (mk_time 0 10) = Some h
               /\ PrimFloat.leb 0 h = true.
Proof.
  assert (Ha : wf_time (mk_time 23 50)) by (unfold wf_time; simpl; lia).
  assert (Hl : wf_time (mk_time 0 10)) by (unfold wf_time; simpl; lia).
  assert (Hd : 1 <= day0 < MAXORDINAL) by (unfold day0, MAXORDINAL; lia).
  destruct (proj1 elapsed_hours_spec day0 _ _ Ha Hl (or_intror Hd)) as (_ & _ & _ & Hpos & _).
  split; [exact Ha | split; [exact Hl | split; [exact Hd | split; [| exact Hpos]]]].
  vm_compute. reflexivity.
Defined.

(** C3, counterexample. On 9999-12-31, from 23:50 to 00:10, no hours are
    computed: moving the leaving instant to the next day raises
    [OverflowError]. *)
Lemma elapsed_hours_last_day_overflows :
  wf_time (mk_time 23 50) /\ wf_time (mk_time 0 10)
  /\ elapsed_hours MAXORDINAL (mk_time 23 50) (mk_time 0 10) = None.
Proof.
  split; [unfold wf_time; simpl; lia | split; [unfold wf_time; simpl; lia |]].
  vm_compute. reflexivity.
Qed.

(** ** The time format *)

Lemma time_eqb_eq (a b : time) : time_eqb a b = true -> a = b.
Proof.
  destruct a as [ha ma], b as [hb mb]. unfold time_eqb. simpl.
  intros H. apply andb_true_iff in H as [Hh Hm].
  apply Z.eqb_eq in Hh, Hm. congruence.
Qed.

Lemma reads_back_table :
  forallb (fun h => forallb (fun m => reads_back (mk_time h m)) (zrange 0 60))
          (zrange 0 24) = true.
Proof. vm_compute. reflexivity. Qed.

(** What [strftime] writes, [strptime] reads back. *)
Lemma strptime_strftime (t : time) :
  wf_time t -> strptime_I_M_p (strftime_I_M_p t) = Some t.
Proof.
  destruct t as [h m]. unfold wf_time. simpl. intros [Hh Hm].
  pose proof reads_back_table as T.
  rewrite forallb_forall in T.
  specialize (T h (in_zrange 0 24 h ltac:(lia))).
  rewrite forallb_forall in T.
  specialize (T m (in_zrange 0 60 m ltac:(lia))).
  unfold reads_back in T.
  destruct (strptime_I_M_p (strftime_I_M_p (mk_time h m))) as [t' |]; [| discriminate].
  apply time_eqb_eq in T. congruence.
Qed.

Lemma get_current_ist_time_wf (clock : Z) : wf_time (get_current_ist_time clock).
Proof.
  unfold wf_time, get_current_ist_time. simpl.
  split; apply Z.mod_pos_bound; lia.
Qed.

(** ** Lists and collections *)

Lemma update_first_map {A B : Type} (g : A -> B) (p : A -> bool) (f : A -> A) (l : list A) :
  (forall x, g (f x) = g x) -> map g (update_first p f l) = map g l.
Proof.
  intros Hg. induction l as [| x r IH]; simpl; [reflexivity |].
  destruct (p x); simpl; [rewrite Hg | rewrite IH]; reflexivity.
Qed.

Lemma update_first_In {A : Type} (p : A -> bool) (f : A -> A) (l : list A) (y : A) :
  In y (update_first p f l) ->
  In y l \/ exists x, In x l /\ p x = true /\ y = f x.
Proof.
  induction l as [| x r IH]; simpl; [tauto |].
  destruct (p x) eqn:Hp; simpl.
  - intros [<- | Hin]; [right; exists x; auto | left; auto].
  - intros [<- | Hin]; [left; auto |].
    destruct (IH Hin) as [H | (x' & Hx' & Hp' & ->)]; [left; auto |].
    right. exists x'. auto.
Qed.

Lemma update_first_filter_length {A : Type} (q p : A -> bool) (f : A -> A) (l : list A) :
  (forall x, q (f x) = q x) ->
  List.length (filter q (update_first p f l)) = List.length (filter q l).
Proof.
  intros Hq. induction l as [| x r IH]; simpl; [reflexivity |].
  destruct (p x); simpl.
  - rewrite Hq. destruct (q x); reflexivity.
  - destruct (q x); simpl; rewrite IH; reflexivity.
Qed.

Lemma find_none_filter {A : Type} (q : A -> bool) (l : list A) :
  find q l = None -> filter q l = [].
Proof.
  induction l as [| x r IH]; simpl; [reflexivity |].
  destruct (q x); [discriminate | exact IH].
Qed.

Lemma find_app_none {A : Type} (q : A -> bool) (l : list A) (x : A) :
  find q l = None -> find q (l ++ [x]) = if q x then Some x else None.
Proof.
  induction l as [| y r IH]; simpl; [reflexivity |].
  destruct (q y); [discriminate | exact IH].
Qed.

Lemma find_app_some {A : Type} (q : A -> bool) (l l' : list A) (y : A) :
  find q l = Some y -> find q (l ++ l') = Some y.
Proof.
  induction l as [| x r IH]; simpl; [discriminate |].
  destruct (q x); [auto | exact IH].
Qed.

Lemma NoDup_map_eq {A B : Type} (g : A -> B) (l : list A) (a b : A) :
  NoDup (map g l) -> In a l -> In b l -> g a = g b -> a = b.
Proof.
  induction l as [| x r IH]; simpl; [contradiction |].
  intros Hnd Ha Hb Hg. inversion Hnd as [| ? ? Hnotin Hnd']; subst.
  destruct Ha as [-> | Ha], Hb as [-> | Hb]; auto.
  - exfalso. apply Hnotin. rewrite Hg. apply in_map. exact Hb.
  - exfalso. apply Hnotin. rewrite <- Hg. apply in_map. exact Ha.
Qed.

(** With distinct [_id]s, an update by [_id] of the document a query found
    leaves the query finding that document, updated. *)
Lemma find_update_first (q : attendance_doc -> bool) (f : attendance_doc -> attendance_doc)
    (l : list attendance_doc) (e : attendance_doc) :
  NoDup (map _id l) -> (forall x, q (f x) = q x) -> find q l = Some e ->
  find q (update_first (fun d => Nat.eqb (_id d) (_id e)) f l) = Some (f e).
Proof.
  intros Hnd Hq. induction l as [| x r IH]; simpl; [discriminate |].
  intros Hfind. destruct (q x) eqn:Hqx.
  - injection Hfind as ->. rewrite Nat.eqb_refl. simpl. rewrite Hq, Hqx. reflexivity.
  - destruct (Nat.eqb (_id x) (_id e)) eqn:Hid.
    + exfalso. apply Nat.eqb_eq in Hid.
      pose proof (find_some _ _ Hfind) as [Hin Hqe].
      assert (x = e) by (apply (NoDup_map_eq _id (x :: r)); simpl; auto).
      congruence.
    + simpl. rewrite Hqx. apply IH; [| exact Hfind].
      simpl in Hnd. inversion Hnd; assumption.
Qed.

Lemma NoDup_snoc {A : Type} (l : list A) (x : A) :
  NoDup l -> ~ In x l -> NoDup (l ++ [x]).
Proof.
  induction l as [| y r IH]; simpl; intros Hnd Hx.
  - constructor; [tauto | constructor].
  - inversion Hnd as [| ? ? Hy Hr]; subst. constructor.
    + intros Hin. apply in_app_or in Hin as [Hin | [-> | []]]; tauto.
    + apply IH; tauto.
Qed.

Lemma matches_key_eq (emp_id : string) (q : datetime) (d : attendance_doc) :
  matches_key emp_id q d = true -> Employee_ID d = emp_id /\ Date d = q.
Proof.
  unfold matches_key, datetime_eqb. intros H.
  apply andb_true_iff in H as [He Hd].
  apply String.eqb_eq in He.
  apply andb_true_iff in Hd as [Hd Hm]. apply andb_true_iff in Hd as [Hd Hh].
  apply Z.eqb_eq in Hd, Hh, Hm.
  split; [exact He |].
  destruct (Date d), q; simpl in *; congruence.
Qed.

Lemma matches_key_refl (d : attendance_doc) :
  matches_key (Employee_ID d) (Date d) d = true.
Proof.
  unfold matches_key, datetime_eqb.
  rewrite String.eqb_refl, !Z.eqb_refl. reflexivity.
Qed.

(** ** What one operation does to the attendance collection *)

Section Effects.

Context {pillow : Pillow}.

Lemma step_effect_of (o : op) (s : db) :
  step_effect o s (fst (step o s)) (snd (step o s)).
Proof.
  destruct o as [e n d ph c | e d ph c | e d a l | | v]; unfold step.
  - unfold log_arrival.
    destruct (find_one e (combine_min d) s) eqn:Hf.
    + apply effect_none; simpl; auto. intros out [= <-]. reflexivity.
    + destruct (save_image ph) as [png |] eqn:Hp.
      * eapply effect_arrival; eauto.
      * apply effect_none; simpl; auto. intros out [= <-]. reflexivity.
  - unfold log_leaving.
    destruct (find_one e (combine_min d) s) as [entry |] eqn:Hf;
      [| apply effect_none; simpl; auto; intros out [= <-]; reflexivity].
    destruct (Leaving_Time entry) eqn:Hl;
      [apply effect_none; simpl; auto; intros out [= <-]; reflexivity |].
    destruct (Arrival_Time entry) as [text |] eqn:Ha;
      [| apply effect_none; simpl; auto; intros out [= <-]; reflexivity].
    destruct (strptime_I_M_p text) as [at0 |] eqn:Hs;
      [| apply effect_none; simpl; auto; intros out [= <-]; reflexivity].
    destruct (elapsed_hours d at0 (get_current_ist_time c)) as [hours |] eqn:Hh;
      [| apply effect_none; simpl; auto; intros out [= <-]; reflexivity].
    destruct (save_image ph) as [png |] eqn:Hp;
      [| apply effect_none; simpl; auto; intros out [= <-]; reflexivity].
    eapply effect_leaving; eauto.
  - unfold admin_update_record.
    destruct (find_one e (combine_min d) s) as [entry |] eqn:Hf.
    + eapply effect_edit; eauto.
    + apply effect_none; simpl; auto. intros out [=].
  - unfold get_location_restriction.
    destruct (find_one_setting LOCATION_RESTRICTION s); simpl;
      apply effect_none; simpl; auto; intros out [=].
  - unfold set_location_restriction.
    destruct (find_one_setting LOCATION_RESTRICTION s); simpl;
      apply effect_none; simpl; auto; intros out [=].
Qed.

Lemma set_leaving_id (t : string) (h : float) (png : bytes) (d : attendance_doc) :
  _id (set_leaving t h png d) = _id d.
Proof. reflexivity. Qed.

Lemma set_times_id (a l : option string) (h : option float) (d : attendance_doc) :
  _id (set_times a l h d) = _id d.
Proof. reflexivity. Qed.

Lemma reachable_ids_fresh (s : db) : reachable s -> ids_fresh s.
Proof.
  induction 1 as [| o s Hr [Hnd Hlt]].
  - split; simpl; [constructor | contradiction].
  - destruct (step_effect_of o s) as
      [Heq Hle _ | ? ? ? ? ? ? _ _ _ _ Hs' | ? ? ? ? ? ? ? ? ? _ _ _ _ _ _ _ _ Hs'
       | ? ? ? ? ? _ _ _ Hs']; unfold ids_fresh.
    + rewrite Heq. split; [exact Hnd |]. intros n Hn. specialize (Hlt n Hn). lia.
    + rewrite Hs'. simpl. rewrite map_app. simpl. split.
      * apply NoDup_snoc; [exact Hnd |].
        intros Hin. specialize (Hlt _ Hin). lia.
      * intros n Hn. apply in_app_or in Hn as [Hn | [<- | []]];
          [specialize (Hlt n Hn) |]; lia.
    + rewrite Hs'. simpl. rewrite update_first_map by apply set_leaving_id.
      split; assumption.
    + rewrite Hs'. simpl. rewrite update_first_map by apply set_times_id.
      split; assumption.
Qed.

End Effects.

(** ** [log_leaving] *)

Section Leaving.

Context {pillow : Pillow}.

(** The three ways [log_leaving] ends without a write, and the one with. *)
Lemma log_leaving_cases (emp_id : string) (date : Z) (photo : bytes) (clock : Z) (s : db) :
  (find_one emp_id (combine_min date) s = None
   /\ log_leaving emp_id date photo clock s = (Returned NoArrivalError, s))
  \/ (exists entry, find_one emp_id (combine_min date) s = Some entry
      /\ Leaving_Time entry <> None
      /\ log_leaving emp_id date photo clock s = (Returned AlreadyCompletedError, s))
  \/ (exists entry e, find_one emp_id (combine_min date) s = Some entry
      /\ Leaving_Time entry = None
      /\ log_leaving emp_id date photo clock s = (Raised e, s))
  \/ (exists entry set, find_one emp_id (combine_min date) s = Some entry
      /\ Leaving_Time entry = None
      /\ (forall d, _id (set d) = _id d /\ Employee_ID (set d) = Employee_ID d
                    /\ Date (set d) = Date d /\ Leaving_Time (set d) <> None)
      /\ log_leaving emp_id date photo clock s
         = (Returned LeavingLogged, update_one (_id entry) set s)).
Proof.
  unfold log_leaving.
  destruct (find_one emp_id (combine_min date) s) as [entry |] eqn:Hf; [| left; auto].
  right. destruct (Leaving_Time entry) eqn:Hl.
  { left. exists entry. repeat split; auto. rewrite Hl. discriminate. }
  right. destruct (Arrival_Time entry) as [text |].
  2: { left. exists entry, TypeError. auto. }
  destruct (strptime_I_M_p text) as [at0 |].
  2: { left. exists entry, ValueError. auto. }
  destruct (elapsed_hours date at0 (get_current_ist_time clock)) as [hours |].
  2: { left. exists entry, OverflowError. auto. }
  destruct (save_image photo) as [png |].
  2: { left. exists entry, ImageError. auto. }
  right.
  exists entry,
    (set_leaving (strftime_I_M_p (get_current_ist_time clock)) hours png).
  split; [reflexivity | split; [exact Hl | split; [| reflexivity]]].
  intros d. repeat split. simpl. discriminate.
Qed.

Lemma arrival_logged_app (trace more : list (op * response)) (emp_id : string) (date : Z) :
  arrival_logged trace emp_id date -> arrival_logged (trace ++ more) emp_id date.
Proof.
  intros (n & ph & c & out & Hin & Hs). exists n, ph, c, out.
  split; [apply in_or_app; left; exact Hin | exact Hs].
Qed.

Lemma step_provenance (trace : list (op * response)) (o : op) (s : db) :
  provenance trace s ->
  provenance (trace ++ [(o, fst (step o s))]) (snd (step o s)).
Proof.
  intros Hp r Hin.
  destruct (step_effect_of o s) as
    [Heq _ _ | e n d ph c png Ho _ _ Hr Hs' | e d ph c entry text at0 hours png _ _ _ _ _ _ _ _ Hs'
     | e d a l entry _ _ _ Hs'].
  - rewrite Heq in Hin. destruct (Hp r Hin) as (date & Hd & Hl).
    exists date. split; [exact Hd | apply arrival_logged_app; exact Hl].
  - rewrite Hs' in Hin. simpl in Hin. apply in_app_or in Hin as [Hin | [<- | []]].
    + destruct (Hp r Hin) as (date & Hd & Hl).
      exists date. split; [exact Hd | apply arrival_logged_app; exact Hl].
    + exists d. split; [reflexivity |]. simpl.
      exists n, ph, c, (Returned ArrivalLogged). split; [| reflexivity].
      apply in_or_app. right. rewrite Hr, Ho. left. reflexivity.
  - rewrite Hs' in Hin. simpl in Hin.
    apply update_first_In in Hin as [Hin | (x & Hx & _ & ->)].
    + destruct (Hp r Hin) as (date & Hd & Hl).
      exists date. split; [exact Hd | apply arrival_logged_app; exact Hl].
    + destruct (Hp x Hx) as (date & Hd & Hl).
      exists date. split; [exact Hd | apply arrival_logged_app; exact Hl].
  - rewrite Hs' in Hin. simpl in Hin.
    apply update_first_In in Hin as [Hin | (x & Hx & _ & ->)].
    + destruct (Hp r Hin) as (date & Hd & Hl).
      exists date. split; [exact Hd | apply arrival_logged_app; exact Hl].
    + destruct (Hp x Hx) as (date & Hd & Hl).
      exists date. split; [exact Hd | apply arrival_logged_app; exact Hl].
Qed.

Lemma run_cons (o : op) (rest : list op) (s : db) :
  fst (run (o :: rest) s) = (o, fst (step o s)) :: fst (run rest (snd (step o s))).
Proof.
  simpl. destruct (step o s) as [r s1]. simpl.
  destruct (run rest s1) as [tr s2]. reflexivity.
Qed.

Lemma run_leaving_after_arrival (ops : list op) :
  forall (s : db) (trace0 : list (op * response)),
    provenance trace0 s ->
    forall pre post emp_id date photo clock out,
      fst (run ops s) = pre ++ (LogLeaving emp_id date photo clock, Logged out) :: post ->
      succeeded out = true ->
      arrival_logged (trace0 ++ pre) emp_id date.
Proof.
  induction ops as [| o rest IH]; intros s trace0 Hp pre post e d ph c out Hrun Hok.
  - simpl in Hrun. destruct pre; discriminate.
  - rewrite run_cons in Hrun. destruct pre as [| x pre'].
    + simpl in Hrun. injection Hrun as Ho Hr _. subst o.
      rewrite app_nil_r. simpl in Hr.
      destruct (log_leaving_cases e d ph c s) as
        [[_ E] | [(entry & _ & _ & E) | [(entry & ex & _ & _ & E) | (entry & set & Hf & _ & _ & _)]]];
        try (rewrite E in Hr; injection Hr as <-; discriminate).
      apply find_some in Hf as [Hin Hk]. apply matches_key_eq in Hk as [He Hd].
      destruct (Hp entry Hin) as (date & Hdate & Hl).
      rewrite Hd in Hdate. injection Hdate as <-. rewrite He in Hl. exact Hl.
    + simpl in Hrun. injection Hrun as Hx Hrest. subst x.
      pose proof (IH _ _ (step_provenance trace0 o s Hp) _ _ _ _ _ _ _ Hrest Hok) as H.
      rewrite <- app_assoc in H. exact H.
Qed.

(** C1. [log_leaving] succeeds only when a record for the employee and the
    day exists with ['Leaving Time'] still [None]; with no record it returns
    the failure "Arrival not logged for today." ([NoArrivalError]); with the
    leaving time set it returns "Leaving time already logged for today."
    ([AlreadyCompletedError]), which is what a second call after a success
    gets; and in any run from the empty database, a successful [log_leaving]
    comes after a successful [log_arrival] for the same employee and day. *)
Theorem log_leaving_needs_open_record :
  (forall emp_id date photo clock s,
      (succeeded (fst (log_leaving emp_id date photo clock s)) = true ->
       exists entry, find_one emp_id (combine_min date) s = Some entry
                     /\ Leaving_Time entry = None)
      /\ (find_one emp_id (combine_min date) s = None ->
          fst (log_leaving emp_id date photo clock s) = Returned NoArrivalError)
      /\ (forall entry, find_one emp_id (combine_min date) s = Some entry ->
                        Leaving_Time entry <> None ->
          fst (log_leaving emp_id date photo clock s) = Returned AlreadyCompletedError))
  /\ (forall emp_id date photo clock s,
         reachable s ->
         succeeded (fst (log_leaving emp_id date photo clock s)) = true ->
         forall photo' clock',
           fst (log_leaving emp_id date photo' clock'
                  (snd (log_leaving emp_id date photo clock s)))
           = Returned AlreadyCompletedError)
  /\ (forall ops pre post emp_id date photo clock out,
         fst (run ops empty_db)
         = pre ++ (LogLeaving emp_id date photo clock, Logged out) :: post ->
         succeeded out = true ->
         exists name photo0 clock0 out0,
           In (LogArrival emp_id name date photo0 clock0, Logged out0) pre
           /\ succeeded out0 = true).
Proof.
  split; [| split].
  - intros e d ph c s.
    destruct (log_leaving_cases e d ph c s) as
      [[Hf E] | [(entry & Hf & Hl & E) | [(entry & ex & Hf & Hl & E) | (entry & set & Hf & Hl & _ & E)]]];
      rewrite E; simpl; repeat split; try discriminate; try congruence; eauto.
    all: intros; congruence.
  - intros e d ph c s Hr Hok ph' c'.
    destruct (log_leaving_cases e d ph c s) as
      [[Hf E] | [(entry & Hf & Hl & E) | [(entry & ex & Hf & Hl & E) | (entry & set & Hf & Hl & Hset & E)]]];
      rewrite E in Hok |- *; simpl in Hok; try discriminate.
    simpl.
    assert (Hf' : find_one e (combine_min d) (update_one (_id entry) set s)
                  = Some (set entry)).
    { unfold find_one, update_one. simpl. apply find_update_first.
      - apply reachable_ids_fresh. exact Hr.
      - intros x. unfold matches_key. destruct (Hset x) as (_ & -> & -> & _). reflexivity.
      - exact Hf. }
    destruct (log_leaving_cases e d ph' c' (update_one (_id entry) set s)) as
      [[Hn _] | [(entry2 & _ & _ & E2) | [(entry2 & ex & Hf2 & Hl2 & _) | (entry2 & set2 & Hf2 & Hl2 & _)]]].
    + congruence.
    + rewrite E2. reflexivity.
    + exfalso. rewrite Hf' in Hf2. injection Hf2 as <-.
      destruct (Hset entry) as (_ & _ & _ & Hne). contradiction.
    + exfalso. rewrite Hf' in Hf2. injection Hf2 as <-.
      destruct (Hset entry) as (_ & _ & _ & Hne). contradiction.
  - intros ops pre post e d ph c out Hrun Hok.
    assert (Hp : provenance [] empty_db) by (intros r []).
    exact (run_leaving_after_arrival ops empty_db [] Hp _ _ _ _ _ _ _ Hrun Hok).
Qed.

(** C10. A [log_leaving] that does not succeed writes nothing: with no
    record for the employee and the day, or with the leaving time already
    set, it returns its failure and the database is the one it was called
    on; the same holds when it raises. *)
Theorem log_leaving_failure_writes_nothing :
  forall emp_id date photo clock s,
    (find_one emp_id (combine_min date) s = None ->
     log_leaving emp_id date photo clock s = (Returned NoArrivalError, s))
    /\ (forall entry, find_one emp_id (combine_min date) s = Some entry ->
                      Leaving_Time entry <> None ->
        log_leaving emp_id date photo clock s = (Returned AlreadyCompletedError, s))
    /\ (succeeded (fst (log_leaving emp_id date photo clock s)) = false ->
        snd (log_leaving emp_id date photo clock s) = s).
Proof.
  intros e d ph c s.
  destruct (log_leaving_cases e d ph c s) as
    [[Hf E] | [(entry & Hf & Hl & E) | [(entry & ex & Hf & Hl & E) | (entry & set & Hf & Hl & _ & E)]]];
    rewrite E; simpl; repeat split; try discriminate; try congruence; auto.
  all: intros; congruence.
Qed.

End Leaving.

Lemma log_leaving_needs_open_record_witness :
  succeeded (fst (@log_leaving raw_pillow "E1" day0 JPEG_SOI clock_1730 arrived_db)) = true
  /\ exists entry, find_one "E1" (combine_min day0) arrived_db = Some entry
                   /\ Leaving_Time entry = None.
Proof.
  split; [vm_compute; reflexivity |].
  apply (proj1 (proj1 (@log_leaving_needs_open_record raw_pillow)
                  "E1"%string day0 JPEG_SOI clock_1730 arrived_db)).
  vm_compute. reflexivity.
Defined.

Lemma log_leaving_failure_writes_nothing_witness :
  find_one "E1" (combine_min day0) empty_db = None
  /\ @log_leaving raw_pillow "E1" day0 JPEG_SOI clock_1730 empty_db
     = (Returned NoArrivalError, empty_db).
Proof.
  split; [reflexivity |].
  apply (proj1 (@log_leaving_failure_writes_nothing raw_pillow
                  "E1"%string day0 JPEG_SOI clock_1730 empty_db)).
  reflexivity.
Defined.

(** ** [log_arrival] *)

Section Arrival.

Context {pillow : Pillow}.

Lemma log_arrival_cases (emp_id name : string) (date : Z) (photo : bytes) (clock : Z) (s : db) :
  (exists r, find_one emp_id (combine_min date) s = Some r
             /\ log_arrival emp_id name date photo clock s = (Returned DuplicateLogError, s))
  \/ (find_one emp_id (combine_min date) s = None /\ save_image photo = None
      /\ log_arrival emp_id name date photo clock s = (Raised ImageError, s))
  \/ (exists png, find_one emp_id (combine_min date) s = None /\ save_image photo = Some png
      /\ log_arrival emp_id name date photo clock s
         = (Returned ArrivalLogged,
            insert_one (new_entry emp_id name (combine_min date)
                          (strftime_I_M_p (get_current_ist_time clock)) png) s)).
Proof.
  unfold log_arrival.
  destruct (find_one emp_id (combine_min date) s) as [r |]; [left; eauto |].
  right. destruct (save_image photo) as [png |]; [right; eauto | left; auto].
Qed.

Lemma find_one_inserted (emp_id name : string) (date : Z) (clock : Z) (png : bytes) (s : db) :
  find_one emp_id (combine_min date) s = None ->
  find_one emp_id (combine_min date)
    (insert_one (new_entry emp_id name (combine_min date)
                   (strftime_I_M_p (get_current_ist_time clock)) png) s)
  = Some (arrival_record emp_id name date clock png s).
Proof.
  intros Hf. unfold find_one, insert_one. simpl.
  rewrite (find_app_none _ _ _ Hf).
  unfold arrival_record.
  change (matches_key emp_id (combine_min date)
            (with_id (next_oid s)
               (new_entry emp_id name (combine_min date)
                  (strftime_I_M_p (get_current_ist_time clock)) png)))
    with (matches_key emp_id (combine_min date)
            (new_entry emp_id name (combine_min date)
               (strftime_I_M_p (get_current_ist_time clock)) png)).
  pose proof (matches_key_refl
                (new_entry emp_id name (combine_min date)
                   (strftime_I_M_p (get_current_ist_time clock)) png)) as Hk.
  simpl in Hk. rewrite Hk. reflexivity.
Qed.

(** C2, as amended. When a record for the employee and the day exists,
    whatever its leaving time, [log_arrival] returns the failure "Arrival
    already logged for today." ([DuplicateLogError]) and the database, so
    the record's times, hours and photos, is unchanged.  When none exists
    and [save_image] accepts the photo, it succeeds and adds one record,
    with the clock's time as arrival time and no leaving time nor hours;
    when none exists and [save_image] raises on the photo, the call raises
    and the database is unchanged.  So it succeeds exactly when no record
    exists and the photo is one [save_image] accepts. *)
Theorem log_arrival_once_per_day :
  forall emp_id name date photo clock s,
    (forall r, find_one emp_id (combine_min date) s = Some r ->
               log_arrival emp_id name date photo clock s = (Returned DuplicateLogError, s))
    /\ (forall png, find_one emp_id (combine_min date) s = None ->
                    save_image photo = Some png ->
          let s' := snd (log_arrival emp_id name date photo clock s) in
          let r := arrival_record emp_id name date clock png s in
          fst (log_arrival emp_id name date photo clock s) = Returned ArrivalLogged
          /\ attendance_collection s' = attendance_collection s ++ [r]
          /\ find_one emp_id (combine_min date) s' = Some r
          /\ Arrival_Time r = Some (strftime_I_M_p (get_current_ist_time clock))
          /\ Leaving_Time r = None
          /\ Hours_Present r = None)
    /\ (find_one emp_id (combine_min date) s = None -> save_image photo = None ->
        log_arrival emp_id name date photo clock s = (Raised ImageError, s))
    /\ (succeeded (fst (log_arrival emp_id name date photo clock s)) = true
        <-> find_one emp_id (combine_min date) s = None /\ save_image photo <> None).
Proof.
  intros e n d ph c s.
  destruct (log_arrival_cases e n d ph c s) as
    [(r & Hf & E) | [(Hf & Hp & E) | (png & Hf & Hp & E)]]; rewrite E; simpl.
  - repeat split; try congruence; try discriminate.
    all: intros [H _]; congruence.
  - repeat split; try congruence; try discriminate.
    all: intros [_ H]; congruence.
  - split; [congruence |]. split; [| split].
    + intros png' _ Hp'. assert (png' = png) by congruence. subst png'.
      repeat split. apply find_one_inserted. exact Hf.
    + congruence.
    + split; [intros _; split; [exact Hf | congruence] | reflexivity].
Qed.

(** The arrival photo of the record a successful [log_arrival] adds. *)
Lemma arrival_photo_is_png (facts : PillowFacts) (emp_id name : string) (date : Z)
    (photo : bytes) (clock : Z) (s : db) :
  succeeded (fst (log_arrival emp_id name date photo clock s)) = true ->
  exists r image0 image1 png,
    find_one emp_id (combine_min date) (snd (log_arrival emp_id name date photo clock s))
    = Some r
    /\ Image_open photo = Some image0
    /\ Image_resize image0 (250%nat, 250%nat) = Some image1
    /\ Image_save_PNG image1 = Some png
    /\ Arrival_Photo r = Some png
    /\ firstn 8 png = PNG_SIGNATURE.
Proof.
  destruct (log_arrival_cases emp_id name date photo clock s) as
    [(r & Hf & E) | [(Hf & Hp & E) | (png & Hf & Hp & E)]]; rewrite E; simpl;
    try discriminate.
  intros _. unfold save_image in Hp.
  destruct (Image_open photo) as [image0 |] eqn:Ho; [| discriminate].
  destruct (Image_resize image0 (250%nat, 250%nat)) as [image1 |] eqn:Hr; [| discriminate].
  exists (arrival_record emp_id name date clock png s), image0, image1, png.
  repeat split; auto.
  - apply find_one_inserted. exact Hf.
  - eapply save_PNG_signature. exact Hp.
Qed.

(** C8, as amended. What a successful [log_arrival] stores as the arrival
    photo, and a successful [log_leaving] as the leaving photo, is the
    output of [save_image] on the payload: the payload opened as an image,
    the image resized to 250 x 250 and encoded again as PNG, so bytes that
    start with the PNG signature, and not the payload as handed in.  A call
    that gets as far as the photo ([log_arrival] with no record for the
    employee and the day; [log_leaving] with a record that has no leaving
    time, an arrival time that parses and hours that can be computed) and
    whose payload [save_image] cannot process raises and stores nothing.  A
    call refused before that returns its failure whatever the payload. *)
Theorem photo_stored_as_resized_png :
  forall (facts : PillowFacts) emp_id name date photo clock s,
    (succeeded (fst (log_arrival emp_id name date photo clock s)) = true ->
     exists r image0 image1 png,
       find_one emp_id (combine_min date) (snd (log_arrival emp_id name date photo clock s))
       = Some r
       /\ Image_open photo = Some image0
       /\ Image_resize image0 (250%nat, 250%nat) = Some image1
       /\ Image_save_PNG image1 = Some png
       /\ Arrival_Photo r = Some png
       /\ firstn 8 png = PNG_SIGNATURE)
    /\ (reachable s ->
        succeeded (fst (log_leaving emp_id date photo clock s)) = true ->
        exists r image0 image1 png,
          find_one emp_id (combine_min date) (snd (log_leaving emp_id date photo clock s))
          = Some r
          /\ Image_open photo = Some image0
          /\ Image_resize image0 (250%nat, 250%nat) = Some image1
          /\ Image_save_PNG image1 = Some png
          /\ Leaving_Photo r = Some png
          /\ firstn 8 png = PNG_SIGNATURE)
    /\ (find_one emp_id (combine_min date) s = None ->
        save_image photo = None ->
        log_arrival emp_id name date photo clock s = (Raised ImageError, s))
    /\ (forall entry text arrival_time hours,
          find_one emp_id (combine_min date) s = Some entry ->
          Leaving_Time entry = None ->
          Arrival_Time entry = Some text ->
          strptime_I_M_p text = Some arrival_time ->
          elapsed_hours date arrival_time (get_current_ist_time clock) = Some hours ->
          save_image photo = None ->
          log_leaving emp_id date photo clock s = (Raised ImageError, s))
    /\ (find_one emp_id (combine_min date) s <> None ->
        forall photo',
          log_arrival emp_id name date photo' clock s = (Returned DuplicateLogError, s))
    /\ (forall photo',
          succeeded (fst (log_leaving emp_id date photo clock s)) = false ->
          fst (log_leaving emp_id date photo clock s) <> Raised ImageError ->
          log_leaving emp_id date photo' clock s = log_leaving emp_id date photo clock s).
Proof.
  intros facts e n d ph c s. split; [| split; [| split; [| split; [| split]]]].
  - apply arrival_photo_is_png. exact facts.
  - intros Hreach. unfold log_leaving.
    destruct (find_one e (combine_min d) s) as [entry |] eqn:Hf; [| discriminate].
    destruct (Leaving_Time entry); [discriminate |].
    destruct (Arrival_Time entry) as [text |]; [| discriminate].
    destruct (strptime_I_M_p text) as [at0 |]; [| discriminate].
    destruct (elapsed_hours d at0 (get_current_ist_time c)) as [hours |]; [| discriminate].
    destruct (save_image ph) as [png |] eqn:Hp; [| discriminate].
    intros _. simpl. unfold save_image in Hp.
    destruct (Image_open ph) as [image0 |] eqn:Ho; [| discriminate].
    destruct (Image_resize image0 (250%nat, 250%nat)) as [image1 |] eqn:Hr; [| discriminate].
    eexists _, image0, image1, png. split.
    + unfold find_one, update_one. simpl. apply find_update_first.
      * apply reachable_ids_fresh. exact Hreach.
      * intros x. reflexivity.
      * exact Hf.
    + repeat split; auto. eapply save_PNG_signature. exact Hp.
  - intros Hf Hp. unfold log_arrival. rewrite Hf, Hp. reflexivity.
  - intros entry text at0 hours Hf Hl Ha Hs Hh Hp.
    unfold log_leaving. rewrite Hf, Hl, Ha, Hs, Hh, Hp. reflexivity.
  - intros Hf ph'. unfold log_arrival.
    destruct (find_one e (combine_min d) s); [reflexivity | contradiction].
  - intros ph'. unfold log_leaving.
    destruct (find_one e (combine_min d) s) as [entry |]; [| reflexivity].
    destruct (Leaving_Time entry); [reflexivity |].
    destruct (Arrival_Time entry) as [text |]; [| reflexivity].
    destruct (strptime_I_M_p text) as [at0 |]; [| reflexivity].
    destruct (elapsed_hours d at0 (get_current_ist_time c)) as [hours |]; [| reflexivity].
    destruct (save_image ph) as [png |]; simpl; [discriminate | congruence].
Qed.

End Arrival.

Lemma log_arrival_once_per_day_witness :
  find_one "E1" (combine_min day0) arrived_db = Some arrived_doc
  /\ @log_arrival raw_pillow "E1" "Asha" day0 JPEG_SOI clock_1730 arrived_db
     = (Returned DuplicateLogError, arrived_db).
Proof.
  split; [reflexivity |].
  apply (proj1 (@log_arrival_once_per_day raw_pillow
                  "E1"%string "Asha"%string day0 JPEG_SOI clock_1730 arrived_db)
           arrived_doc).
  reflexivity.
Defined.

(** C2, counterexample. No record exists in the empty database, yet with an
    empty photo payload [log_arrival] does not succeed, whatever Pillow
    does beyond the facts above: [Image.open] raises. *)
Lemma log_arrival_empty_photo_fails :
  ~ exists (P : Pillow) (F : @PillowFacts P),
      (succeeded (fst (@log_arrival P "E1" "Asha" day0 [] clock_0900 empty_db)) = true
       <-> find_one "E1" (combine_min day0) empty_db = None).
Proof.
  intros (P & F & H).
  assert (Hs : succeeded (fst (@log_arrival P "E1" "Asha" day0 [] clock_0900 empty_db)) = true)
    by (apply H; reflexivity).
  unfold log_arrival, save_image in Hs. simpl in Hs.
  rewrite open_empty in Hs. discriminate.
Qed.

Lemma photo_stored_as_resized_png_witness :
  succeeded (fst (@log_arrival raw_pillow "E1" "Asha" day0 BMP_1x1 clock_0900 empty_db)) = true
  /\ exists r image0 image1 png,
       find_one "E1" (combine_min day0)
         (snd (@log_arrival raw_pillow "E1" "Asha" day0 BMP_1x1 clock_0900 empty_db)) = Some r
       /\ @Image_open raw_pillow BMP_1x1 = Some image0
       /\ @Image_resize raw_pillow image0 (250%nat, 250%nat) = Some image1
       /\ @Image_save_PNG raw_pillow image1 = Some png
       /\ Arrival_Photo r = Some png
       /\ firstn 8 png = PNG_SIGNATURE.
Proof.
  split; [reflexivity |].
  apply (proj1 (@photo_stored_as_resized_png raw_pillow raw_pillow_facts
                  "E1"%string "Asha"%string day0 BMP_1x1 clock_0900 empty_db)).
  reflexivity.
Defined.

(** C8, counterexample. A bitmap file of one pixel is an image: every
    Pillow with the facts above, that reads bitmap files, makes [log_arrival]
    succeed on it, and none leaves the payload itself as the record's arrival
    photo: what is stored starts with the PNG signature, the payload with
    "BM". *)
Lemma bitmap_payload_not_stored_verbatim :
  (~ exists (P : Pillow) (F : @PillowFacts P) (B : @PillowReadsBMP P),
       succeeded (fst (@log_arrival P "E1" "Asha" day0 BMP_1x1 clock_0900 empty_db)) = false)
  /\ (~ exists (P : Pillow) (F : @PillowFacts P) (B : @PillowReadsBMP P) (r : attendance_doc),
          find_one "E1" (combine_min day0)
            (snd (@log_arrival P "E1" "Asha" day0 BMP_1x1 clock_0900 empty_db)) = Some r
          /\ Arrival_Photo r = Some BMP_1x1).
Proof.
  assert (Hok : forall (P : Pillow) (B : @PillowReadsBMP P),
            succeeded (fst (@log_arrival P "E1" "Asha" day0 BMP_1x1 clock_0900 empty_db))
            = true).
  { intros P B. unfold log_arrival. simpl.
    destruct (@save_image P BMP_1x1) as [png |] eqn:Hp; [reflexivity |].
    exfalso. exact (save_image_BMP Hp). }
  split.
  - intros (P & F & B & H). rewrite (Hok P B) in H. discriminate.
  - intros (P & F & B & r & Hf & Hphoto).
    destruct (@arrival_photo_is_png P F
                "E1"%string "Asha"%string day0 BMP_1x1 clock_0900 empty_db (Hok P B))
      as (r' & im0 & im1 & png & Hf' & _ & _ & _ & Hphoto' & Hsig).
    rewrite Hf in Hf'. injection Hf' as <-.
    rewrite Hphoto in Hphoto'. injection Hphoto' as <-.
    discriminate Hsig.
Qed.

(** ** Invariants of the reachable databases *)

Section Invariants.

Context {pillow : Pillow}.

(** C7, as amended. In every database reached by running the operations one
    after the other from the empty one, at most one record exists for an
    employee and a day: [log_arrival] looks the key up before it inserts,
    and no update changes a key.  (The collection itself refuses nothing:
    see [insert_one_accepts_existing_key].) *)
Theorem one_record_per_employee_day :
  forall s, reachable s ->
    forall emp_id query_date,
      (List.length (filter (matches_key emp_id query_date) (attendance_collection s)) <= 1)%nat.
Proof.
  induction 1 as [| o s Hr IH]; intros e q; [simpl; lia |].
  destruct (step_effect_of o s) as
    [Heq _ _ | e0 n d ph c png _ Hf _ _ Hs' | ? ? ? ? ? ? ? ? ? _ _ _ _ _ _ _ _ Hs'
     | ? ? ? ? ? _ _ _ Hs'].
  - rewrite Heq. apply IH.
  - rewrite Hs'. simpl. rewrite filter_app, length_app. simpl.
    destruct (matches_key e q
                (with_id (next_oid s)
                   (new_entry e0 n (combine_min d)
                      (strftime_I_M_p (get_current_ist_time c)) png))) eqn:Hk.
    + apply matches_key_eq in Hk as [He Hq]. simpl in He, Hq. subst e q.
      unfold find_one in Hf. rewrite (find_none_filter _ _ Hf). simpl. lia.
    + simpl. specialize (IH e q). lia.
  - rewrite Hs'. simpl.
    rewrite update_first_filter_length by (intros x; reflexivity). apply IH.
  - rewrite Hs'. simpl.
    rewrite update_first_filter_length by (intros x; reflexivity). apply IH.
Qed.

(** The hours computed from the two texts of an edit are there exactly when
    both texts are times. *)
Lemma edited_hours_some (arr_time leave_time : option string) :
  edited_hours arr_time leave_time <> None
  <-> strptime_field arr_time <> None /\ strptime_field leave_time <> None.
Proof.
  unfold edited_hours.
  destruct (strptime_field arr_time); [| tauto].
  destruct (strptime_field leave_time); [| tauto].
  split; [intros _; split |]; discriminate.
Qed.

(** C5, as amended. In every reachable record, hours present is set exactly
    when the leaving time is set and both the arrival and the leaving text
    parse as times; so hours present set implies leaving time set, while an
    edit of a record with a text that is no time stores the two texts as
    typed, the leaving time among them, and no hours.  In a database reached
    without the administrator's edit, where the times are those
    [log_arrival] and [log_leaving] wrote, the converse holds too: a record
    has a leaving time exactly when it has hours present. *)
Theorem hours_present_iff_times_parse :
  (forall s, reachable s ->
     forall r, In r (attendance_collection s) ->
       (Hours_Present r <> None
        <-> (Leaving_Time r <> None
             /\ strptime_field (Arrival_Time r) <> None
             /\ strptime_field (Leaving_Time r) <> None))
       /\ (Hours_Present r <> None -> Leaving_Time r <> None))
  /\ (forall s emp_id date arr_time leave_time entry,
        reachable s ->
        find_one emp_id (combine_min date) s = Some entry ->
        strptime_field arr_time = None \/ strptime_field leave_time = None ->
        exists r,
          find_one emp_id (combine_min date)
            (admin_update_record emp_id date arr_time leave_time s) = Some r
          /\ Arrival_Time r = arr_time
          /\ Leaving_Time r = leave_time
          /\ Hours_Present r = None)
  /\ (forall s, reachable_without_edit s ->
        forall r, In r (attendance_collection s) ->
          (Leaving_Time r <> None <-> Hours_Present r <> None)).
Proof.
  split; [| split].
  - assert (Hinv : forall s, reachable s ->
                     forall r, In r (attendance_collection s) -> hours_iff_times r).
    { induction 1 as [| o s Hr IH]; intros r Hin; [destruct Hin |].
      destruct (step_effect_of o s) as
        [Heq _ _ | e0 n d ph c png _ _ _ _ Hs'
         | e d ph c entry text at0 hours png _ Hf _ Ha Hs _ _ _ Hs'
         | e d a l entry _ _ _ Hs'].
      - rewrite Heq in Hin. auto.
      - rewrite Hs' in Hin. simpl in Hin.
        apply in_app_or in Hin as [Hin | [<- | []]]; [auto |].
        unfold hours_iff_times. simpl.
        split; [intros H | intros [H _]]; exfalso; apply H; reflexivity.
      - rewrite Hs' in Hin. simpl in Hin.
        apply update_first_In in Hin as [Hin | (x & Hx & Hid & ->)]; [auto |].
        apply Nat.eqb_eq in Hid.
        apply find_some in Hf as [Hentry _].
        assert (x = entry).
        { apply (NoDup_map_eq _id (attendance_collection s)); auto.
          apply reachable_ids_fresh. exact Hr. }
        subst x. unfold hours_iff_times. simpl.
        rewrite Ha. simpl. rewrite Hs.
        rewrite (strptime_strftime _ (get_current_ist_time_wf c)).
        split; [intros _; repeat split |]; discriminate.
      - rewrite Hs' in Hin. simpl in Hin.
        apply update_first_In in Hin as [Hin | (x & Hx & _ & ->)]; [auto |].
        unfold hours_iff_times. simpl. rewrite edited_hours_some.
        destruct l as [l |]; simpl; [| tauto].
        split; [intros [H1 H2]; repeat split; auto; discriminate | tauto]. }
    intros s Hr r Hin. specialize (Hinv s Hr r Hin). unfold hours_iff_times in Hinv.
    split; [exact Hinv | tauto].
  - intros s e d a l entry Hr Hf Hbad.
    exists (set_times a l (edited_hours a l) entry).
    unfold admin_update_record. rewrite Hf. split; [| repeat split].
    + unfold find_one, update_one. simpl. apply find_update_first.
      * apply reachable_ids_fresh. exact Hr.
      * intros x. reflexivity.
      * exact Hf.
    + simpl. unfold edited_hours.
      destruct Hbad as [H | H]; rewrite H; [| destruct (strptime_field a)]; reflexivity.
  - induction 1 as [| o s Ho Hr IH]; intros r Hin; [destruct Hin |].
    destruct (step_effect_of o s) as
      [Heq _ _ | e0 n d ph c png _ _ _ _ Hs'
       | e d ph c entry text at0 hours png _ _ _ _ _ _ _ _ Hs'
       | e d a l entry Hedit _ _ _].
    + rewrite Heq in Hin. auto.
    + rewrite Hs' in Hin. simpl in Hin.
      apply in_app_or in Hin as [Hin | [<- | []]]; [auto |].
      simpl. split; intros H; exfalso; apply H; reflexivity.
    + rewrite Hs' in Hin. simpl in Hin.
      apply update_first_In in Hin as [Hin | (x & _ & _ & ->)]; [auto |].
      simpl. split; intros _; discriminate.
    + rewrite Hedit in Ho. discriminate.
Qed.

End Invariants.

(** C7, counterexample. The collection has no unique index: inserting an
    entry for an employee and a day that already have a record raises
    nothing and leaves two records for that key. *)
Lemma insert_one_accepts_existing_key :
  find_one "E1" (combine_min day0) arrived_db = Some arrived_doc
  /\ List.length
       (filter (matches_key "E1" (combine_min day0))
          (attendance_collection
             (insert_one (new_entry "E1" "Asha" (combine_min day0) "09:05 AM" JPEG_SOI)
                arrived_db)))
     = 2%nat.
Proof. split; reflexivity. Qed.

Lemma one_record_per_employee_day_witness :
  @reachable raw_pillow arrived_db
  /\ (List.length (filter (matches_key "E1" (combine_min day0))
                     (attendance_collection arrived_db)) <= 1)%nat.
Proof.
  assert (Hr : @reachable raw_pillow arrived_db).
  { exact (@reachable_step raw_pillow
             (LogArrival "E1" "Asha" day0 JPEG_SOI clock_0900) empty_db
             (@reachable_empty raw_pillow)). }
  split; [exact Hr |].
  exact (@one_record_per_employee_day raw_pillow arrived_db Hr "E1"%string (combine_min day0)).
Defined.

Lemma hours_present_iff_times_parse_witness :
  @reachable raw_pillow left_db
  /\ In left_doc (attendance_collection left_db)
  /\ Hours_Present left_doc <> None
  /\ Leaving_Time left_doc <> None
  /\ strptime_field (Arrival_Time left_doc) <> None
  /\ strptime_field (Leaving_Time left_doc) <> None.
Proof.
  assert (Hr : @reachable raw_pillow left_db).
  { exact (@reachable_step raw_pillow
             (LogLeaving "E1" day0 JPEG_SOI clock_1730) arrived_db
             (@reachable_step raw_pillow
                (LogArrival "E1" "Asha" day0 JPEG_SOI clock_0900) empty_db
                (@reachable_empty raw_pillow))). }
  assert (Hin : In left_doc (attendance_collection left_db)) by (left; reflexivity).
  assert (Hh : Hours_Present left_doc <> None) by discriminate.
  split; [exact Hr | split; [exact Hin | split; [exact Hh |]]].
  exact (proj1 (proj1 (proj1 (@hours_present_iff_times_parse raw_pillow) left_db Hr
                         left_doc Hin)) Hh).
Defined.

(** ** The administrator's edit, after an arrival *)

Section EditAfterArrival.

Context {pillow : Pillow} {facts : PillowFacts}.

Lemma run_reachable (ops : list op) :
  forall s, reachable s -> reachable (snd (run ops s)).
Proof.
  induction ops as [| o rest IH]; intros s Hr; [exact Hr |].
  simpl. pose proof (reachable_step o s Hr) as H1.
  destruct (step o s) as [r s1]. simpl in H1.
  specialize (IH s1 H1). destruct (run rest s1) as [tr s2]. exact IH.
Qed.

Lemma arrival_then_edit_db (arr_time leave_time : option string) :
  exists png,
    snd (run (arrival_then_edit arr_time leave_time) empty_db)
    = {| attendance_collection :=
           [set_times arr_time leave_time (edited_hours arr_time leave_time)
              (with_id 0 (new_entry "E1" "Asha" (combine_min day0) "09:00 AM" png))];
         settings_collection := [];
         next_oid := 1 |}.
Proof.
  destruct (save_image sample_photo) as [png |] eqn:Hp;
    [| exfalso; exact (sample_photo_ok Hp)].
  exists png. unfold arrival_then_edit, run, step, log_arrival.
  change (find_one "E1" (combine_min day0) empty_db) with (@None attendance_doc).
  rewrite Hp. reflexivity.
Qed.

End EditAfterArrival.

(** C4, the failing run. Whatever Pillow is, after an arrival and an edit
    that sets the arrival time to 05:00 PM and the leaving time to 09:00 AM,
    the database holds a record whose hours present are -8.0: the edit
    computes the difference without the day [log_leaving] adds to a negative
    one. *)
Theorem admin_edit_stores_negative_hours :
  forall (P : Pillow) (F : @PillowFacts P),
    let s := snd (@run P (@arrival_then_edit P F (Some "05:00 PM"%string)
                            (Some "09:00 AM"%string)) empty_db) in
    @reachable P s
    /\ exists r, find_one "E1" (combine_min day0) s = Some r
                 /\ Hours_Present r = Some (-8)%float
                 /\ PrimFloat.ltb (-8)%float 0%float = true.
Proof.
  intros P F s. split.
  - apply run_reachable. constructor.
  - destruct (@arrival_then_edit_db P F (Some "05:00 PM"%string) (Some "09:00 AM"%string))
      as [png E].
    subst s. rewrite E. eexists. split; [reflexivity |]. split; reflexivity.
Qed.

(** C5, counterexample. Whatever Pillow is, after an arrival and an edit in
    which the administrator types a leaving time that is no time, a
    reachable record has a leaving time and no hours present. *)
Lemma leaving_time_without_hours :
  ~ exists (P : Pillow) (F : @PillowFacts P),
      forall s, @reachable P s ->
        forall r, In r (attendance_collection s) ->
          (Leaving_Time r <> None <-> Hours_Present r <> None).
Proof.
  intros (P & F & H).
  destruct (@arrival_then_edit_db P F (Some "09:00 AM"%string) (Some "abc"%string))
    as [png E].
  pose proof (@run_reachable P
                (@arrival_then_edit P F (Some "09:00 AM"%string) (Some "abc"%string))
                empty_db (@reachable_empty P)) as Hr.
  rewrite E in Hr.
  specialize (H _ Hr _ (or_introl eq_refl)).
  simpl in H. apply (proj1 H); [discriminate | reflexivity].
Qed.

(** ** The location-restriction setting *)

Lemma find_update_first_same {A : Type} (p : A -> bool) (f : A -> A) (l : list A) (e : A) :
  (forall x, p (f x) = p x) -> find p l = Some e ->
  find p (update_first p f l) = Some (f e).
Proof.
  intros Hp. induction l as [| x r IH]; simpl; [discriminate |].
  destruct (p x) eqn:Hx.
  - intros [= ->]. simpl. rewrite Hp, Hx. reflexivity.
  - simpl. rewrite Hx. exact IH.
Qed.

Lemma update_first_length {A : Type} (p : A -> bool) (f : A -> A) (l : list A) :
  List.length (update_first p f l) = List.length l.
Proof.
  induction l as [| x r IH]; simpl; [reflexivity |].
  destruct (p x); simpl; [| rewrite IH]; reflexivity.
Qed.

Section Setting.

Context {pillow : Pillow}.

Lemma set_then_find (v : bool) (s : db) :
  exists d, find_one_setting LOCATION_RESTRICTION (set_location_restriction v s) = Some d
            /\ value d = v.
Proof.
  unfold set_location_restriction.
  destruct (find_one_setting LOCATION_RESTRICTION s) as [d0 |] eqn:Hf.
  - exists (set_value v d0). split; [| reflexivity].
    unfold find_one_setting in *. simpl.
    apply find_update_first_same; [intros x; reflexivity | exact Hf].
  - eexists. unfold find_one_setting in *. simpl.
    rewrite (find_app_none _ _ _ Hf). simpl. split; reflexivity.
Qed.

Lemma step_keeps_setting (o : op) (s : db) (d : setting_doc) :
  keeps_setting o = true ->
  find_one_setting LOCATION_RESTRICTION s = Some d ->
  find_one_setting LOCATION_RESTRICTION (snd (step o s)) = Some d
  /\ (o = GetLocationRestriction -> fst (step o s) = Restriction (value d)).
Proof.
  intros Hk Hf.
  destruct o as [e n dt ph c | e dt ph c | e dt a l | | v]; simpl in Hk; try discriminate.
  - split; [| discriminate]. unfold step, log_arrival.
    destruct (find_one e (combine_min dt) s); [exact Hf |].
    destruct (save_image ph); exact Hf.
  - split; [| discriminate]. unfold step, log_leaving.
    destruct (find_one e (combine_min dt) s) as [entry |]; [| exact Hf].
    destruct (Leaving_Time entry); [exact Hf |].
    destruct (Arrival_Time entry) as [text |]; [| exact Hf].
    destruct (strptime_I_M_p text) as [at0 |]; [| exact Hf].
    destruct (elapsed_hours dt at0 (get_current_ist_time c)); [| exact Hf].
    destruct (save_image ph); exact Hf.
  - split; [| discriminate]. unfold step, admin_update_record.
    destruct (find_one e (combine_min dt) s); exact Hf.
  - unfold step, get_location_restriction. rewrite Hf. simpl. auto.
Qed.

Lemma run_gets_stored_value (ops : list op) :
  forall s d,
    forallb keeps_setting ops = true ->
    find_one_setting LOCATION_RESTRICTION s = Some d ->
    forall b, In (GetLocationRestriction, Restriction b) (fst (run ops s)) -> b = value d.
Proof.
  induction ops as [| o rest IH]; intros s d Hk Hf b Hin; [destruct Hin |].
  simpl in Hk. apply andb_true_iff in Hk as [Ho Hrest].
  destruct (step_keeps_setting o s d Ho Hf) as [Hf' Hget].
  simpl in Hin. destruct (step o s) as [r s1]. simpl in Hf', Hget.
  destruct (run rest s1) as [tr s2] eqn:Hrun. simpl in Hin.
  destruct Hin as [Hin | Hin].
  - injection Hin as -> ->. specialize (Hget eq_refl). congruence.
  - apply (IH s1 d Hrest Hf' b). rewrite Hrun. exact Hin.
Qed.

(** C9. [get_location_restriction] returns the stored value when the
    setting exists, and leaves the database as it is; when the setting is
    absent it inserts the setting with value [True] and returns [True].
    [set_location_restriction] upserts: it sets the value of the existing
    setting, or inserts the setting when there is none; and until the next
    [set], whatever else is run, every [get] returns the value last set. *)
Theorem location_restriction_get_set :
  (forall s d, find_one_setting LOCATION_RESTRICTION s = Some d ->
               get_location_restriction s = (value d, s))
  /\ (forall s, find_one_setting LOCATION_RESTRICTION s = None ->
        fst (get_location_restriction s) = true
        /\ settings_collection (snd (get_location_restriction s))
           = settings_collection s
               ++ [{| setting_id := next_oid s; setting := LOCATION_RESTRICTION; value := true |}]
        /\ exists d, find_one_setting LOCATION_RESTRICTION (snd (get_location_restriction s))
                     = Some d /\ value d = true)
  /\ (forall v s,
        (exists d, find_one_setting LOCATION_RESTRICTION (set_location_restriction v s) = Some d
                   /\ value d = v)
        /\ (find_one_setting LOCATION_RESTRICTION s = None ->
            settings_collection (set_location_restriction v s)
            = settings_collection s
                ++ [{| setting_id := next_oid s; setting := LOCATION_RESTRICTION; value := v |}])
        /\ (find_one_setting LOCATION_RESTRICTION s <> None ->
            List.length (settings_collection (set_location_restriction v s))
            = List.length (settings_collection s)))
  /\ (forall v s ops b,
        forallb keeps_setting ops = true ->
        In (GetLocationRestriction, Restriction b)
           (fst (run ops (set_location_restriction v s))) ->
        b = v).
Proof.
  split; [| split; [| split]].
  - intros s d Hf. unfold get_location_restriction. rewrite Hf. reflexivity.
  - intros s Hf. unfold get_location_restriction. rewrite Hf. simpl.
    split; [reflexivity | split; [reflexivity |]].
    eexists. unfold find_one_setting in *. simpl.
    rewrite (find_app_none _ _ _ Hf). simpl. split; reflexivity.
  - intros v s. split; [apply set_then_find | split].
    + intros Hf. unfold set_location_restriction. rewrite Hf. reflexivity.
    + intros Hf. unfold set_location_restriction.
      destruct (find_one_setting LOCATION_RESTRICTION s); [| congruence].
      simpl. apply update_first_length.
  - intros v s ops b Hk Hin.
    destruct (set_then_find v s) as (d & Hf & <-).
    exact (run_gets_stored_value ops _ d Hk Hf b Hin).
Qed.

End Setting.

Lemma location_restriction_get_set_witness :
  find_one_setting LOCATION_RESTRICTION empty_db = None
  /\ fst (get_location_restriction empty_db) = true
  /\ forall b,
       In (GetLocationRestriction, Restriction b)
          (fst (@run raw_pillow
                  [GetLocationRestriction;
                   LogArrival "E1" "Asha" day0 JPEG_SOI clock_0900;
                   GetLocationRestriction]
                  (set_location_restriction false empty_db))) ->
       b = false.
Proof.
  split; [reflexivity | split].
  - apply (proj1 (proj2 (@location_restriction_get_set raw_pillow)) empty_db). reflexivity.
  - intros b. apply (proj2 (proj2 (proj2 (@location_restriction_get_set raw_pillow)))).
    reflexivity.
Defined.

(** ** Hours on the logging path *)

Lemma digit_of_range (c : ascii) (d : Z) : digit_of c = Some d -> 0 <= d <= 9.
Proof.
  unfold digit_of.
  destruct ((48 <=? code c) && (code c <=? 57)) eqn:H; [| discriminate].
  intros [= <-]. apply andb_true_iff in H as [H1 H2].
  apply Z.leb_le in H1, H2. lia.
Qed.

Ltac split_matches H :=
  repeat match type of H with
    | In _ (_ ++ _) => apply in_app_or in H; destruct H as [H | H]
    | In _ (if ?b then _ else _) => destruct b eqn:?
    | In _ (match digit_of ?c with _ => _ end) => destruct (digit_of c) eqn:?
    | In _ [] => destruct H
    | In _ [_] => destruct H as [H | []]
    end.

Ltac digit_facts :=
  repeat match goal with
    | E : digit_of _ = Some _ |- _ => apply digit_of_range in E
    | E : (_ <=? _) = true |- _ => apply Z.leb_le in E
    end.

Lemma match_I_range (s r : string) (i : Z) : In (i, r) (match_I s) -> 1 <= i <= 12.
Proof.
  unfold match_I. destruct s as [| c1 [| c2 r2]]; intros H;
    split_matches H; try (apply pair_equal_spec in H as [<- _]); digit_facts; lia.
Qed.

Lemma decimal_of_range (n d : Z) : decimal_of n = Some d -> 0 <= d <= 9.
Proof.
  unfold decimal_of.
  destruct (find (fun z => (z <=? n) && (n <? z + 10)) DECIMAL_ZEROS) as [z |] eqn:Hf;
    [| discriminate].
  intros [= <-]. apply find_some in Hf as [_ H].
  apply andb_true_iff in H as [H1 H2]. apply Z.leb_le in H1. apply Z.ltb_lt in H2. lia.
Qed.

Lemma match_d_range (s r : string) (d : Z) : In (d, r) (match_d s) -> 0 <= d <= 9.
Proof.
  unfold match_d, decimal_char. destruct (chars s) as [| c cs]; [intros [] |].
  destruct (code_point c) as [n |]; [| intros []].
  destruct (decimal_of n) as [d' |] eqn:Hd; [| intros []].
  intros [[= <- _] | []]. apply (decimal_of_range n). exact Hd.
Qed.

Lemma match_M_range (s r : string) (m : Z) : In (m, r) (match_M s) -> 0 <= m <= 59.
Proof.
  unfold match_M. intros H. apply in_app_or in H as [H | H].
  - destruct s as [| c1 r1]; [destruct H |].
    destruct (digit_of c1) as [d1 |] eqn:Hd1; [| destruct H].
    destruct (Z.leb_spec d1 5) as [Hle | Hgt]; [| destruct H].
    apply in_map_iff in H as ([d2 r2] & Heq & Hin).
    apply pair_equal_spec in Heq as [<- _].
    apply match_d_range in Hin. apply digit_of_range in Hd1. lia.
  - apply match_d_range in H. lia.
Qed.

Lemma match_I_M_p_wf (s r : string) (t : time) : In (t, r) (match_I_M_p s) -> wf_time t.
Proof.
  unfold match_I_M_p. intros H.
  apply in_flat_map in H as ([i r1] & Hi & H).
  apply in_flat_map in H as (r2 & _ & H).
  apply in_flat_map in H as ([m r3] & Hm & H).
  apply in_flat_map in H as (r4 & _ & H).
  apply in_map_iff in H as ([pm r5] & [= <- <-] & _).
  apply match_I_range in Hi. apply match_M_range in Hm.
  unfold wf_time, hour_of_I_p. simpl.
  destruct pm; destruct (Z.eqb_spec i 12); lia.
Qed.

(** A text that [strptime] accepts is a well-formed time of day. *)
Lemma strptime_wf (s : string) (t : time) : strptime_I_M_p s = Some t -> wf_time t.
Proof.
  unfold strptime_I_M_p.
  destruct (match_I_M_p s) as [| [t' rest] l] eqn:E; [discriminate |].
  destruct rest; [| discriminate]. intros [= <-].
  apply (match_I_M_p_wf s EmptyString). rewrite E. left. reflexivity.
Qed.

Section LoggingOnly.

Context {pillow : Pillow}.

(** X1. The hours that [log_leaving] stores are never negative: in a database
    reached by [log_arrival] and [log_leaving] alone (and the location
    setting), every record's hours present, when set, are at least 0. *)
Theorem hours_nonnegative_without_edit :
  forall s, reachable_without_edit s ->
    forall r h, In r (attendance_collection s) -> Hours_Present r = Some h ->
      PrimFloat.leb 0 h = true.
Proof.
  induction 1 as [| o s Ho Hr IH]; intros r h Hin Hh; [destruct Hin |].
  destruct (step_effect_of o s) as
    [Heq _ _ | e0 n d ph c png _ _ _ _ Hs'
     | e d ph c entry text at0 hours png _ _ _ _ Hs Hhours _ _ Hs'
     | e d a l entry Hedit _ _ _].
  - rewrite Heq in Hin. eauto.
  - rewrite Hs' in Hin. simpl in Hin. apply in_app_or in Hin as [Hin | [<- | []]]; [eauto |].
    discriminate Hh.
  - rewrite Hs' in Hin. simpl in Hin.
    apply update_first_In in Hin as [Hin | (x & _ & _ & ->)]; [eauto |].
    simpl in Hh. injection Hh as <-.
    apply (elapsed_hours_nonneg d at0 (get_current_ist_time c));
      [| apply get_current_ist_time_wf | exact Hhours].
    eapply strptime_wf. exact Hs.
  - rewrite Hedit in Ho. discriminate.
Qed.

End LoggingOnly.

Lemma hours_nonnegative_without_edit_witness :
  let s := snd (@run raw_pillow
                  [LogArrival "E1" "Asha" day0 JPEG_SOI clock_0900;
                   LogLeaving "E1" day0 JPEG_SOI clock_1730] empty_db) in
  @reachable_without_edit raw_pillow s
  /\ forall r h, In r (attendance_collection s) -> Hours_Present r = Some h ->
                 PrimFloat.leb 0 h = true.
Proof.
  assert (H1 : @reachable_without_edit raw_pillow arrived_db).
  { exact (@without_edit_step raw_pillow
             (LogArrival "E1" "Asha" day0 JPEG_SOI clock_0900) empty_db eq_refl
             (@without_edit_empty raw_pillow)). }
  pose proof (@without_edit_step raw_pillow
                (LogLeaving "E1" day0 JPEG_SOI clock_1730) arrived_db eq_refl H1) as H2.
  split; [exact H2 |].
  exact (@hours_nonnegative_without_edit raw_pillow _ H2).
Defined.

(** ** Two arrivals at once *)

Section Race.

Context {pillow : Pillow}.

Lemma log_arrival_lookup_then_insert (emp_id name : string) (date : Z) (photo : bytes)
    (clock : Z) (s : db) :
  log_arrival emp_id name date photo clock s
  = if arrival_exists emp_id date s then (Returned DuplicateLogError, s)
    else arrival_insert emp_id name date photo clock s.
Proof.
  unfold log_arrival, arrival_exists, arrival_insert.
  destruct (find_one emp_id (combine_min date) s); reflexivity.
Qed.

(** X2. [log_arrival] is the lookup followed by the insertion, and nothing
    makes the pair one step.  When two requests for the same employee and
    day both make the lookup before either inserts, both find no record,
    both insertions succeed, and the collection holds two records for the
    key; run one after the other, the second call finds the record of the
    first and is refused. *)
Theorem interleaved_arrivals_leave_two_records :
  forall emp_id date name1 photo1 clock1 name2 photo2 clock2 s,
    log_arrival emp_id name1 date photo1 clock1 s
    = (if arrival_exists emp_id date s then (Returned DuplicateLogError, s)
       else arrival_insert emp_id name1 date photo1 clock1 s)
    /\ (arrival_exists emp_id date s = false ->
        save_image photo1 <> None -> save_image photo2 <> None ->
        let s1 := snd (arrival_insert emp_id name1 date photo1 clock1 s) in
        let s2 := snd (arrival_insert emp_id name2 date photo2 clock2 s1) in
        fst (arrival_insert emp_id name1 date photo1 clock1 s) = Returned ArrivalLogged
        /\ fst (arrival_insert emp_id name2 date photo2 clock2 s1) = Returned ArrivalLogged
        /\ List.length (filter (matches_key emp_id (combine_min date))
                          (attendance_collection s2)) = 2%nat
        /\ log_arrival emp_id name2 date photo2 clock2
             (snd (log_arrival emp_id name1 date photo1 clock1 s))
           = (Returned DuplicateLogError, s1)).
Proof.
  intros e d n1 ph1 c1 n2 ph2 c2 s.
  split; [apply log_arrival_lookup_then_insert |].
  intros Hex Hp1 Hp2 s1 s2.
  assert (Hf : find_one e (combine_min d) s = None).
  { unfold arrival_exists in Hex. destruct (find_one e (combine_min d) s); congruence. }
  assert (E1 : log_arrival e n1 d ph1 c1 s = arrival_insert e n1 d ph1 c1 s)
    by (rewrite log_arrival_lookup_then_insert, Hex; reflexivity).
  unfold s2, s1, arrival_insert in *.
  destruct (save_image ph1) as [png1 |]; [| contradiction].
  destruct (save_image ph2) as [png2 |]; [| contradiction].
  simpl. repeat split.
  - rewrite !filter_app, !length_app.
    unfold find_one in Hf. rewrite (find_none_filter _ _ Hf). simpl.
    unfold matches_key. simpl. rewrite String.eqb_refl. unfold datetime_eqb. simpl.
    rewrite Z.eqb_refl. reflexivity.
  - rewrite E1. simpl. unfold log_arrival.
    rewrite (find_one_inserted e n1 d c1 png1 s Hf). reflexivity.
Qed.

End Race.

Lemma interleaved_arrivals_leave_two_records_witness :
  arrival_exists "E1" day0 empty_db = false
  /\ List.length
       (filter (matches_key "E1" (combine_min day0))
          (attendance_collection
             (snd (@arrival_insert raw_pillow "E1" "Asha" day0 BMP_1x1 (clock_0900 + 1)
                     (snd (@arrival_insert raw_pillow "E1" "Asha" day0 BMP_1x1 clock_0900
                             empty_db))))))
     = 2%nat.
Proof.
  assert (Hp : @save_image raw_pillow BMP_1x1 <> None) by discriminate.
  split; [reflexivity |].
  exact (proj1 (proj2 (proj2
           (proj2 (@interleaved_arrivals_leave_two_records raw_pillow
                     "E1"%string day0 "Asha"%string BMP_1x1 clock_0900
                     "Asha"%string BMP_1x1 (clock_0900 + 1) empty_db)
              eq_refl Hp Hp)))).
Defined.

(* ================================================================== *)
(** ** [str.strip] *)

Lemma text_chars (s : string) : text (chars s) = s.
Proof.
  induction s as [| b r IH]; simpl; [reflexivity |].
  destruct (chars r) as [| c cs]; simpl in *.
  - rewrite <- IH. reflexivity.
  - destruct (starts_continuation c); simpl; rewrite IH; reflexivity.
Qed.

Lemma chars_chunk (t : string) :
  forall b rest,
    all_continuation t = true ->
    match chars rest with c :: _ => starts_continuation c = false | [] => True end ->
    chars (String b (t ++ rest)) = String b t :: chars rest.
Proof.
  induction t as [| b1 t1 IH]; intros b rest Ht Hrest.
  - simpl. destruct (chars rest) as [| c cs]; [reflexivity |]. rewrite Hrest. reflexivity.
  - simpl in Ht. apply andb_true_iff in Ht as [Hb1 Ht1].
    change (chars (String b (String b1 t1 ++ rest)))
      with (match chars (String b1 (t1 ++ rest)) with
            | c :: cs => if starts_continuation c then String b c :: cs
                         else String b EmptyString :: c :: cs
            | [] => [String b EmptyString]
            end).
    rewrite (IH b1 rest Ht1 Hrest). simpl. rewrite Hb1. reflexivity.
Qed.

Lemma chars_follow_ok (l : list string) : chars_follow l = true -> chars_ok l = true.
Proof.
  destruct l as [| c r]; simpl; [reflexivity |].
  intros H. apply andb_true_iff in H as [Hc Hr].
  apply andb_true_iff in Hc as [Hc _]. rewrite Hc, Hr. reflexivity.
Qed.

Lemma chars_text (l : list string) : chars_ok l = true -> chars (text l) = l.
Proof.
  assert (Hfollow : forall l, chars_follow l = true -> chars (text l) = l).
  { induction l0 as [| c r IH]; simpl; intros H; [reflexivity |].
    apply andb_true_iff in H as [Hc Hr]. apply andb_true_iff in Hc as [Hc _].
    destruct c as [| b t]; [discriminate |]. simpl in Hc.
    change (String b t ++ text r)%string with (String b (t ++ text r)).
    rewrite chars_chunk; rewrite ?(IH Hr); auto.
    destruct r as [| c' r']; [exact I |]. simpl in Hr.
    apply andb_true_iff in Hr as [Hc' _]. apply andb_true_iff in Hc' as [_ Hc'].
    apply negb_true_iff in Hc'. exact Hc'. }
  destruct l as [| c r]; simpl; [reflexivity |]. intros H.
  apply andb_true_iff in H as [Hc Hr].
  destruct c as [| b t]; [discriminate |]. simpl in Hc.
  change (String b t ++ text r)%string with (String b (t ++ text r)).
  rewrite chars_chunk; rewrite ?(Hfollow r Hr); auto.
  destruct r as [| c' r']; [exact I |]. simpl in Hr.
  apply andb_true_iff in Hr as [Hc' _]. apply andb_true_iff in Hc' as [_ Hc'].
  apply negb_true_iff in Hc'. exact Hc'.
Qed.

Lemma chars_chars_ok (s : string) : chars_ok (chars s) = true.
Proof.
  induction s as [| b r IH]; simpl; [reflexivity |].
  destruct (chars r) as [| c cs]; [reflexivity |].
  simpl in IH. apply andb_true_iff in IH as [Hc Hcs].
  destruct (starts_continuation c) eqn:Hs; simpl.
  - rewrite Hcs, andb_true_r. destruct c as [| b' t']; [discriminate |].
    simpl in *. rewrite Hs, Hc. reflexivity.
  - rewrite Hc, Hs, Hcs. reflexivity.
Qed.

Lemma lstrip_chars_ok (l : list string) : chars_ok l = true -> chars_ok (lstrip_chars l) = true.
Proof.
  induction l as [| c r IH]; simpl; [reflexivity |]. intros H.
  destruct (space_char c); [| exact H].
  apply IH. apply andb_true_iff in H as [_ H]. apply chars_follow_ok. exact H.
Qed.

Lemma rstrip_chars_follow (l : list string) :
  chars_follow l = true -> chars_follow (rstrip_chars l) = true.
Proof.
  induction l as [| c r IH]; simpl; [reflexivity |]. intros H.
  apply andb_true_iff in H as [Hc Hr]. specialize (IH Hr).
  destruct (rstrip_chars r) as [| c' r'].
  - destruct (space_char c); simpl; [reflexivity | rewrite Hc; reflexivity].
  - simpl in *. rewrite Hc, IH. reflexivity.
Qed.

Lemma rstrip_chars_ok (l : list string) : chars_ok l = true -> chars_ok (rstrip_chars l) = true.
Proof.
  destruct l as [| c r]; simpl; [reflexivity |]. intros H.
  apply andb_true_iff in H as [Hc Hr]. apply rstrip_chars_follow in Hr.
  destruct (rstrip_chars r) as [| c' r'].
  - destruct (space_char c); simpl; [reflexivity | rewrite Hc; reflexivity].
  - simpl in *. rewrite Hc, Hr. reflexivity.
Qed.

Lemma text_empty (l : list string) : chars_ok l = true -> (text l = EmptyString <-> l = []).
Proof.
  destruct l as [| c r]; simpl; [tauto |]. intros H.
  apply andb_true_iff in H as [Hc _]. destruct c; [discriminate |].
  split; discriminate.
Qed.

Lemma lstrip_chars_all_space (l : list string) :
  forallb space_char (lstrip_chars l) = forallb space_char l.
Proof.
  induction l as [| c r IH]; simpl; [reflexivity |].
  destruct (space_char c) eqn:Hc; simpl; [exact IH | rewrite Hc; reflexivity].
Qed.

Lemma rstrip_chars_empty (l : list string) :
  rstrip_chars l = [] <-> forallb space_char l = true.
Proof.
  induction l as [| c r IH]; simpl; [tauto |].
  destruct (rstrip_chars r) as [| c' r'].
  - destruct (space_char c); simpl; [tauto |]. split; discriminate.
  - split; [discriminate |]. intros H. apply andb_true_iff in H as [_ H].
    apply IH in H. discriminate.
Qed.

Lemma lstrip_chars_head (l : list string) (c : string) (r : list string) :
  lstrip_chars l = c :: r -> space_char c = false.
Proof.
  induction l as [| c0 r0 IH]; simpl; [discriminate |].
  destruct (space_char c0) eqn:Hc; [exact IH |]. intros [= <- <-]. exact Hc.
Qed.

Lemma rstrip_chars_head (c : string) (r : list string) :
  space_char c = false -> rstrip_chars (c :: r) = c :: rstrip_chars r.
Proof.
  intros Hc. simpl. destruct (rstrip_chars r); [rewrite Hc |]; reflexivity.
Qed.

Lemma rstrip_chars_idempotent (l : list string) :
  rstrip_chars (rstrip_chars l) = rstrip_chars l.
Proof.
  induction l as [| c r IH]; simpl; [reflexivity |].
  destruct (rstrip_chars r) as [| c' r'] eqn:Hr.
  - destruct (space_char c) eqn:Hc; simpl; [| rewrite Hc]; reflexivity.
  - change (rstrip_chars (c :: c' :: r')) with
      (match rstrip_chars (c' :: r') with
       | [] => if space_char c then [] else [c]
       | r'' => c :: r''
       end).
    rewrite IH. reflexivity.
Qed.

Lemma strip_chars_ok (s : string) :
  chars_ok (rstrip_chars (lstrip_chars (chars s))) = true.
Proof. apply rstrip_chars_ok, lstrip_chars_ok, chars_chars_ok. Qed.

Lemma strip_idempotent (s : string) : strip (strip s) = strip s.
Proof.
  unfold strip. rewrite (chars_text _ (strip_chars_ok s)). f_equal.
  destruct (lstrip_chars (chars s)) as [| c r] eqn:Hl; [reflexivity |].
  pose proof (lstrip_chars_head _ _ _ Hl) as Hc.
  rewrite (rstrip_chars_head c r Hc). simpl lstrip_chars. rewrite Hc.
  rewrite (rstrip_chars_head c _ Hc), rstrip_chars_idempotent. reflexivity.
Qed.

Lemma strip_empty (s : string) : strip s = EmptyString <-> all_space s = true.
Proof.
  unfold strip, all_space.
  rewrite (text_empty _ (strip_chars_ok s)), rstrip_chars_empty, lstrip_chars_all_space.
  tauto.
Qed.

Lemma eqb_empty (s : string) : String.eqb s "" = true <-> s = EmptyString.
Proof. apply String.eqb_eq. Qed.

(* ================================================================== *)
(** ** Employee management *)

Lemma delete_first_In {A : Type} (p : A -> bool) (l : list A) (x : A) :
  In x (delete_first p l) -> In x l.
Proof.
  induction l as [| y r IH]; simpl; [tauto |].
  destruct (p y); simpl; [tauto |]. intros [H | H]; auto.
Qed.

Lemma delete_first_NoDup {A B : Type} (g : A -> B) (p : A -> bool) (l : list A) :
  NoDup (map g l) -> NoDup (map g (delete_first p l)).
Proof.
  induction l as [| y r IH]; simpl; intros Hnd; [exact Hnd |].
  inversion Hnd as [| ? ? Hy Hr]; subst.
  destruct (p y); simpl; [exact Hr |].
  constructor; [| apply IH; exact Hr].
  intros Hin. apply Hy. apply in_map_iff in Hin as (x & Hx & Hin).
  apply in_map_iff. exists x. split; [exact Hx |].
  apply (delete_first_In p). exact Hin.
Qed.

Lemma find_employee_In (emp_id : string) (employees : list Emp.doc) (e : Emp.doc) :
  find_one_employee emp_id employees = Some e ->
  In e employees /\ Emp.Employee_ID e = emp_id.
Proof.
  unfold find_one_employee. intros H. apply find_some in H as [Hin Heq].
  apply String.eqb_eq in Heq. auto.
Qed.

Lemma find_employee_none (emp_id : string) (employees : list Emp.doc) :
  find_one_employee emp_id employees = None ->
  ~ In emp_id (map Emp.Employee_ID employees).
Proof.
  unfold find_one_employee. intros H Hin.
  apply in_map_iff in Hin as (e & He & Hin).
  pose proof (find_none _ _ H e Hin) as Hn. simpl in Hn.
  rewrite He, String.eqb_refl in Hn. discriminate.
Qed.

Lemma find_employee_deleted (emp_id : string) (employees : list Emp.doc) :
  NoDup (map Emp.Employee_ID employees) ->
  find_one_employee emp_id
    (delete_first (fun e => String.eqb (Emp.Employee_ID e) emp_id) employees) = None.
Proof.
  unfold find_one_employee.
  induction employees as [| x r IH]; simpl; intros Hnd; [reflexivity |].
  inversion Hnd as [| ? ? Hx Hr]; subst.
  destruct (String.eqb (Emp.Employee_ID x) emp_id) eqn:Hid.
  - apply String.eqb_eq in Hid.
    destruct (find (fun e => String.eqb (Emp.Employee_ID e) emp_id) r) as [y |] eqn:Hf;
      [| reflexivity].
    exfalso. apply find_some in Hf as [Hin Hy]. apply String.eqb_eq in Hy.
    apply Hx. rewrite Hid, <- Hy. apply in_map. exact Hin.
  - simpl. rewrite Hid. apply IH. exact Hr.
Qed.

Lemma find_employee_other_deleted (emp_id other : string) (employees : list Emp.doc) :
  other <> emp_id ->
  find_one_employee other
    (delete_first (fun e => String.eqb (Emp.Employee_ID e) emp_id) employees)
  = find_one_employee other employees.
Proof.
  intros Hne. unfold find_one_employee.
  induction employees as [| x r IH]; simpl; [reflexivity |].
  destruct (String.eqb (Emp.Employee_ID x) emp_id) eqn:Hid.
  - apply String.eqb_eq in Hid.
    destruct (String.eqb (Emp.Employee_ID x) other) eqn:Ho; [| reflexivity].
    apply String.eqb_eq in Ho. congruence.
  - simpl. rewrite IH. reflexivity.
Qed.

(** The three ways [add_employee] ends. *)
Lemma add_employee_cases (emp_id name password : string) (employees : list Emp.doc) :
  ((all_space emp_id = true \/ all_space name = true \/ password = EmptyString)
   /\ add_employee emp_id name password employees
      = ((false, "ID, name, and password required."%string), employees))
  \/ (all_space emp_id = false /\ all_space name = false /\ password <> EmptyString
      /\ (exists e, find_one_employee (strip emp_id) employees = Some e)
      /\ add_employee emp_id name password employees
         = ((false, "Employee ID already exists."%string), employees))
  \/ (all_space emp_id = false /\ all_space name = false /\ password <> EmptyString
      /\ find_one_employee (strip emp_id) employees = None
      /\ add_employee emp_id name password employees
         = ((true, "Employee added successfully."%string),
            employees ++ [{| Emp.Employee_ID := strip emp_id; Emp.Name := strip name;
                             Emp.Password_Hash := hash_password password |}])).
Proof.
  unfold add_employee.
  destruct (String.eqb (strip emp_id) "") eqn:Hi.
  { left. split; [| reflexivity]. left. apply strip_empty, eqb_empty. exact Hi. }
  destruct (String.eqb (strip name) "") eqn:Hn.
  { left. split; [| reflexivity]. right. left. apply strip_empty, eqb_empty. exact Hn. }
  destruct (String.eqb password "") eqn:Hp.
  { left. split; [| reflexivity]. right. right. apply eqb_empty. exact Hp. }
  simpl. right.
  assert (Hi' : all_space emp_id = false).
  { destruct (all_space emp_id) eqn:H; [| reflexivity].
    apply strip_empty, eqb_empty in H. congruence. }
  assert (Hn' : all_space name = false).
  { destruct (all_space name) eqn:H; [| reflexivity].
    apply strip_empty, eqb_empty in H. congruence. }
  assert (Hp' : password <> EmptyString).
  { intros H. apply eqb_empty in H. congruence. }
  destruct (find_one_employee (strip emp_id) employees) as [e |] eqn:Hf.
  - left. repeat split; eauto.
  - right. repeat split; auto.
Qed.

(** X3. [add_employee] answers "ID, name, and password required." exactly
    when the ID or the name is empty or all whitespace, or the password is
    empty (a password of whitespace is accepted); otherwise "Employee ID
    already exists." exactly when the stripped ID is that of an employee; in
    both cases the collection is unchanged.  Otherwise it succeeds and adds
    one document, with the stripped ID, the stripped name and the hash of
    the password as typed. *)
Theorem add_employee_validation :
  forall emp_id name password employees,
    let missing := all_space emp_id || all_space name || String.eqb password "" in
    let answer := fst (add_employee emp_id name password employees) in
    let employees' := snd (add_employee emp_id name password employees) in
    (answer = (false, "ID, name, and password required."%string) <-> missing = true)
    /\ (answer = (false, "Employee ID already exists."%string)
        <-> missing = false /\ find_one_employee (strip emp_id) employees <> None)
    /\ (fst answer = false -> employees' = employees)
    /\ (fst answer = true
        <-> missing = false /\ find_one_employee (strip emp_id) employees = None)
    /\ (fst answer = true ->
        employees' = employees ++ [{| Emp.Employee_ID := strip emp_id;
                                      Emp.Name := strip name;
                                      Emp.Password_Hash := hash_password password |}]).
Proof.
  intros emp_id name password employees missing answer employees'.
  subst missing answer employees'.
  destruct (add_employee_cases emp_id name password employees) as
    [[Hm E] | [(Hi & Hn & Hp & [e Hf] & E) | (Hi & Hn & Hp & Hf & E)]]; rewrite E; simpl.
  - assert (Hmiss : all_space emp_id || all_space name || String.eqb password "" = true).
    { destruct Hm as [H | [H | H]]; [rewrite H | rewrite H | subst password];
        simpl; rewrite ?orb_true_r; reflexivity. }
    rewrite Hmiss. repeat split; try discriminate; try tauto.
    all: intros [H _]; discriminate.
  - assert (Hp' : String.eqb password "" = false)
      by (destruct (String.eqb password "") eqn:H; [apply eqb_empty in H; contradiction | reflexivity]).
    rewrite Hi, Hn, Hp', Hf. simpl.
    repeat split; try discriminate; try tauto.
    all: try (intros [_ H]; discriminate).
  - assert (Hp' : String.eqb password "" = false)
      by (destruct (String.eqb password "") eqn:H; [apply eqb_empty in H; contradiction | reflexivity]).
    rewrite Hi, Hn, Hp', Hf. simpl.
    repeat split; try discriminate; try tauto.
    all: try (intros [_ H]; exfalso; apply H; reflexivity).
Qed.

Lemma add_employee_validation_witness :
  fst (fst (add_employee NO_BREAK_SPACE "Asha" "pw" [])) = false
  /\ fst (add_employee NO_BREAK_SPACE "Asha" "pw" [])
     = (false, "ID, name, and password required."%string)
  /\ snd (add_employee NO_BREAK_SPACE "Asha" "pw" []) = [].
Proof.
  split; [reflexivity | split].
  - apply (proj1 (add_employee_validation NO_BREAK_SPACE "Asha" "pw" [])).
    reflexivity.
  - apply (proj1 (proj2 (proj2 (add_employee_validation NO_BREAK_SPACE "Asha" "pw" [])))).
    reflexivity.
Defined.

Lemma strip_not_empty (s : string) : all_space s = false -> strip s <> EmptyString.
Proof.
  intros H E. apply strip_empty in E. congruence.
Qed.

Lemma reachable_employees_invariant (employees : list Emp.doc) :
  reachable_employees employees ->
  NoDup (map Emp.Employee_ID employees)
  /\ forall e, In e employees -> well_formed_employee e.
Proof.
  induction 1 as [| o employees Hr [Hnd Hwf]]; [split; [constructor | intros e []] |].
  destruct o as [emp_id name password | emp_id]; simpl.
  - destruct (add_employee_cases emp_id name password employees) as
      [[_ E] | [(_ & _ & _ & _ & E) | (Hi & Hn & Hp & Hf & E)]]; rewrite E; simpl; auto.
    split.
    + rewrite map_app. simpl. apply NoDup_snoc; [exact Hnd |].
      apply find_employee_none. exact Hf.
    + intros e Hin. apply in_app_or in Hin as [Hin | [<- | []]]; [auto |].
      unfold well_formed_employee. simpl.
      repeat split; auto using strip_not_empty, strip_idempotent.
      exists password. auto.
  - unfold remove_employee.
    destruct (find_one_employee emp_id employees); simpl; [| auto].
    split; [apply delete_first_NoDup; exact Hnd |].
    intros e Hin. apply Hwf. apply (delete_first_In _ _ _ Hin).
Qed.

(** X4. Whatever employees are added and removed, starting from none, no two
    documents have the same employee ID, and every document has an ID and a
    name that are not empty and carry no whitespace at either end, and the
    hash of a password that is not empty. *)
Theorem employees_unique_and_well_formed :
  forall employees, reachable_employees employees ->
    (forall emp_id,
        (List.length (filter (fun e => String.eqb (Emp.Employee_ID e) emp_id) employees)
         <= 1)%nat)
    /\ NoDup (map Emp.Employee_ID employees)
    /\ forall e, In e employees ->
         Emp.Employee_ID e <> EmptyString
         /\ strip (Emp.Employee_ID e) = Emp.Employee_ID e
         /\ Emp.Name e <> EmptyString
         /\ strip (Emp.Name e) = Emp.Name e
         /\ exists password,
              password <> EmptyString /\ Emp.Password_Hash e = hash_password password.
Proof.
  intros employees Hr.
  destruct (reachable_employees_invariant employees Hr) as [Hnd Hwf].
  split; [| split; [exact Hnd | exact Hwf]].
  intros emp_id. clear Hr Hwf.
  induction employees as [| x r IH]; simpl; [lia |].
  inversion Hnd as [| ? ? Hx Hr]; subst.
  destruct (String.eqb (Emp.Employee_ID x) emp_id) eqn:Hid; [| auto].
  apply String.eqb_eq in Hid. simpl.
  destruct (filter (fun e => String.eqb (Emp.Employee_ID e) emp_id) r) as [| y l] eqn:Hf;
    [simpl; lia |].
  exfalso. assert (Hin : In y (filter (fun e => String.eqb (Emp.Employee_ID e) emp_id) r))
    by (rewrite Hf; left; reflexivity).
  apply filter_In in Hin as [Hin Hy]. apply String.eqb_eq in Hy.
  apply Hx. rewrite Hid, <- Hy. apply in_map. exact Hin.
Qed.

Lemma employees_unique_and_well_formed_witness :
  reachable_employees (snd (add_employee " E1 " "Asha " "pw" []))
  /\ NoDup (map Emp.Employee_ID (snd (add_employee " E1 " "Asha " "pw" []))).
Proof.
  assert (Hr : reachable_employees (snd (add_employee " E1 " "Asha " "pw" []))).
  { exact (employees_step (AddEmployee " E1 " "Asha " "pw") [] employees_empty). }
  split; [exact Hr |].
  exact (proj1 (proj2 (employees_unique_and_well_formed _ Hr))).
Defined.

Lemma authenticate_app_other (emp_id pw : string) (employees : list Emp.doc) (d : Emp.doc) :
  Emp.Employee_ID d <> emp_id ->
  authenticate_employee emp_id pw (employees ++ [d]) = authenticate_employee emp_id pw employees.
Proof.
  intros Hne. unfold authenticate_employee, find_one_employee.
  destruct (find (fun e => String.eqb (Emp.Employee_ID e) emp_id) employees) as [e |] eqn:Hf.
  - rewrite (find_app_some _ _ _ _ Hf). reflexivity.
  - rewrite (find_app_none _ _ _ Hf).
    destruct (String.eqb (Emp.Employee_ID d) emp_id) eqn:Hd; [| reflexivity].
    apply String.eqb_eq in Hd. contradiction.
Qed.

(** X5. After a successful [add_employee], the employee authenticates with
    the stripped ID and the password as typed, and gets the document just
    added; for every other ID the answer of [authenticate_employee] is what
    it was before. *)
Theorem added_employee_authenticates :
  forall emp_id name password employees,
    fst (fst (add_employee emp_id name password employees)) = true ->
    let employees' := snd (add_employee emp_id name password employees) in
    authenticate_employee (strip emp_id) password employees'
    = Some {| Emp.Employee_ID := strip emp_id; Emp.Name := strip name;
              Emp.Password_Hash := hash_password password |}
    /\ forall other pw, other <> strip emp_id ->
         authenticate_employee other pw employees' = authenticate_employee other pw employees.
Proof.
  intros emp_id name password employees Hok employees'. subst employees'.
  destruct (add_employee_cases emp_id name password employees) as
    [[_ E] | [(_ & _ & _ & _ & E) | (Hi & Hn & Hp & Hf & E)]];
    rewrite E in Hok |- *; simpl in Hok; try discriminate.
  simpl. split.
  - unfold authenticate_employee. unfold find_one_employee in *.
    rewrite (find_app_none _ _ _ Hf). simpl.
    rewrite !String.eqb_refl. reflexivity.
  - intros other pw Hne. apply authenticate_app_other. simpl. congruence.
Qed.

Lemma added_employee_authenticates_witness :
  fst (fst (add_employee (" E1" ++ NO_BREAK_SPACE) "Asha" "pw" [])) = true
  /\ authenticate_employee "E1" "pw"
       (snd (add_employee (" E1" ++ NO_BREAK_SPACE) "Asha" "pw" []))
     = Some {| Emp.Employee_ID := "E1"; Emp.Name := "Asha";
               Emp.Password_Hash := hash_password "pw" |}.
Proof.
  split; [reflexivity |].
  exact (proj1 (added_employee_authenticates (" E1" ++ NO_BREAK_SPACE) "Asha" "pw" [] eq_refl)).
Defined.

(** X6. [authenticate_employee] returns an employee only for an ID that is
    the ID of a document of the collection, character for character, and a
    password whose hash is the stored one.  It does not strip what was
    typed: an ID with whitespace at either end, which [add_employee] would
    accept and strip, never authenticates; nor does the empty ID. *)
Theorem authenticate_employee_sound :
  forall employees, reachable_employees employees ->
    forall emp_id pw,
      (forall e, authenticate_employee emp_id pw employees = Some e ->
         In e employees /\ Emp.Employee_ID e = emp_id
         /\ Emp.Password_Hash e = hash_password pw
         /\ strip emp_id = emp_id /\ emp_id <> EmptyString)
      /\ (strip emp_id <> emp_id -> authenticate_employee emp_id pw employees = None).
Proof.
  intros employees Hr emp_id pw.
  assert (Hsound : forall e, authenticate_employee emp_id pw employees = Some e ->
            In e employees /\ Emp.Employee_ID e = emp_id
            /\ Emp.Password_Hash e = hash_password pw
            /\ strip emp_id = emp_id /\ emp_id <> EmptyString).
  { intros e. unfold authenticate_employee.
    destruct (find_one_employee emp_id employees) as [emp |] eqn:Hf; [| discriminate].
    destruct (String.eqb (hash_password pw) (Emp.Password_Hash emp)) eqn:Hh; [| discriminate].
    intros [= <-]. apply String.eqb_eq in Hh.
    apply find_employee_In in Hf as [Hin Hid].
    destruct (proj2 (reachable_employees_invariant employees Hr) emp Hin)
      as (Hne & Hs & _).
    rewrite Hid in Hne, Hs. auto. }
  split; [exact Hsound |].
  intros Hs. destruct (authenticate_employee emp_id pw employees) as [e |] eqn:Ha;
    [| reflexivity].
  destruct (Hsound e eq_refl) as (_ & _ & _ & H & _). contradiction.
Qed.

Lemma remove_employee_cases (emp_id : string) (employees : list Emp.doc) :
  (find_one_employee emp_id employees = None
   /\ remove_employee emp_id employees
      = ((false, "Employee ID not found."%string), employees))
  \/ (exists e, find_one_employee emp_id employees = Some e
      /\ remove_employee emp_id employees
         = ((true, ("Removed employee: " ++ emp_id)%string),
            delete_first (fun e => String.eqb (Emp.Employee_ID e) emp_id) employees)).
Proof.
  unfold remove_employee.
  destruct (find_one_employee emp_id employees) as [e |]; [right; eauto | left; auto].
Qed.

(** X7. [remove_employee] on an ID that is not in the collection answers
    "Employee ID not found." and changes nothing.  On an ID that is, it
    removes the document: afterwards that ID authenticates with no
    password, a second removal answers "Employee ID not found.", and every
    other ID authenticates as before. *)
Theorem removed_employee_cannot_authenticate :
  forall employees, reachable_employees employees ->
    forall emp_id,
      let answer := fst (remove_employee emp_id employees) in
      let employees' := snd (remove_employee emp_id employees) in
      (find_one_employee emp_id employees = None ->
       answer = (false, "Employee ID not found."%string) /\ employees' = employees)
      /\ (find_one_employee emp_id employees <> None ->
          fst answer = true
          /\ (forall pw, authenticate_employee emp_id pw employees' = None)
          /\ fst (remove_employee emp_id employees')
             = (false, "Employee ID not found."%string)
          /\ (forall other pw, other <> emp_id ->
                authenticate_employee other pw employees'
                = authenticate_employee other pw employees)).
Proof.
  intros employees Hr emp_id answer employees'. subst answer employees'.
  pose proof (proj1 (reachable_employees_invariant employees Hr)) as Hnd.
  destruct (remove_employee_cases emp_id employees) as [[Hf E] | (e & Hf & E)]; rewrite E; simpl.
  - split; [auto | congruence].
  - split; [congruence |]. intros _.
    pose proof (find_employee_deleted emp_id employees Hnd) as Hdel.
    repeat split.
    + intros pw. unfold authenticate_employee. rewrite Hdel. reflexivity.
    + unfold remove_employee. rewrite Hdel. reflexivity.
    + intros other pw Hne. unfold authenticate_employee.
      rewrite (find_employee_other_deleted emp_id other employees Hne). reflexivity.
Qed.

Lemma authenticate_employee_sound_witness :
  reachable_employees (snd (add_employee " E1 " "Asha" "pw" []))
  /\ strip " E1 " <> " E1 "%string
  /\ authenticate_employee " E1 " "pw" (snd (add_employee " E1 " "Asha" "pw" [])) = None.
Proof.
  assert (Hr : reachable_employees (snd (add_employee " E1 " "Asha" "pw" []))).
  { exact (employees_step (AddEmployee " E1 " "Asha" "pw") [] employees_empty). }
  assert (Hs : strip " E1 " <> " E1 "%string) by discriminate.
  split; [exact Hr | split; [exact Hs |]].
  exact (proj2 (authenticate_employee_sound _ Hr " E1 "%string "pw"%string) Hs).
Defined.

Lemma removed_employee_cannot_authenticate_witness :
  let employees := snd (add_employee "E1" "Asha" "pw" []) in
  reachable_employees employees
  /\ find_one_employee "E1" employees <> None
  /\ authenticate_employee "E1" "pw" (snd (remove_employee "E1" employees)) = None.
Proof.
  assert (Hr : reachable_employees (snd (add_employee "E1" "Asha" "pw" []))).
  { exact (employees_step (AddEmployee "E1" "Asha" "pw") [] employees_empty). }
  assert (Hf : find_one_employee "E1" (snd (add_employee "E1" "Asha" "pw" [])) <> None)
    by discriminate.
  split; [exact Hr | split; [exact Hf |]].
  exact (proj1 (proj2 (proj2 (removed_employee_cannot_authenticate _ Hr "E1"%string) Hf))
           "pw"%string).
Defined.

(* ================================================================== *)
(** ** The employee's page *)

Lemma filter_map_comm {A B : Type} (f : A -> B) (p : B -> bool) (l : list A) :
  filter p (map f l) = map f (filter (fun x => p (f x)) l).
Proof.
  induction l as [| x r IH]; simpl; [reflexivity |].
  destruct (p (f x)); simpl; rewrite IH; reflexivity.
Qed.

Lemma filter_filter {A : Type} (p q : A -> bool) (l : list A) :
  filter q (filter p l) = filter (fun x => p x && q x) l.
Proof.
  induction l as [| x r IH]; simpl; [reflexivity |].
  destruct (p x); simpl; [destruct (q x); simpl |]; rewrite IH; reflexivity.
Qed.

Lemma find_head_filter {A : Type} (p : A -> bool) (l : list A) :
  find p l = hd_error (filter p l).
Proof.
  induction l as [| x r IH]; simpl; [reflexivity |].
  destruct (p x); [reflexivity | exact IH].
Qed.

Section DashboardFacts.

Context {pillow : Pillow} {geopy : Geopy} {date_text : DateText}.

(** Every record's date is a day at midnight. *)
Lemma reachable_dates_at_midnight (s : db) :
  reachable s ->
  forall r, In r (attendance_collection s) -> Date r = combine_min (dt_date (Date r)).
Proof.
  induction 1 as [| o s Hr IH]; intros r Hin; [destruct Hin |].
  destruct (step_effect_of o s) as
    [Heq _ _ | ? ? ? ? ? ? _ _ _ _ Hs' | ? ? ? ? ? ? ? ? ? _ _ _ _ _ _ _ _ Hs'
     | ? ? ? ? ? _ _ _ Hs'].
  - rewrite Heq in Hin. auto.
  - rewrite Hs' in Hin. simpl in Hin. apply in_app_or in Hin as [Hin | [<- | []]]; [auto |].
    reflexivity.
  - rewrite Hs' in Hin. simpl in Hin.
    apply update_first_In in Hin as [Hin | (x & Hx & _ & ->)]; [auto |]. apply (IH x Hx).
  - rewrite Hs' in Hin. simpl in Hin.
    apply update_first_In in Hin as [Hin | (x & Hx & _ & ->)]; [auto |]. apply (IH x Hx).
Qed.

(** At most one record for an employee and a day. *)
Lemma reachable_unique_key (s : db) :
  reachable s ->
  forall emp_id query_date,
    (List.length (filter (matches_key emp_id query_date) (attendance_collection s)) <= 1)%nat.
Proof.
  induction 1 as [| o s Hr IH]; intros e q; [simpl; lia |].
  destruct (step_effect_of o s) as
    [Heq _ _ | e0 n d ph c png _ Hf _ _ Hs' | ? ? ? ? ? ? ? ? ? _ _ _ _ _ _ _ _ Hs'
     | ? ? ? ? ? _ _ _ Hs']; try rewrite Hs'; simpl.
  - rewrite Heq. apply IH.
  - rewrite filter_app, length_app. simpl.
    destruct (matches_key e q
                (with_id (next_oid s)
                   (new_entry e0 n (combine_min d)
                      (strftime_I_M_p (get_current_ist_time c)) png))) eqn:Hk; simpl.
    + apply matches_key_eq in Hk as [He Hq]. simpl in He, Hq. subst e q.
      unfold find_one in Hf. rewrite (find_none_filter _ _ Hf). simpl. lia.
    + specialize (IH e q). lia.
  - rewrite update_first_filter_length by (intros x; reflexivity). apply IH.
  - rewrite update_first_filter_length by (intros x; reflexivity). apply IH.
Qed.

(** The rows for today of the employee's data frame are the records that
    [find_one] looks for. *)
Lemma today_entries_are_key_matches (emp_id : string) (current_date : Z) (s : db) :
  emp_id <> EmptyString ->
  (forall r, In r (attendance_collection s) -> Date r = combine_min (dt_date (Date r))) ->
  filter (fun row => String.eqb (row_Date row) (strftime_Y_m_d current_date))
         (load_attendance (Some emp_id) s)
  = map (fun entry => {| row_Date := strftime_Y_m_d (dt_date (Date entry));
                         row_entry := entry |})
        (filter (matches_key emp_id (combine_min current_date)) (attendance_collection s)).
Proof.
  intros Hne Hmid. unfold load_attendance.
  destruct (String.eqb emp_id "") eqn:He; [apply String.eqb_eq in He; contradiction |].
  rewrite filter_map_comm, filter_filter. f_equal.
  apply filter_ext_in. intros d Hin. simpl. unfold matches_key. f_equal.
  rewrite (Hmid d Hin). simpl.
  destruct (String.eqb (strftime_Y_m_d (dt_date (Date d))) (strftime_Y_m_d current_date)) eqn:Ht.
  - apply String.eqb_eq, strftime_Y_m_d_inj in Ht. rewrite Ht.
    unfold datetime_eqb, combine_min. simpl. rewrite Z.eqb_refl. reflexivity.
  - unfold datetime_eqb, combine_min. simpl.
    destruct (Z.eqb_spec (dt_date (Date d)) current_date) as [E | E]; [| reflexivity].
    rewrite E, String.eqb_refl in Ht. discriminate.
Qed.

(** In a reachable database, what [attendance_logic] reads off the data
    frame is what [find_one] returns for the employee and the day. *)
Lemma latest_entry_is_found (emp_id : string) (current_date : Z) (s : db) :
  emp_id <> EmptyString -> reachable s ->
  option_map row_entry
    (last_row (filter (fun row => String.eqb (row_Date row) (strftime_Y_m_d current_date))
                      (load_attendance (Some emp_id) s)))
  = find_one emp_id (combine_min current_date) s.
Proof.
  intros Hne Hr.
  rewrite (today_entries_are_key_matches emp_id current_date s Hne
             (reachable_dates_at_midnight s Hr)).
  unfold find_one. rewrite find_head_filter.
  pose proof (reachable_unique_key s Hr emp_id (combine_min current_date)) as Hu.
  destruct (filter (matches_key emp_id (combine_min current_date)) (attendance_collection s))
    as [| x [| y l]]; simpl in Hu |- *; [reflexivity | reflexivity | lia].
Qed.

(** What [attendance_logic] shows and does, by the state of the record. *)
Lemma attendance_logic_cases (emp : string * string) (current_date : Z)
    (img_file : option bytes) (button : bool) (clock : Z) (s : db) :
  fst emp <> EmptyString -> reachable s ->
  let out := attendance_logic emp current_date img_file button clock s in
  (find_one (fst emp) (combine_min current_date) s = None
   /\ ((out = (Returned (ArrivalLogging, None), s))
       \/ (exists s', out = (Returned (ArrivalLogging, Some ArrivalLogged), s'))
       \/ (exists e, out = (Raised e, s))))
  \/ (exists entry, find_one (fst emp) (combine_min current_date) s = Some entry
      /\ Leaving_Time entry = None
      /\ ((out = (Returned (LeaveLogging, None), s))
          \/ (exists s', out = (Returned (LeaveLogging, Some LeavingLogged), s'))
          \/ (exists e, out = (Raised e, s))))
  \/ (exists entry, find_one (fst emp) (combine_min current_date) s = Some entry
      /\ Leaving_Time entry <> None
      /\ out = (Returned (AllDone, None), s)).
Proof.
  intros Hne Hr out. subst out. unfold attendance_logic.
  pose proof (latest_entry_is_found (fst emp) current_date s Hne Hr) as Hl.
  destruct (last_row _) as [latest |]; simpl in Hl.
  - right. destruct (Leaving_Time (row_entry latest)) eqn:Hlt.
    + right. exists (row_entry latest). repeat split; auto. rewrite Hlt. discriminate.
    + left. exists (row_entry latest). split; [auto | split; [exact Hlt |]].
      destruct img_file as [photo |]; [| auto]. destruct button; [| auto].
      destruct (log_leaving_cases (fst emp) current_date photo clock s) as
        [[Hf _] | [(e' & Hf & Hl' & _) | [(e' & ex & _ & _ & E) | (e' & set & _ & _ & _ & E)]]].
      * congruence.
      * rewrite <- Hl in Hf. injection Hf as <-. contradiction.
      * rewrite E. right. right. eauto.
      * rewrite E. right. left. eauto.
  - left. split; [auto |].
    destruct img_file as [photo |]; [| auto]. destruct button; [| auto].
    destruct (log_arrival_cases (fst emp) (snd emp) current_date photo clock s) as
      [(r & Hf & _) | [(_ & _ & E) | (png & _ & _ & E)]].
    + congruence.
    + rewrite E. right. right. eauto.
    + rewrite E. right. left. eauto.
Qed.

Lemma get_location_restriction_attendance (s : db) :
  attendance_collection (snd (get_location_restriction s)) = attendance_collection s.
Proof.
  unfold get_location_restriction.
  destruct (find_one_setting LOCATION_RESTRICTION s); reflexivity.
Qed.

Lemma get_location_restriction_reachable (s : db) :
  reachable s -> reachable (snd (get_location_restriction s)).
Proof.
  intros Hr. pose proof (reachable_step GetLocationRestriction s Hr) as H.
  simpl in H. destruct (get_location_restriction s). exact H.
Qed.

(** X8. In a reachable database, for a session whose employee ID is not
    empty, the page agrees with the logging functions: it shows the arrival
    panel only when no record exists for the employee and the day, the
    leaving panel only when the record has no leaving time, and "All done"
    only when it has one; and when it calls [log_arrival] or [log_leaving],
    the answer is never one of their failures. *)
Theorem dashboard_agrees_with_logging :
  forall emp current_date location img_file button clock s,
    fst emp <> EmptyString -> reachable s ->
    forall p answer s',
      employee_dashboard emp current_date location img_file button clock s
      = (Returned (p, answer), s') ->
      (p = ArrivalLogging -> find_one (fst emp) (combine_min current_date) s = None)
      /\ (p = LeaveLogging ->
          exists entry, find_one (fst emp) (combine_min current_date) s = Some entry
                        /\ Leaving_Time entry = None)
      /\ (p = AllDone ->
          exists entry, find_one (fst emp) (combine_min current_date) s = Some entry
                        /\ Leaving_Time entry <> None)
      /\ (forall r, answer = Some r -> fst r = true).
Proof.
  intros emp d loc img button clock s Hne Hr p answer s' Hd.
  unfold employee_dashboard in Hd.
  pose proof (get_location_restriction_attendance s) as Hatt.
  pose proof (get_location_restriction_reachable s Hr) as Hr1.
  destruct (get_location_restriction s) as [restriction s1]. simpl in Hatt, Hr1.
  assert (Hfind : find_one (fst emp) (combine_min d) s1 = find_one (fst emp) (combine_min d) s)
    by (unfold find_one; rewrite Hatt; reflexivity).
  assert (Hlogic : attendance_logic emp d img button clock s1 = (Returned (p, answer), s') ->
            (p = ArrivalLogging -> find_one (fst emp) (combine_min d) s = None)
            /\ (p = LeaveLogging ->
                exists entry, find_one (fst emp) (combine_min d) s = Some entry
                              /\ Leaving_Time entry = None)
            /\ (p = AllDone ->
                exists entry, find_one (fst emp) (combine_min d) s = Some entry
                              /\ Leaving_Time entry <> None)
            /\ (forall r, answer = Some r -> fst r = true)).
  { intros Hl. rewrite <- Hfind.
    destruct (attendance_logic_cases emp d img button clock s1 Hne Hr1) as
      [[Hf [E | [[s2 E] | [e E]]]]
       | [(entry & Hf & Hlt & [E | [[s2 E] | [e E]]]) | (entry & Hf & Hlt & E)]];
      rewrite E in Hl; try discriminate; injection Hl as <- <- <-;
      repeat split; try discriminate; eauto.
    all: try (intros r [= <-]; reflexivity). }
  destruct restriction; [| auto].
  destruct loc as [[lat lon] |].
  - destruct (is_within_allowed_location lat lon) as [[|] |]; [auto | | discriminate].
    injection Hd as <- <- <-. repeat split; discriminate.
  - injection Hd as <- <- <-. repeat split; discriminate.
Qed.

End DashboardFacts.

Lemma dashboard_agrees_with_logging_witness :
  @reachable raw_pillow arrived_db
  /\ exists entry, find_one "E1" (combine_min day0) arrived_db = Some entry
                   /\ Leaving_Time entry = None.
Proof.
  assert (Hr : @reachable raw_pillow arrived_db).
  { exact (@reachable_step raw_pillow
             (LogArrival "E1" "Asha" day0 JPEG_SOI clock_0900) empty_db
             (@reachable_empty raw_pillow)). }
  split; [exact Hr |].
  assert (Hne : fst ("E1"%string, "Asha"%string) <> EmptyString) by discriminate.
  exact (proj1 (proj2
           (@dashboard_agrees_with_logging raw_pillow near_geopy ordinal_text
              ("E1"%string, "Asha"%string) day0 (Some ALLOWED_LOCATION) None false
              clock_1730 arrived_db Hne Hr LeaveLogging None
              (insert_one_setting LOCATION_RESTRICTION true arrived_db) eq_refl))
         eq_refl).
Defined.

(** ** The geofence *)




Section GateFacts.

Context {pillow : Pillow} {geopy : Geopy} {date_text : DateText}.

Lemma run_keeps_setting (ops : list op) :
  forall s d,
    forallb keeps_setting ops = true ->
    find_one_setting LOCATION_RESTRICTION s = Some d ->
    find_one_setting LOCATION_RESTRICTION (snd (run ops s)) = Some d.
Proof.
  induction ops as [| o rest IH]; intros s d Hk Hf; [exact Hf |].
  simpl in Hk. apply andb_true_iff in Hk as [Ho Hrest].
  destruct (step_keeps_setting o s d Ho Hf) as [Hf' _].
  simpl. destruct (step o s) as [r s1]. simpl in Hf'.
  specialize (IH s1 d Hrest Hf'). destruct (run rest s1) as [tr s2]. exact IH.
Qed.

Lemma attendance_logic_panels (emp : string * string) (current_date : Z)
    (img_file : option bytes) (button : bool) (clock : Z) (s : db) :
  forall p answer s',
    attendance_logic emp current_date img_file button clock s = (Returned (p, answer), s') ->
    p <> AwaitingLocation /\ p <> OutOfAllowedLocation.
Proof.
  intros p answer s'. unfold attendance_logic.
  destruct (last_row _) as [latest |].
  - destruct (Leaving_Time (row_entry latest)).
    + intros [= <- <- <-]. split; discriminate.
    + destruct img_file as [photo |]; [destruct button |].
      * destruct (log_leaving (fst emp) current_date photo clock s) as [[r | e] s2];
          [| discriminate]. intros [= <- <- <-]. split; discriminate.
      * intros [= <- <- <-]. split; discriminate.
      * intros [= <- <- <-]. split; discriminate.
  - destruct img_file as [photo |]; [destruct button |].
    + destruct (log_arrival (fst emp) (snd emp) current_date photo clock s) as [[r | e] s2];
        [| discriminate]. intros [= <- <- <-]. split; discriminate.
    + intros [= <- <- <-]. split; discriminate.
    + intros [= <- <- <-]. split; discriminate.
Qed.

(** X9. Once the administrator has switched the location restriction off,
    and until it is set again, the employee's page does not depend on the
    device's location: with any location or none it shows the same panel,
    makes the same logging call and leaves the same database, and it shows
    neither "Waiting for device location" nor "Out of allowed location". *)
Theorem restriction_off_ignores_location :
  forall ops s0,
    forallb keeps_setting ops = true ->
    let s := snd (run ops (set_location_restriction false s0)) in
    forall emp current_date img_file button clock location location',
      employee_dashboard emp current_date location img_file button clock s
      = employee_dashboard emp current_date location' img_file button clock s
      /\ forall p answer s',
           employee_dashboard emp current_date location img_file button clock s
           = (Returned (p, answer), s') ->
           p <> AwaitingLocation /\ p <> OutOfAllowedLocation.
Proof.
  intros ops s0 Hk s emp d img button clock loc loc'.
  destruct (set_then_find false s0) as (doc & Hf & Hv).
  pose proof (run_keeps_setting ops _ doc Hk Hf) as Hs. fold s in Hs.
  unfold employee_dashboard, get_location_restriction. rewrite Hs, Hv.
  split; [reflexivity | apply attendance_logic_panels].
Qed.

(** X10. With the restriction on, no attendance is logged from outside: if
    a run of the employee's page calls a logging function, or changes the
    attendance collection, then the stored restriction is off, or the
    device gave a location whose geodesic distance to the site is at most
    1.0 km.  In a database where the setting was never written the
    restriction is on: with no location the page shows "Waiting for device
    location" and the setting is stored as [True]. *)
Theorem logging_needs_admission :
  forall emp current_date location img_file button clock s,
    let out := employee_dashboard emp current_date location img_file button clock s in
    ((attendance_collection (snd out) <> attendance_collection s
      \/ exists p r, fst out = Returned (p, Some r)) ->
     (exists d, find_one_setting LOCATION_RESTRICTION s = Some d /\ value d = false)
     \/ (exists lat lon distance,
           location = Some (lat, lon)
           /\ geodesic_kilometers (lat, lon) ALLOWED_LOCATION = Some distance
           /\ PrimFloat.leb distance MAX_DISTANCE_KM = true))
    /\ (find_one_setting LOCATION_RESTRICTION s = None -> location = None ->
        out = (Returned (AwaitingLocation, None),
               insert_one_setting LOCATION_RESTRICTION true s)).
Proof.
  intros emp d loc img button clock s out. subst out.
  unfold employee_dashboard.
  pose proof (get_location_restriction_attendance s) as Hatt.
  unfold get_location_restriction in *.
  destruct (find_one_setting LOCATION_RESTRICTION s) as [doc |] eqn:Hf; simpl in *.
  - split; [| discriminate].
    destruct (value doc) eqn:Hv; [| intros _; left; eauto].
    destruct loc as [[lat lon] |]; simpl.
    + unfold is_within_allowed_location.
      destruct (geodesic_kilometers (lat, lon) ALLOWED_LOCATION) as [distance |] eqn:Hg; simpl.
      * destruct (PrimFloat.leb distance MAX_DISTANCE_KM) eqn:Hle; simpl.
        -- intros _. right. exists lat, lon, distance. auto.
        -- intros [H | (p & r & H)]; [contradiction | discriminate].
      * intros [H | (p & r & H)]; [contradiction | discriminate].
    + intros [H | (p & r & H)]; [contradiction | discriminate].
  - split; [| intros _ ->; reflexivity].
    destruct loc as [[lat lon] |]; simpl.
    + unfold is_within_allowed_location.
      destruct (geodesic_kilometers (lat, lon) ALLOWED_LOCATION) as [distance |] eqn:Hg; simpl.
      * destruct (PrimFloat.leb distance MAX_DISTANCE_KM) eqn:Hle; simpl.
        -- intros _. right. exists lat, lon, distance. auto.
        -- intros [H | (p & r & H)]; [contradiction | discriminate].
      * intros [H | (p & r & H)]; [contradiction | discriminate].
    + intros [H | (p & r & H)]; [contradiction | discriminate].
Qed.

End GateFacts.

Lemma restriction_off_ignores_location_witness :
  forallb keeps_setting [LogArrival "E1" "Asha" day0 JPEG_SOI clock_0900] = true
  /\ @employee_dashboard raw_pillow near_geopy ordinal_text ("E1", "Asha")%string day0
       None (Some JPEG_SOI) true clock_1730
       (snd (@run raw_pillow [LogArrival "E1" "Asha" day0 JPEG_SOI clock_0900]
               (set_location_restriction false empty_db)))
     = @employee_dashboard raw_pillow near_geopy ordinal_text ("E1", "Asha")%string day0
         (Some ALLOWED_LOCATION) (Some JPEG_SOI) true clock_1730
         (snd (@run raw_pillow [LogArrival "E1" "Asha" day0 JPEG_SOI clock_0900]
                 (set_location_restriction false empty_db))).
Proof.
  split; [reflexivity |].
  exact (proj1 (@restriction_off_ignores_location raw_pillow near_geopy ordinal_text
                  [LogArrival "E1" "Asha" day0 JPEG_SOI clock_0900] empty_db eq_refl
                  ("E1", "Asha")%string day0 (Some JPEG_SOI) true clock_1730
                  None (Some ALLOWED_LOCATION))).
Defined.

Lemma logging_needs_admission_witness :
  find_one_setting LOCATION_RESTRICTION empty_db = None
  /\ @employee_dashboard raw_pillow near_geopy ordinal_text ("E1", "Asha")%string day0
       None (Some JPEG_SOI) true clock_0900 empty_db
     = (Returned (AwaitingLocation, None),
        insert_one_setting LOCATION_RESTRICTION true empty_db).
Proof.
  split; [reflexivity |].
  exact (proj2 (@logging_needs_admission raw_pillow near_geopy ordinal_text
                  ("E1", "Asha")%string day0 None (Some JPEG_SOI) true clock_0900 empty_db)
           eq_refl eq_refl).
Defined.

(* ================================================================== *)
(** ** Routing and logins *)

Lemma equals_env_true (typed : string) (env : option string) :
  equals_env typed env = true -> env = Some typed.
Proof.
  destruct env as [v |]; simpl; [| discriminate].
  intros H. apply String.eqb_eq in H. congruence.
Qed.

Section RoutingFacts.

Variables ADMIN_USERNAME ADMIN_PASSWORD : option string.

Local Abbreviation main_pass := (main_pass ADMIN_USERNAME ADMIN_PASSWORD).
Local Abbreviation main := (main ADMIN_USERNAME ADMIN_PASSWORD).
Local Abbreviation browse := (browse ADMIN_USERNAME ADMIN_PASSWORD).
Local Abbreviation admin_login := (admin_login ADMIN_USERNAME ADMIN_PASSWORD).

Lemma main_pass_admin (c : controls) (employees : list Emp.doc) (ss ss' : session_state)
    (v : view) :
  main_pass c employees ss = (ss', v) ->
  authenticated ss' = Some true \/ v = AdminPage ->
  authenticated ss = Some true \/ admin_login c.
Proof.
  unfold main_pass, employee_login, admin_login.
  destruct (page_choice c).
  - destruct (employee ss) as [emp |].
    + destruct (logout_clicked c); intros [= <- <-]; simpl; intros [H | H];
        auto; discriminate.
    + destruct (login_clicked c);
        [destruct (authenticate_employee (emp_id_input c) (pw_input c) employees) |];
        intros [= <- <-]; simpl; intros [H | H]; auto; discriminate.
  - destruct (authenticated ss) as [[|] |] eqn:Ha; simpl; rewrite ?Ha; simpl.
    + intros _ _. left. reflexivity.
    + destruct (admin_login_clicked c); simpl.
      * destruct (equals_env (username_input c) ADMIN_USERNAME) eqn:Hu; simpl.
        -- destruct (equals_env (password_input c) ADMIN_PASSWORD) eqn:Hp; simpl.
           ++ intros _ _. right. auto using equals_env_true.
           ++ intros [= <- <-]; simpl; intros [H | H]; [congruence | discriminate].
        -- intros [= <- <-]; simpl; intros [H | H]; [congruence | discriminate].
      * intros [= <- <-]; simpl; intros [H | H]; [congruence | discriminate].
    + destruct (admin_login_clicked c); simpl.
      * destruct (equals_env (username_input c) ADMIN_USERNAME) eqn:Hu; simpl.
        -- destruct (equals_env (password_input c) ADMIN_PASSWORD) eqn:Hp; simpl.
           ++ intros _ _. right. auto using equals_env_true.
           ++ intros [= <- <-]; simpl; intros [H | H]; discriminate.
        -- intros [= <- <-]; simpl; intros [H | H]; discriminate.
      * intros [= <- <-]; simpl; intros [H | H]; discriminate.
Qed.

Lemma main_pass_employee (c : controls) (employees : list Emp.doc) (ss ss' : session_state)
    (v : view) (emp : string * string) :
  main_pass c employees ss = (ss', v) ->
  employee ss' = Some emp \/ v = Dashboard emp ->
  employee ss = Some emp \/ employee_login_of emp c employees.
Proof.
  unfold main_pass, employee_login, employee_login_of.
  destruct (page_choice c).
  - destruct (employee ss) as [emp0 |] eqn:He.
    + destruct (logout_clicked c); intros [= <- <-]; simpl; intros [H | H];
        try discriminate.
      * left. congruence.
      * injection H as <-. left. reflexivity.
    + destruct (login_clicked c).
      * destruct (authenticate_employee (emp_id_input c) (pw_input c) employees)
          as [doc |] eqn:Hauth;
          intros [= <- <-]; simpl; intros [H | H]; try discriminate; try congruence.
        injection H as <-. right. eauto.
      * intros [= <- <-]; simpl; intros [H | H]; [congruence | discriminate].
  - destruct (authenticated ss) as [[|] |] eqn:Ha; simpl; rewrite ?Ha; simpl;
      repeat match goal with
        | |- context [if ?b then _ else _] => destruct b; simpl
        end;
      intros [= <- <-]; simpl; intros [H | H]; auto; discriminate.
Qed.

Lemma released_no_click (c : controls) :
  login_clicked (released c) = false /\ admin_login_clicked (released c) = false.
Proof. split; reflexivity. Qed.

Lemma main_admin (c : controls) (employees : list Emp.doc) (ss ss' : session_state)
    (v : view) :
  main c employees ss = (ss', v) ->
  authenticated ss' = Some true \/ v = AdminPage ->
  authenticated ss = Some true \/ admin_login c.
Proof.
  unfold main. destruct (main_pass c employees ss) as [ss1 v1] eqn:H1.
  assert (Hdirect : (ss1, v1) = (ss', v) ->
            authenticated ss' = Some true \/ v = AdminPage ->
            authenticated ss = Some true \/ admin_login c).
  { intros [= <- <-]. apply (main_pass_admin _ _ _ _ _ H1). }
  destruct v1; try exact Hdirect.
  intros H2 Hv.
  destruct (main_pass_admin _ _ _ _ _ H2 Hv) as [Ha | [Hc _]];
    [| rewrite (proj2 (released_no_click c)) in Hc; discriminate].
  apply (main_pass_admin _ _ _ _ _ H1). left. exact Ha.
Qed.

Lemma main_employee (c : controls) (employees : list Emp.doc) (ss ss' : session_state)
    (v : view) (emp : string * string) :
  main c employees ss = (ss', v) ->
  employee ss' = Some emp \/ v = Dashboard emp ->
  employee ss = Some emp \/ employee_login_of emp c employees.
Proof.
  unfold main. destruct (main_pass c employees ss) as [ss1 v1] eqn:H1.
  assert (Hdirect : (ss1, v1) = (ss', v) ->
            employee ss' = Some emp \/ v = Dashboard emp ->
            employee ss = Some emp \/ employee_login_of emp c employees).
  { intros [= <- <-]. apply (main_pass_employee _ _ _ _ _ _ H1). }
  destruct v1; try exact Hdirect.
  intros H2 Hv.
  destruct (main_pass_employee _ _ _ _ _ _ H2 Hv) as [Ha | [Hc _]];
    [| rewrite (proj1 (released_no_click c)) in Hc; discriminate].
  apply (main_pass_employee _ _ _ _ _ _ H1). left. exact Ha.
Qed.

Lemma browse_cons (c : controls) (employees : list Emp.doc)
    (rest : list (controls * list Emp.doc)) (ss : session_state) :
  fst (browse ((c, employees) :: rest) ss)
  = (c, employees, snd (main c employees ss))
      :: fst (browse rest (fst (main c employees ss))).
Proof.
  simpl. destruct (main c employees ss) as [ss1 v]. simpl.
  destruct (browse rest ss1) as [tr ss2]. reflexivity.
Qed.

Lemma browse_admin (events : list (controls * list Emp.doc)) :
  forall ss pre post c employees,
    fst (browse events ss) = pre ++ (c, employees, AdminPage) :: post ->
    authenticated ss = Some true
    \/ exists c' employees' v',
         In (c', employees', v') (pre ++ [(c, employees, AdminPage)]) /\ admin_login c'.
Proof.
  induction events as [| [c0 e0] rest IH]; intros ss pre post c employees Hb.
  - simpl in Hb. destruct pre; discriminate.
  - rewrite browse_cons in Hb.
    destruct (main c0 e0 ss) as [ss1 v1] eqn:Hm. simpl in Hb.
    destruct pre as [| x pre']; simpl in Hb.
    + injection Hb as -> -> -> _.
      destruct (main_admin _ _ _ _ _ Hm (or_intror eq_refl)) as [H | H]; [left; exact H |].
      right. exists c, employees, AdminPage. split; [left; reflexivity | exact H].
    + injection Hb as <- Hrest.
      destruct (IH ss1 pre' post c employees Hrest) as [H | (c' & e' & v' & Hin & Hl)].
      * destruct (main_admin _ _ _ _ _ Hm (or_introl H)) as [H' | H']; [left; exact H' |].
        right. exists c0, e0, v1. split; [left; reflexivity | exact H'].
      * right. exists c', e', v'. split; [right; exact Hin | exact Hl].
Qed.

Lemma browse_employee (events : list (controls * list Emp.doc)) :
  forall ss pre post c employees emp,
    fst (browse events ss) = pre ++ (c, employees, Dashboard emp) :: post ->
    employee ss = Some emp
    \/ exists c' employees' v',
         In (c', employees', v') (pre ++ [(c, employees, Dashboard emp)])
         /\ employee_login_of emp c' employees'.
Proof.
  induction events as [| [c0 e0] rest IH]; intros ss pre post c employees emp Hb.
  - simpl in Hb. destruct pre; discriminate.
  - rewrite browse_cons in Hb.
    destruct (main c0 e0 ss) as [ss1 v1] eqn:Hm. simpl in Hb.
    destruct pre as [| x pre']; simpl in Hb.
    + injection Hb as -> -> -> _.
      destruct (main_employee _ _ _ _ _ emp Hm (or_intror eq_refl)) as [H | H];
        [left; exact H |].
      right. exists c, employees, (Dashboard emp). split; [left; reflexivity | exact H].
    + injection Hb as <- Hrest.
      destruct (IH ss1 pre' post c employees emp Hrest) as [H | (c' & e' & v' & Hin & Hl)].
      * destruct (main_employee _ _ _ _ _ emp Hm (or_introl H)) as [H' | H'];
          [left; exact H' |].
        right. exists c0, e0, v1. split; [left; reflexivity | exact H'].
      * right. exists c', e', v'. split; [right; exact Hin | exact Hl].
Qed.

(** X11. In a browser session that starts with a fresh session state,
    [admin_page()] runs only in or after an interaction that was a click on
    "Admin Login" with the username and the password of the environment
    typed; when either variable is not set, it never runs. *)
Theorem admin_page_needs_login :
  forall events pre post c employees,
    fst (browse events fresh_session) = pre ++ (c, employees, AdminPage) :: post ->
    (exists c' employees' v',
        In (c', employees', v') (pre ++ [(c, employees, AdminPage)])
        /\ admin_login_clicked c' = true
        /\ ADMIN_USERNAME = Some (username_input c')
        /\ ADMIN_PASSWORD = Some (password_input c'))
    /\ ADMIN_USERNAME <> None /\ ADMIN_PASSWORD <> None.
Proof.
  intros events pre post c employees Hb.
  destruct (browse_admin events _ _ _ _ _ Hb) as [H | (c' & e' & v' & Hin & Hc & Hu & Hp)];
    [discriminate |].
  split; [exists c', e', v'; auto | split; congruence].
Qed.

(** X12. In a browser session that starts with a fresh session state,
    [employee_dashboard()] runs for an employee only in or after an
    interaction that was a click on "Login" with an ID and a password that
    [authenticate_employee] accepted in the collection as it was then; the
    session's employee is the ID as typed and the name of the document
    found. *)
Theorem dashboard_needs_login :
  forall events pre post c employees emp,
    fst (browse events fresh_session) = pre ++ (c, employees, Dashboard emp) :: post ->
    exists c' employees' v' doc,
      In (c', employees', v') (pre ++ [(c, employees, Dashboard emp)])
      /\ login_clicked c' = true
      /\ authenticate_employee (emp_id_input c') (pw_input c') employees' = Some doc
      /\ emp = (emp_id_input c', Emp.Name doc).
Proof.
  intros events pre post c employees emp Hb.
  destruct (browse_employee events _ _ _ _ _ _ Hb)
    as [H | (c' & e' & v' & Hin & Hc & doc & Ha & He)]; [discriminate |].
  exists c', e', v', doc. auto.
Qed.

End RoutingFacts.

Lemma admin_page_needs_login_witness :
  fst (browse (Some "admin"%string) (Some "secret"%string)
         [(admin_login_click, @nil Emp.doc)] fresh_session)
  = [] ++ (admin_login_click, @nil Emp.doc, AdminPage) :: []
  /\ exists c' employees' v',
       In (c', employees', v') ([] ++ [(admin_login_click, @nil Emp.doc, AdminPage)])
       /\ admin_login_clicked c' = true
       /\ Some "admin"%string = Some (username_input c')
       /\ Some "secret"%string = Some (password_input c').
Proof.
  split; [reflexivity |].
  exact (proj1 (admin_page_needs_login (Some "admin"%string) (Some "secret"%string)
                  [(admin_login_click, @nil Emp.doc)] [] [] admin_login_click (@nil Emp.doc) eq_refl)).
Defined.

Lemma dashboard_needs_login_witness :
  let employees := snd (add_employee "E1" "Asha" "pw" []) in
  fst (browse None None [(employee_login_click, employees)] fresh_session)
  = [] ++ (employee_login_click, employees, Dashboard ("E1", "Asha")%string) :: []
  /\ exists c' employees' v' doc,
       In (c', employees', v')
          ([] ++ [(employee_login_click, employees, Dashboard ("E1", "Asha")%string)])
       /\ login_clicked c' = true
       /\ authenticate_employee (emp_id_input c') (pw_input c') employees' = Some doc
       /\ ("E1", "Asha")%string = (emp_id_input c', Emp.Name doc).
Proof.
  assert (H : fst (browse None None
                     [(employee_login_click, snd (add_employee "E1" "Asha" "pw" []))]
                     fresh_session)
              = [] ++ (employee_login_click, snd (add_employee "E1" "Asha" "pw" []),
                       Dashboard ("E1", "Asha")%string) :: [])
    by (vm_compute; reflexivity).
  split; [exact H |].
  exact (dashboard_needs_login None None
           [(employee_login_click, snd (add_employee "E1" "Asha" "pw" []))] [] []
           employee_login_click (snd (add_employee "E1" "Asha" "pw" []))
           ("E1", "Asha")%string H).
Defined.

Section SessionFacts.

Variables ADMIN_USERNAME ADMIN_PASSWORD : option string.

Lemma main_keeps_employee (c : controls) (employees : list Emp.doc) (ss : session_state)
    (emp : string * string) :
  employee ss = Some emp -> logout_clicked c = false ->
  employee (fst (main ADMIN_USERNAME ADMIN_PASSWORD c employees ss)) = Some emp
  /\ (page_choice c = EmployeeLoginPage ->
      snd (main ADMIN_USERNAME ADMIN_PASSWORD c employees ss) = Dashboard emp).
Proof.
  intros He Hl. unfold main, main_pass. destruct (page_choice c) eqn:Hp.
  - rewrite He, Hl. simpl. auto.
  - split; [| discriminate].
    destruct (authenticated ss) as [[|] |] eqn:Ha; simpl; rewrite ?Ha; simpl;
      repeat match goal with
        | |- context [if ?b then _ else _] => destruct b; simpl; rewrite ?Hp; simpl
        end;
      rewrite ?Ha; simpl; exact He.
Qed.

(** X13. Once an employee is logged in, the session is all [main] looks at:
    until "Logout" is clicked, every interaction on the employee page runs
    [employee_dashboard()] for that employee, whatever the employees
    collection holds by then, also after the employee was removed. *)
Theorem session_outlives_employee :
  forall events ss emp,
    employee ss = Some emp ->
    (forall c employees, In (c, employees) events -> logout_clicked c = false) ->
    forall c employees v,
      In (c, employees, v) (fst (browse ADMIN_USERNAME ADMIN_PASSWORD events ss)) ->
      page_choice c = EmployeeLoginPage ->
      v = Dashboard emp.
Proof.
  induction events as [| [c0 e0] rest IH]; intros ss emp He Hno c employees v Hin Hp.
  - destruct Hin.
  - destruct (main_keeps_employee c0 e0 ss emp He (Hno c0 e0 (or_introl eq_refl)))
      as [He1 Hv1].
    simpl in Hin. destruct (main ADMIN_USERNAME ADMIN_PASSWORD c0 e0 ss) as [ss1 v1].
    simpl in He1, Hv1.
    destruct (browse ADMIN_USERNAME ADMIN_PASSWORD rest ss1) as [tr ss2] eqn:Hb.
    simpl in Hin. destruct Hin as [Hin | Hin].
    + injection Hin as -> -> ->. auto.
    + apply (IH ss1 emp He1 (fun c' e' H => Hno c' e' (or_intror H)) c employees v);
        [rewrite Hb; exact Hin | exact Hp].
Qed.

End SessionFacts.

Lemma session_outlives_employee_witness :
  let ss := {| employee := Some ("E1", "Asha")%string; authenticated := None |} in
  let c := released employee_login_click in
  employee ss = Some ("E1", "Asha")%string
  /\ snd (main None None c [] ss) = Dashboard ("E1", "Asha")%string.
Proof.
  split; [reflexivity |].
  apply (session_outlives_employee None None
           [(released employee_login_click, @nil Emp.doc)]
           {| employee := Some ("E1", "Asha")%string; authenticated := None |}
           ("E1", "Asha")%string eq_refl)
    with (c := released employee_login_click) (employees := @nil Emp.doc).
  - intros c e [[= <- <-] | []]. reflexivity.
  - left. reflexivity.
  - reflexivity.
Defined.

(* ================================================================== *)
(** ** How the logging operations compose *)

Lemma find_update_first_other (q : attendance_doc -> bool)
    (f : attendance_doc -> attendance_doc) (l : list attendance_doc) (entry : attendance_doc) :
  NoDup (map _id l) -> In entry l -> q entry = false -> (forall x, q (f x) = q x) ->
  find q (update_first (fun d => Nat.eqb (_id d) (_id entry)) f l) = find q l.
Proof.
  intros Hnd Hin Hq Hf. induction l as [| x r IH]; simpl; [reflexivity |].
  destruct (Nat.eqb (_id x) (_id entry)) eqn:Hid.
  - apply Nat.eqb_eq in Hid.
    assert (x = entry) by (apply (NoDup_map_eq _id (x :: r)); simpl; auto).
    subst x. simpl. rewrite Hf, Hq. reflexivity.
  - simpl. destruct (q x); [reflexivity |].
    apply IH.
    + simpl in Hnd. inversion Hnd; assumption.
    + destruct Hin as [-> | Hin]; [rewrite Nat.eqb_refl in Hid; discriminate | exact Hin].
Qed.

Lemma matches_other_key (emp_id emp_id' : string) (date date' : Z) (d : attendance_doc) :
  (emp_id', date') <> (emp_id, date) ->
  matches_key emp_id (combine_min date) d = true ->
  matches_key emp_id' (combine_min date') d = false.
Proof.
  intros Hne Hk. apply matches_key_eq in Hk as [He Hd].
  destruct (matches_key emp_id' (combine_min date') d) eqn:Hk'; [| reflexivity].
  apply matches_key_eq in Hk' as [He' Hd'].
  exfalso. apply Hne. rewrite Hd in Hd'. injection Hd' as ->. congruence.
Qed.

Section Composition.

Context {pillow : Pillow}.

(** X14. Every operation touches the record of its own employee and day at
    most: in a reachable database, [find_one] for any other employee or day
    returns after the operation what it returned before. *)
Theorem step_touches_only_its_record :
  forall s, reachable s ->
    forall o emp_id date,
      op_key o <> Some (emp_id, date) ->
      find_one emp_id (combine_min date) (snd (step o s))
      = find_one emp_id (combine_min date) s.
Proof.
  intros s Hr o e' d' Hkey.
  pose proof (proj1 (reachable_ids_fresh s Hr)) as Hnd.
  destruct (step_effect_of o s) as
    [Heq _ _ | e n d ph c png Ho Hf _ _ Hs'
     | e d ph c entry text at0 hours png Ho Hf _ _ _ _ _ _ Hs'
     | e d a l entry Ho Hf _ Hs']; unfold find_one.
  - rewrite Heq. reflexivity.
  - rewrite Hs'. simpl.
    destruct (find (matches_key e' (combine_min d')) (attendance_collection s)) as [r |] eqn:Hf'.
    + apply find_app_some. exact Hf'.
    + rewrite (find_app_none _ _ _ Hf').
      destruct (matches_key e' (combine_min d') _) eqn:Hk; [| reflexivity].
      apply matches_key_eq in Hk as [He Hd]. simpl in He, Hd.
      exfalso. apply Hkey. rewrite Ho. simpl. injection Hd as ->. congruence.
  - rewrite Hs'. simpl. apply find_some in Hf as [Hin Hk].
    apply find_update_first_other; auto.
    apply (matches_other_key e e' d d'); [| exact Hk].
    intros E. apply Hkey. rewrite Ho. simpl. congruence.
  - rewrite Hs'. simpl. apply find_some in Hf as [Hin Hk].
    apply find_update_first_other; auto.
    apply (matches_other_key e e' d d'); [| exact Hk].
    intros E. apply Hkey. rewrite Ho. simpl. congruence.
Qed.

(** X15. An arrival and then a leaving: in a reachable database with no
    record for the employee and the day, after a [log_arrival] with a photo
    [save_image] accepts, a [log_leaving] for the same employee and day
    with such a photo succeeds, on every day but the last one a [datetime]
    can hold, and on that day too when the leaving time of day does not
    precede the arrival's: the arrival text is parsed back to the time it
    was written from, and the record ends with both time texts, the leaving
    photo, and as hours the rounded time between the two clock readings,
    which is not negative.  On the last day (9999-12-31), with a leaving
    time of day before the arrival's, the call raises [OverflowError] and
    the database stays as the arrival left it. *)
Theorem arrival_then_leaving_completes :
  forall s emp_id name date photo clock photo' clock' png',
    reachable s ->
    find_one emp_id (combine_min date) s = None ->
    save_image photo <> None ->
    save_image photo' = Some png' ->
    let arrival_time := get_current_ist_time clock in
    let leaving_time := get_current_ist_time clock' in
    let s1 := snd (log_arrival emp_id name date photo clock s) in
    let out := log_leaving emp_id date photo' clock' s1 in
    (minutes_of arrival_time <= minutes_of leaving_time \/ 1 <= date < MAXORDINAL ->
     exists hours,
       elapsed_hours date arrival_time leaving_time = Some hours
       /\ fst out = Returned LeavingLogged
       /\ PrimFloat.leb 0 hours = true
       /\ exists r, find_one emp_id (combine_min date) (snd out) = Some r
                    /\ Arrival_Time r = Some (strftime_I_M_p arrival_time)
                    /\ Leaving_Time r = Some (strftime_I_M_p leaving_time)
                    /\ Hours_Present r = Some hours
                    /\ Leaving_Photo r = Some png')
    /\ (minutes_of leaving_time < minutes_of arrival_time -> date = MAXORDINAL ->
        out = (Raised OverflowError, s1)).
Proof.
  intros s e n d ph c ph' c' png' Hr Hf Hp Hp' at0 lt0 s1 out.
  assert (Hr1 : reachable s1).
  { pose proof (reachable_step (LogArrival e n d ph c) s Hr) as H.
    unfold s1. simpl in H. destruct (log_arrival e n d ph c s). exact H. }
  destruct (log_arrival_cases e n d ph c s) as
    [(r & Hf0 & _) | [(_ & Hp0 & _) | (png & _ & Hpng & E)]]; try congruence.
  assert (Hs1 : s1 = insert_one (new_entry e n (combine_min d)
                                   (strftime_I_M_p (get_current_ist_time c)) png) s)
    by (unfold s1; rewrite E; reflexivity).
  pose proof (find_one_inserted e n d c png s Hf) as Hf1. rewrite <- Hs1 in Hf1.
  assert (Hout : out = match elapsed_hours d at0 lt0 with
                       | None => (Raised OverflowError, s1)
                       | Some hours =>
                           (Returned LeavingLogged,
                            update_one (_id (arrival_record e n d c png s))
                              (set_leaving (strftime_I_M_p lt0) hours png') s1)
                       end).
  { unfold out, log_leaving. rewrite Hf1. simpl.
    rewrite (strptime_strftime _ (get_current_ist_time_wf c)).
    fold at0 lt0. destruct (elapsed_hours d at0 lt0); [rewrite Hp' |]; reflexivity. }
  split.
  - intros Hd.
    pose proof (elapsed_hours_rounded d at0 lt0 (get_current_ist_time_wf c)
                  (get_current_ist_time_wf c') Hd) as Hh.
    rewrite Hh in Hout. eexists. split; [exact Hh |].
    rewrite Hout. simpl. split; [reflexivity | split].
    + apply (elapsed_hours_nonneg d at0 lt0); auto; apply get_current_ist_time_wf.
    + exists (set_leaving (strftime_I_M_p lt0)
                (float_of_hundredths (nearest_hundredth (wrapped_minutes at0 lt0))) png'
                (arrival_record e n d c png s)).
      split; [| repeat split].
      unfold find_one, update_one. simpl.
      apply (find_update_first _ _ _ (arrival_record e n d c png s)).
      * apply reachable_ids_fresh. exact Hr1.
      * intros x. reflexivity.
      * exact Hf1.
  - intros Hlt ->. rewrite Hout.
    rewrite (elapsed_hours_overflow MAXORDINAL at0 lt0);
      [reflexivity | apply get_current_ist_time_wf | apply get_current_ist_time_wf
       | exact Hlt | lia].
Qed.

End Composition.

Lemma step_touches_only_its_record_witness :
  @reachable raw_pillow arrived_db
  /\ op_key (LogLeaving "E1" day0 JPEG_SOI clock_1730) <> Some ("E1"%string, day0 + 1)
  /\ find_one "E1" (combine_min (day0 + 1))
       (snd (@step raw_pillow (LogLeaving "E1" day0 JPEG_SOI clock_1730) arrived_db))
     = find_one "E1" (combine_min (day0 + 1)) arrived_db.
Proof.
  assert (Hr : @reachable raw_pillow arrived_db).
  { exact (@reachable_step raw_pillow
             (LogArrival "E1" "Asha" day0 JPEG_SOI clock_0900) empty_db
             (@reachable_empty raw_pillow)). }
  assert (Hk : op_key (LogLeaving "E1" day0 JPEG_SOI clock_1730)
               <> Some ("E1"%string, day0 + 1)) by discriminate.
  split; [exact Hr | split; [exact Hk |]].
  exact (@step_touches_only_its_record raw_pillow arrived_db Hr
           (LogLeaving "E1" day0 JPEG_SOI clock_1730) "E1"%string (day0 + 1) Hk).
Defined.

Lemma arrival_then_leaving_completes_witness :
  let out := @log_leaving raw_pillow "E1" day0 JPEG_SOI clock_1730
               (snd (@log_arrival raw_pillow "E1" "Asha" day0 JPEG_SOI clock_0900 empty_db)) in
  fst out = Returned LeavingLogged
  /\ exists r, find_one "E1" (combine_min day0) (snd out) = Some r
               /\ Hours_Present r = Some 8.5%float.
Proof.
  assert (Hp : @save_image raw_pillow JPEG_SOI <> None) by discriminate.
  assert (Hd : minutes_of (get_current_ist_time clock_0900)
               <= minutes_of (get_current_ist_time clock_1730)
               \/ 1 <= day0 < MAXORDINAL)
    by (right; unfold day0, MAXORDINAL; lia).
  destruct (proj1 (@arrival_then_leaving_completes raw_pillow empty_db "E1"%string
                     "Asha"%string day0 JPEG_SOI clock_0900 JPEG_SOI clock_1730
                     (PNG_SIGNATURE ++ JPEG_SOI)
                     (@reachable_empty raw_pillow) eq_refl Hp eq_refl) Hd)
    as (hours & Hh & Hok & _ & r & Hf & _ & _ & Hr & _).
  split; [exact Hok |]. exists r. split; [exact Hf |].
  rewrite Hr, <- Hh. vm_compute. reflexivity.
Defined.

(** ** Texts that are not ASCII *)

(** Whitespace of any script is stripped, and a digit of any script is read
    as the second digit of the minutes. *)
Example strip_no_break_space :
  strip (NO_BREAK_SPACE ++ " E1 " ++ NO_BREAK_SPACE) = "E1"%string
  /\ all_space (NO_BREAK_SPACE ++ " ") = true.
Proof. split; vm_compute; reflexivity. Qed.

Example strptime_arabic_indic_digit :
  strptime_I_M_p ("9:0" ++ ARABIC_INDIC_ZERO ++ NO_BREAK_SPACE ++ "AM") = Some (mk_time 9 0)
  /\ strptime_I_M_p (ARABIC_INDIC_ZERO ++ "9:00 AM") = None
  /\ edited_hours (Some ("9:0" ++ ARABIC_INDIC_ZERO ++ " AM")%string) (Some "10:00 AM"%string)
     = Some 1%float.
Proof. repeat split; vm_compute; reflexivity. Qed.

(** SHA-256 of "abc", as FIPS 180-4 lists it. *)
Example hash_password_abc :
  hash_password "abc"
  = "ba7816bf8f01cfea414140de5dae2223b00361a396177a9cb410ff61f20015ad"%string.
Proof. vm_compute. reflexivity. Qed.
